(** * datool: attribution of authorship over git and GitHub history

    A shallow embedding of [src/datool.py] and the properties of its
    identity registry, process cache, history and review data layers and
    attribution engine.

    Conventions of the embedding:
    - Python [str] is [string]; the model is exact on ASCII text (case
      mapping and white space of characters above 127 are left as they are).
    - Python [dict] is stdpp's [gmap]; [set] is [gset]; [list] is [list].
    - An [Author] is hashed and compared by [(name, email)] in the source, so
      dictionaries and sets of authors are keyed by that pair.
    - Exceptions are the type [exn]; a computation that may raise returns
      [result]; the process cache is threaded explicitly.
    - The external commands ([git], [gh]) and the library function
      [fnmatch] are parameters of the sections that use them. *)

From Stdlib Require Import ZArith Ascii String List Bool Lia.
From stdpp Require Import base option list gmap strings pretty.

Local Open Scope Z_scope.
Local Open Scope nat_scope.

(** ** Python string primitives *)
Module PyStr.

(** [str.isspace] on one character: TAB..CR, FS..US and the space. *)
Definition is_space (c : ascii) : bool :=
  let n := nat_of_ascii c in
  ((9 <=? n) && (n <=? 13)) || ((28 <=? n) && (n <=? 32)).

Definition lower_char (c : ascii) : ascii :=
  let n := nat_of_ascii c in
  if (65 <=? n) && (n <=? 90) then ascii_of_nat (n + 32) else c.

Definition upper_char (c : ascii) : ascii :=
  let n := nat_of_ascii c in
  if (97 <=? n) && (n <=? 122) then ascii_of_nat (n - 32) else c.

(** [s.lower()] and [s.upper()] *)
Fixpoint lower (s : string) : string :=
  match s with
  | EmptyString => EmptyString
  | String c s' => String (lower_char c) (lower s')
  end.

Fixpoint upper (s : string) : string :=
  match s with
  | EmptyString => EmptyString
  | String c s' => String (upper_char c) (upper s')
  end.

(** Removal of the characters satisfying [p] from the left end, the right
    end and both ends. *)
Fixpoint lstrip_by (p : ascii -> bool) (s : string) : string :=
  match s with
  | EmptyString => EmptyString
  | String c s' => if p c then lstrip_by p s' else s
  end.

Fixpoint rstrip_by (p : ascii -> bool) (s : string) : string :=
  match s with
  | EmptyString => EmptyString
  | String c s' =>
      match rstrip_by p s' with
      | EmptyString => if p c then EmptyString else String c EmptyString
      | r => String c r
      end
  end.

Definition strip_by (p : ascii -> bool) (s : string) : string :=
  rstrip_by p (lstrip_by p s).

(** [s.strip()] *)
Definition strip (s : string) : string := strip_by is_space s.

Fixpoint mem_char (c : ascii) (chars : string) : bool :=
  match chars with
  | EmptyString => false
  | String d chars' => Ascii.eqb c d || mem_char c chars'
  end.

(** [s.strip(chars)] *)
Definition strip_chars (chars : string) (s : string) : string :=
  strip_by (fun c => mem_char c chars) s.

(** [s.startswith(p)] *)
Definition startswith (p s : string) : bool := String.prefix p s.

(** [needle in hay] *)
Fixpoint contains (needle hay : string) : bool :=
  match hay with
  | EmptyString => String.prefix needle EmptyString
  | String _ hay' => String.prefix needle hay || contains needle hay'
  end.

(** [s[:n]] and [s[n:]] *)
Fixpoint take (n : nat) (s : string) : string :=
  match n, s with
  | S n', String c s' => String c (take n' s')
  | _, _ => EmptyString
  end.

Fixpoint drop (n : nat) (s : string) : string :=
  match n, s with
  | S n', String _ s' => drop n' s'
  | _, _ => s
  end.

Fixpoint all_chars (p : ascii -> bool) (s : string) : bool :=
  match s with
  | EmptyString => true
  | String c s' => p c && all_chars p s'
  end.

(** The line boundaries of [str.splitlines] below 128: LF, VT, FF, CR,
    FS, GS, RS; CR LF counts as one boundary. *)
Definition is_linebreak (c : ascii) : bool :=
  let n := nat_of_ascii c in
  ((10 <=? n) && (n <=? 13)) || ((28 <=? n) && (n <=? 30)).

Fixpoint splitlines_from (cur : string) (s : string) : list string :=
  match s with
  | EmptyString =>
      match cur with EmptyString => [] | _ => [cur] end
  | String c s' =>
      if Ascii.eqb c "013" then
        match s' with
        | String d s'' =>
            if Ascii.eqb d "010" then cur :: splitlines_from EmptyString s''
            else cur :: splitlines_from EmptyString s'
        | EmptyString => [cur]
        end
      else if is_linebreak c then cur :: splitlines_from EmptyString s'
      else splitlines_from (cur +:+ String c EmptyString) s'
  end.

(** [s.splitlines()] *)
Definition splitlines (s : string) : list string :=
  splitlines_from EmptyString s.

(** [s.split(sep)] for a one-character separator: empty fields are kept. *)
Fixpoint split_from (sep : ascii) (cur : string) (s : string) : list string :=
  match s with
  | EmptyString => [cur]
  | String c s' =>
      if Ascii.eqb c sep then cur :: split_from sep EmptyString s'
      else split_from sep (cur +:+ String c EmptyString) s'
  end.

Definition split (sep : ascii) (s : string) : list string :=
  split_from sep EmptyString s.

(** Truth value of a string: non-empty. *)
Definition truthy (s : string) : bool :=
  match s with EmptyString => false | _ => true end.

(** [a or b] on strings *)
Definition or_else (a b : string) : string := if truthy a then a else b.

Definition is_hex_digit (c : ascii) : bool := mem_char c "0123456789abcdef".

End PyStr.

(** ** Exceptions and results *)

(** The exception classes of the source that the modelled code raises or
    catches. [CommitNotFoundError] and [FileNotFoundInRepoError] also carry
    the repository path in the source; one repository is analysed per run,
    so it is left out. *)
Inductive exn : Type :=
| CommitNotFoundError (commit : string)
| FileNotFoundInRepoError (file_path commit : string)
| ExecutableNotFoundError (command : string)
| StudentsConfigError (msg : string)
| GitHubApiError (msg : string)
| UnknownAuthorError (name email context_type context_detail : string)
| CalledProcessError (stderr : string)
| JSONDecodeError (msg : string)
| IndexError
| ValueError
| TypeError.

Inductive result (A : Type) : Type :=
| Ok (a : A)
| Raise (e : exn).
Arguments Ok {A} a.
Arguments Raise {A} e.

(** Sequencing of computations that may raise, in stdpp's monad notation
    [x ← r; k]. *)
#[global] Instance result_ret : MRet result := fun A a => Ok a.
#[global] Instance result_bind : MBind result := fun A B k r =>
  match r with
  | Ok a => k a
  | Raise e => Raise e
  end.

(** ** Identity registry: class [Author] *)

Record Author : Type := mkAuthor {
  name : string;
  email : string;
  github_username : string;
  student_id : string;
  other_names : list string;
  other_emails : list string;
  allow_auto_update : bool
}.

(** [Author.__hash__] and [Author.__eq__] use the pair [(name, email)]. *)
Definition author_key (a : Author) : string * string := (name a, email a).

(** [Author._registry] *)
Abbreviation registry := (gmap (string * string) Author).

(** [Author.get] *)
Definition Author_get (reg : registry)
    (name email context_type context_detail : string) : result Author :=
  match reg !! (name, email) with
  | None => Raise (UnknownAuthorError name email context_type context_detail)
  | Some a => Ok a
  end.

(** [Author.register]: the registered instance and the new registry. *)
Definition Author_register (author : Author) (reg : registry)
  : Author * registry :=
  let key := (name author, email author) in
  match reg !! key with
  | None => (author, <[key := author]> reg)
  | Some a => (a, reg)
  end.

(** The body of the two nested loops of [Author.register_with_aliases]. *)
Definition register_key (registered : Author) (reg : registry)
    (key : string * string) : registry :=
  match reg !! key with
  | None => <[key := registered]> reg
  | Some _ => reg
  end.

Definition alias_keys (all_names all_emails : list string)
  : list (string * string) :=
  n ← all_names; e ← all_emails; [(n, e)].

(** [Author.register_with_aliases] *)
Definition Author_register_with_aliases (author : Author) (reg : registry)
  : Author * registry :=
  let '(registered, reg1) := Author_register author reg in
  let all_names := name author :: other_names author in
  let all_emails := email author :: other_emails author in
  (registered,
   fold_left (register_key registered) (alias_keys all_names all_emails) reg1).

(** ** A backtracking matcher for the regular expressions of the source

    Python's [re] explores alternatives in priority order and returns the
    first complete match; the matcher below does the same, with the rest of
    the pattern as a continuation. Only the constructs that occur in the
    patterns of [Commit.get_co_authors] are present. *)
Module Regex.

Inductive re : Type :=
| Bol                          (* ^ *)
| Eol                          (* $ without MULTILINE *)
| Chr (c : ascii)              (* a literal, under IGNORECASE *)
| CSet (p : ascii -> bool)     (* a class: \s \S . [...] *)
| Cat (r1 r2 : re)
| Opt (r : re)                 (* r? (greedy) *)
| Star (greedy : bool) (r : re)  (* r* and r*? *)
| Grp (n : nat) (r : re).      (* capturing group number n *)

(** r+ and r+? *)
Definition Plus (greedy : bool) (r : re) : re := Cat r (Star greedy r).

(** A literal word, character by character. *)
Fixpoint Lit (s : string) (rest : re) : re :=
  match s with
  | EmptyString => rest
  | String c s' => Cat (Chr c) (Lit s' rest)
  end.

Definition captures := list (nat * string).

Definition chr_eq_nocase (c x : ascii) : bool :=
  Ascii.eqb (PyStr.lower_char c) (PyStr.lower_char x).

Definition K := nat -> list ascii -> captures -> option captures.

(** The loop of [r*] and [r*?] over the matcher [m1] of [r], followed by
    [k]. An iteration must consume text, so the length of the text bounds
    the number of iterations: that is the fuel. The greedy loop tries one
    more iteration before it tries to go on with [k]; the lazy loop tries
    [k] first. *)
Fixpoint star_loop (m1 : nat -> list ascii -> captures -> K -> option captures)
    (greedy : bool) (k : K) (fuel : nat) (pos : nat) (s : list ascii)
    (caps : captures) {struct fuel} : option captures :=
  match fuel with
  | 0 => k pos s caps
  | S fuel' =>
      if greedy then
        match m1 pos s caps
                (fun pos' s' caps' =>
                   if pos <? pos' then star_loop m1 greedy k fuel' pos' s' caps'
                   else None) with
        | Some c => Some c
        | None => k pos s caps
        end
      else
        match k pos s caps with
        | Some c => Some c
        | None =>
            m1 pos s caps
              (fun pos' s' caps' =>
                 if pos <? pos' then star_loop m1 greedy k fuel' pos' s' caps'
                 else None)
        end
  end.

(** [rmatch r pos s caps k]: match [r] at offset [pos], where [s] is the
    text from [pos] on, then continue with [k]. *)
Fixpoint rmatch (r : re) (pos : nat) (s : list ascii) (caps : captures)
    (k : K) {struct r} : option captures :=
  match r with
  | Bol => if pos =? 0 then k pos s caps else None
  | Eol =>
      match s with
      | [] => k pos s caps
      | [c] => if Ascii.eqb c "010" then k pos s caps else None
      | _ => None
      end
  | Chr c =>
      match s with
      | x :: s' => if chr_eq_nocase c x then k (S pos) s' caps else None
      | [] => None
      end
  | CSet p =>
      match s with
      | x :: s' => if p x then k (S pos) s' caps else None
      | [] => None
      end
  | Cat r1 r2 =>
      rmatch r1 pos s caps (fun pos' s' caps' => rmatch r2 pos' s' caps' k)
  | Opt r1 =>
      match rmatch r1 pos s caps k with
      | Some c => Some c
      | None => k pos s caps
      end
  | Star greedy r1 => star_loop (rmatch r1) greedy k (length s) pos s caps
  | Grp n r1 =>
      rmatch r1 pos s caps
        (fun pos' s' caps' =>
           k pos' s' ((n, string_of_list_ascii (firstn (pos' - pos) s)) :: caps'))
  end.

(** [pattern.match(text)]: the captures of the first match, if any. *)
Definition pmatch (r : re) (text : string) : option captures :=
  rmatch r 0 (list_ascii_of_string text) [] (fun _ _ caps => Some caps).

(** [match.group(n)] for a group that took part in the match. *)
Fixpoint group (n : nat) (caps : captures) : string :=
  match caps with
  | [] => EmptyString
  | (m, s) :: caps' => if n =? m then s else group n caps'
  end.

Definition ws : re := CSet PyStr.is_space.                       (* \s *)
Definition non_ws : re := CSet (fun c => negb (PyStr.is_space c)). (* \S *)
Definition dot : re := CSet (fun c => negb (Ascii.eqb c "010")).  (* . *)
Definition not_gt : re := CSet (fun c => negb (Ascii.eqb c ">")). (* [^>] *)
Definition colon_or_ws : re :=                                    (* [:\s] *)
  CSet (fun c => Ascii.eqb c ":" || PyStr.is_space c).

(** \S+@\S+ as group 2 *)
Definition email_token : re :=
  Grp 2 (Cat (Plus true non_ws) (Cat (Chr "@") (Plus true non_ws))).

End Regex.

(** ** History data layer: class [Commit] *)

Record Commit : Type := mkCommit {
  hash : string;
  author : Author;
  date : string;
  message_lines : list string
}.

Section CoAuthors.
Import Regex.

(** [^Co-authored-by:\s*(.+?)\s*<([^>]+)>\s*$] *)
Definition precise_pattern : re :=
  Cat Bol (Lit "Co-authored-by:"
    (Cat (Star true ws) (Cat (Grp 1 (Plus false dot)) (Cat (Star true ws)
      (Cat (Chr "<") (Cat (Grp 2 (Plus true not_gt)) (Cat (Chr ">")
        (Cat (Star true ws) Eol)))))))).

(** [^Co-authored-by:\s*(.+?)\s+(\S+@\S+)\s*$] *)
Definition no_brackets_pattern : re :=
  Cat Bol (Lit "Co-authored-by:"
    (Cat (Star true ws) (Cat (Grp 1 (Plus false dot)) (Cat (Plus true ws)
      (Cat email_token (Cat (Star true ws) Eol)))))).

(** [^co-authored(?:-by)?[:\s]+(.+?)\s+(\S+@\S+)\s*$] *)
Definition loose_pattern : re :=
  Cat Bol (Lit "co-authored"
    (Cat (Opt (Lit "-b" (Chr "y"))) (Cat (Plus true colon_or_ws)
      (Cat (Grp 1 (Plus false dot)) (Cat (Plus true ws)
        (Cat email_token (Cat (Star true ws) Eol))))))).

(** The pattern cascade of the loop body: the values of [name] and
    [email] after the three attempts. *)
Definition match_trailer (stripped : string) : option string * option string :=
  match pmatch precise_pattern stripped with
  | Some m => (Some (PyStr.strip (group 1 m)), Some (PyStr.strip (group 2 m)))
  | None =>
      match pmatch no_brackets_pattern stripped with
      | Some m => (Some (PyStr.strip (group 1 m)), Some (PyStr.strip (group 2 m)))
      | None =>
          match pmatch loose_pattern stripped with
          | Some m =>
              (Some (PyStr.strip (group 1 m)), Some (PyStr.strip (group 2 m)))
          | None => (None, None)
          end
      end
  end.

(** One iteration of the loop of [Commit.get_co_authors]: the author to
    append, if the line is a trailer. *)
Definition co_author_of_line (reg : registry) (self : Commit) (line : string)
  : result (option Author) :=
  let stripped := PyStr.strip line in
  match match_trailer stripped with
  | (Some name, Some email) =>
      if PyStr.truthy name && PyStr.truthy email then
        let email := PyStr.strip_chars "<>" email in
        a ← Author_get reg name email "co-author in commit"
              (PyStr.take 8 (hash self));
        Ok (Some a)
      else Ok None
  | _ => Ok None
  end.

Fixpoint co_authors_loop (reg : registry) (self : Commit)
    (lines : list string) (co_authors : list Author) : result (list Author) :=
  match lines with
  | [] => Ok co_authors
  | line :: lines' =>
      r ← co_author_of_line reg self line;
      co_authors_loop reg self lines'
        (match r with Some a => co_authors ++ [a] | None => co_authors end)
  end.

(** [Commit.get_co_authors] *)
Definition get_co_authors (reg : registry) (self : Commit)
  : result (list Author) :=
  co_authors_loop reg self (message_lines self) [].

End CoAuthors.

(** ** Review data: the dataclasses of a pull request *)

Record PullRequestReview : Type := mkReview {
  reviewer_username : string;
  review_state : string;      (* [state] of the source *)
  submitted_at : string
}.

Record PullRequestCommit : Type := mkPRCommit {
  commit_hash : string;              (* [hash] *)
  commit_author_username : string;   (* [author_username] *)
  commit_author_email : string;      (* [author_email] *)
  commit_message : string;           (* [message] *)
  commit_date : string;              (* [date] *)
  co_authors : list string
}.

Record PullRequestFile : Type := mkPRFile {
  file_path : string;                (* [path] *)
  additions : Z;
  deletions : Z;
  has_non_whitespace_changes : bool
}.

Record PullRequest : Type := mkPR {
  number : Z;
  author_username : string;
  created_at : string;
  state : string;
  merged_at : option string;
  merged_by_username : option string;
  commits : list PullRequestCommit;
  reviews : list PullRequestReview;
  files : list PullRequestFile
}.

(** [PullRequest.is_merged] and [PullRequest.is_open] *)
Definition is_merged (pr : PullRequest) : bool := String.eqb (state pr) "MERGED".
Definition is_open (pr : PullRequest) : bool := String.eqb (state pr) "OPEN".

(** ** The results of the attribution engine and the roster *)

Record GitHubStats : Type := mkGitHubStats {
  prs_alone_merged : nat;
  prs_alone_open : nat;
  prs_collab_merged : nat;
  prs_collab_open : nat;
  approvals_given : nat;
  change_requests_given : nat
}.

Record StudentsConfig : Type := mkStudentsConfig {
  students : list Author;
  ignore : list Author;
  include_patterns : list string;
  exclude_patterns : list string
}.

(** [GitHubStatsData], [LinesData] and [CommitsData]: dictionaries
    keyed by [Author]. *)
Abbreviation GitHubStatsData := (gmap (string * string) GitHubStats).
Abbreviation LinesData := (gmap (string * string) (gmap string (list string))).
Abbreviation CommitsData := (gmap (string * string) (gset string)).

(** ** Process cache *)

(** The module-level variables [_cache], [_pr_cache] and [_cache_dirty]. *)
Record globals : Type := mkGlobals {
  _cache : gmap string string;
  _pr_cache : gmap (string * Z) PullRequest;
  _cache_dirty : bool
}.

(** Code that reads and writes the globals and may raise: the globals
    survive an exception. *)
Definition M (A : Type) : Type := globals -> result A * globals.

#[global] Instance M_ret : MRet M := fun A a g => (Ok a, g).
#[global] Instance M_bind : MBind M := fun A B k m g =>
  match m g with
  | (Ok a, g') => k a g'
  | (Raise e, g') => (Raise e, g')
  end.

Definition raise {A} (e : exn) : M A := fun g => (Raise e, g).
Definition lift {A} (r : result A) : M A := fun g => (r, g).

(** [try: m except <classes>: h]: [catches e] tells whether the except
    clause applies to [e]. *)
Definition try_except {A} (m : M A) (catches : exn -> bool) (h : exn -> M A)
  : M A :=
  fun g =>
    match m g with
    | (Ok a, g') => (Ok a, g')
    | (Raise e, g') => if catches e then h e g' else (Raise e, g')
    end.

(** [for x in l: body] over an accumulator, where the body may raise. *)
Fixpoint for_each {A S} (body : S -> A -> M S) (l : list A) (s : S) : M S :=
  match l with
  | [] => mret s
  | x :: l' => s' ← body s x; for_each body l' s'
  end.

Section Git.
(** The git command: the arguments give either the standard output, or
    the standard error of a failed run ([subprocess.CalledProcessError]). *)
Variable run_git : list string -> string + string.

(** [Executable.__call__] for the global [git] *)
Definition git (args : list string) (cache_key : string) : M string :=
  fun g =>
    match _cache g !! cache_key with
    | Some out => (Ok out, g)
    | None =>
        match run_git args with
        | inl stdout =>
            (Ok stdout,
             {| _cache := <[cache_key := stdout]> (_cache g);
                _pr_cache := _pr_cache g;
                _cache_dirty := true |})
        | inr stderr => (Raise (CalledProcessError stderr), g)
        end
    end.

Definition is_CalledProcessError (e : exn) : bool :=
  match e with CalledProcessError _ => true | _ => false end.

Section Repo.
(** [repo.path] (as a string) and [repo.repo_id] *)
Variable repo_path : string.
Variable repo_id : string.
Variable reg : registry.

Definition nth_line (lines : list string) (i : nat) : string :=
  match lines !! i with Some l => l | None => "" end.

(** [while message_lines and not message_lines[-1]: message_lines.pop()] *)
Fixpoint pop_empty_tail (message_lines : list string) : list string :=
  match message_lines with
  | [] => []
  | l :: rest =>
      match pop_empty_tail rest with
      | [] => if PyStr.truthy l then [l] else []
      | rest' => l :: rest'
      end
  end.

(** [Commit.get] and [Repo.get_commit] *)
Definition Commit_get (commit_hash : string) : M Commit :=
  out ← try_except
           (git ["-C"; repo_path; "rev-parse"; commit_hash]
                ("rev-parse:" +:+ repo_id +:+ ":" +:+ commit_hash))
           is_CalledProcessError
           (fun _ => raise (CommitNotFoundError commit_hash));
  let resolved_hash := PyStr.strip out in
  stdout ← git ["-C"; repo_path; "show"; "-s"; "--format=%aN%n%aE%n%as%n%B";
                resolved_hash]
               ("commit:" +:+ resolved_hash);
  let lines := PyStr.splitlines stdout in
  let author_name := nth_line lines 0 in
  let author_email := nth_line lines 1 in
  let commit_date := nth_line lines 2 in
  author ← lift (Author_get reg author_name author_email "commit"
                   (PyStr.take 8 resolved_hash));
  let message_lines := pop_empty_tail (drop 3 lines) in
  mret {| hash := resolved_hash; author := author; date := commit_date;
          message_lines := message_lines |}.

Definition get_commit (commit_hash : string) : M Commit :=
  Commit_get commit_hash.


(** *** class [TrackedFile] *)

Record TrackedFile : Type := mkTrackedFile {
  path : string;
  lines : list (Commit * string)
}.

(** [len(line) >= 40 and all(c in "0123456789abcdef" for c in line[:40])] *)
Definition is_blame_header (line : string) : bool :=
  (40 <=? String.length line)
  && PyStr.all_chars PyStr.is_hex_digit (PyStr.take 40 line).

(** The state of the parsing loop of [TrackedFile.get]:
    [lines], [current_hash] and [commit_cache]. *)
Definition blame_state : Type :=
  list (Commit * string) * option string * gmap string Commit.

Definition blame_line (st : blame_state) (line : string) : M blame_state :=
  let '(lines, current_hash, commit_cache) := st in
  if is_blame_header line then
    mret (lines, Some (PyStr.take 40 line), commit_cache)
  else if PyStr.startswith (String "009" "") line then
    match current_hash with
    | Some h =>
        let content := PyStr.drop 1 line in
        match commit_cache !! h with
        | Some c => mret (lines ++ [(c, content)], current_hash, commit_cache)
        | None =>
            c ← get_commit h;
            mret (lines ++ [(c, content)], current_hash, <[h := c]> commit_cache)
        end
    | None => mret st
    end
  else mret st.

(** The except clause around the blame command. *)
Definition blame_failure (file_path resolved_commit : string) (e : exn)
  : M string :=
  match e with
  | CalledProcessError stderr =>
      if PyStr.contains "no such path" (PyStr.lower stderr)
         || PyStr.contains "fatal:" (PyStr.lower stderr)
      then raise (FileNotFoundInRepoError file_path resolved_commit)
      else raise e
  | _ => raise e
  end.

(** [TrackedFile.get] and [Repo.get_tracked_file] *)
Definition TrackedFile_get (file_path : string) (commit : string)
  : M TrackedFile :=
  out ← try_except
           (git ["-C"; repo_path; "rev-parse"; commit]
                ("rev-parse:" +:+ repo_id +:+ ":" +:+ commit))
           is_CalledProcessError
           (fun _ => raise (CommitNotFoundError commit));
  let resolved_commit := PyStr.strip out in
  stdout ← try_except
             (git ["-C"; repo_path; "blame"; "--porcelain"; "-M"; "-C"; "-C";
                   resolved_commit; "--"; file_path]
                  ("blame:" +:+ resolved_commit +:+ ":" +:+ file_path))
             is_CalledProcessError
             (blame_failure file_path resolved_commit);
  st ← for_each blame_line (PyStr.splitlines stdout) ([], None, ∅);
  mret {| path := file_path; lines := st.1.1 |}.

(** The library function [fnmatch.fnmatch path pattern]. *)
Variable fnmatch : string -> string -> bool.

(** [for tracked_file in TrackedFile.files(pattern, repo, commit): body].
    The source is a generator: the listing runs when the loop starts and
    each file is blamed just before the body runs on it. *)
Definition for_TrackedFile_files {S} (pattern : string) (commit : string)
    (body : S -> TrackedFile -> M S) (s : S) : M S :=
  stdout ← git ["-C"; repo_path; "ls-tree"; "-r"; "--name-only"; commit]
               ("ls-tree:" +:+ repo_id +:+ ":" +:+ commit);
  for_each
    (fun s file_path =>
       if fnmatch file_path pattern then
         tf ← TrackedFile_get file_path commit; body s tf
       else mret s)
    (PyStr.splitlines stdout) s.

(** [list(TrackedFile.files(pattern, repo, commit))] *)
Definition TrackedFile_files (pattern : string) (commit : string)
  : M (list TrackedFile) :=
  for_TrackedFile_files pattern commit (fun l tf => mret (l ++ [tf])) [].

(** *** [Repo.get_all_commits] *)

Definition is_full_hash (line : string) : bool :=
  (String.length line =? 40) && PyStr.all_chars PyStr.is_hex_digit line.

(** [commits], [current_hash], [current_files] *)
Definition log_state : Type :=
  list (string * list string) * option string * list string.

Definition log_line (st : log_state) (line : string) : log_state :=
  let '(commits, current_hash, current_files) := st in
  let line := PyStr.strip line in
  if negb (PyStr.truthy line) then st
  else if is_full_hash line then
    (match current_hash with
     | Some h => commits ++ [(h, current_files)]
     | None => commits
     end, Some line, [])
  else (commits, current_hash, current_files ++ [line]).

Definition get_all_commits : M (list (string * list string)) :=
  stdout ← git ["-C"; repo_path; "log"; "--pretty=format:%H"; "--name-only"]
               ("log-files:" +:+ repo_id);
  let '(commits, current_hash, current_files) :=
    fold_left log_line (PyStr.splitlines stdout) ([], None, []) in
  mret (match current_hash with
        | Some h => commits ++ [(h, current_files)]
        | None => commits
        end).

(** *** Non-whitespace detection in a unified diff

    The loop shared by [Repo.get_commit_non_whitespace_files] and
    [Repo._get_pr_diff_non_whitespace_files]; its state is
    [files_with_changes] and [current_file]. *)
Definition diff_state : Type := gset string * option string.

Definition diff_line (st : diff_state) (line : string) : diff_state :=
  let '(files_with_changes, current_file) := st in
  if PyStr.startswith "diff --git " line then
    let parts := PyStr.split " " line in
    if 4 <=? length parts then
      let b_path := nth_line parts 3 in
      if PyStr.startswith "b/" b_path
      then (files_with_changes, Some (PyStr.drop 2 b_path))
      else (files_with_changes, Some b_path)
    else st
  else
    match current_file with
    | Some f =>
        if PyStr.truthy f
           && (PyStr.startswith "+" line || PyStr.startswith "-" line)
        then
          if PyStr.startswith "+++" line || PyStr.startswith "---" line
          then st
          else
            let content := PyStr.drop 1 line in
            if PyStr.truthy (PyStr.strip content)
            then ({[f]} ∪ files_with_changes, current_file)
            else st
        else st
    | None => st
    end.

Definition non_whitespace_files (diff_output : string) : gset string :=
  (fold_left diff_line (PyStr.splitlines diff_output) (∅, None)).1.

(** [Repo.get_commit_non_whitespace_files]: any exception of the diff
    query gives the empty set. *)
Definition get_commit_non_whitespace_files (commit_hash : string)
  : M (gset string) :=
  r ← try_except
        (diff_output ← git ["-C"; repo_path; "show"; commit_hash;
                            "--format="; "-p"]
                           ("show-diff:" +:+ repo_id +:+ ":" +:+ commit_hash);
         mret (Some diff_output))
        (fun _ => true)
        (fun _ => mret None);
  match r with
  | None => mret ∅
  | Some diff_output => mret (non_whitespace_files diff_output)
  end.

(** *** Review data layer

    The answers of the [gh] command, after [json.loads]. They are taken
    with the types of the service's schema; a field may be absent (the
    [.get] defaults of the source then apply). A failed command is
    [CalledProcessError], an unparsable answer is [JSONDecodeError]. *)

Record gh_author : Type := mkGhAuthor {
  login : option string;
  gh_email : option string            (* "email" *)
}.

Record gh_commit : Type := mkGhCommit {
  oid : option string;
  authors : option (list gh_author);
  messageHeadline : option string;
  authoredDate : option string
}.

Record gh_review : Type := mkGhReview {
  gh_review_author : option gh_author;  (* "author" *)
  gh_review_state : option string;      (* "state" *)
  submittedAt : option string
}.

Record gh_file : Type := mkGhFile {
  gh_path : option string;              (* "path" *)
  gh_additions : option Z;
  gh_deletions : option Z
}.

Record gh_pr : Type := mkGhPr {
  gh_number : option Z;
  gh_pr_author : option gh_author;      (* "author" *)
  createdAt : option string;
  gh_state : option string;             (* "state" *)
  mergedAt : option string;             (* absent or null: [None] *)
  mergedBy : option gh_author;          (* absent or null: [None] *)
  gh_reviews : option (list gh_review);
  gh_files : option (list gh_file)
}.

(** [shutil.which("gh")] *)
Variable which_gh : option string.
(** [gh pr view N --json commits]: the "commits" field of the answer *)
Variable gh_pr_view_commits : Z -> result (option (list gh_commit)).
(** [gh pr list ... --json number,state] *)
Variable gh_pr_list_summary : result (list (option Z * option string)).
(** [gh pr list ... --json number,author,...,files] *)
Variable gh_pr_list_details : result (list gh_pr).
(** [gh pr diff N]: the diff text, unless the command fails *)
Variable gh_pr_diff : Z -> option string.

(** [d.get(key, "")] *)
Definition get_str (o : option string) : string := default "" o.

(** [d.get(key, "")[:10] if d.get(key) else ""] *)
Definition date_prefix (o : option string) : string :=
  match o with
  | Some d => if PyStr.truthy d then PyStr.take 10 d else ""
  | None => ""
  end.

(** The except clause of the local lookup in [_get_pr_commits]. *)
Definition local_lookup_caught (e : exn) : bool :=
  match e with
  | CalledProcessError _ | IndexError | ValueError
  | UnknownAuthorError _ _ _ _ => true
  | _ => false
  end.

(** The fallback entry built from the service's own record. *)
Definition github_commit_entry (commit_hash : string) (commit_data : gh_commit)
  : PullRequestCommit :=
  let authors := default [] (authors commit_data) in
  let '(author_username, author_email, co_authors) :=
    match authors with
    | primary_author :: rest =>
        (get_str (login primary_author), get_str (gh_email primary_author),
         omap (fun a => match login a with
                        | Some l => if PyStr.truthy l then Some l else None
                        | None => None
                        end) rest)
    | [] => ("", "", [])
    end in
  {| commit_hash := commit_hash;
     commit_author_username := author_username;
     commit_author_email := author_email;
     commit_message := get_str (messageHeadline commit_data);
     commit_date := date_prefix (authoredDate commit_data);
     co_authors := co_authors |}.

(** The entry built from local git data. *)
Definition local_commit_entry (commit_hash : string) : M PullRequestCommit :=
  local_commit ← get_commit commit_hash;
  co_author_objects ← lift (get_co_authors reg local_commit);
  let co_author_names :=
    map (fun ca => PyStr.or_else (github_username ca) (name ca))
        co_author_objects in
  let subject := nth_line (message_lines local_commit) 0 in
  mret {| commit_hash := commit_hash;
          commit_author_username :=
            PyStr.or_else (github_username (author local_commit)) "";
          commit_author_email := email (author local_commit);
          commit_message := subject;
          commit_date := date local_commit;
          co_authors := co_author_names |}.

(** The body of the loop of [_get_pr_commits]. *)
Definition pr_commit_step (commits : list PullRequestCommit)
    (commit_data : gh_commit) : M (list PullRequestCommit) :=
  let commit_hash := get_str (oid commit_data) in
  if negb (PyStr.truthy commit_hash) then mret commits
  else
    entry ← try_except (local_commit_entry commit_hash)
              local_lookup_caught
              (fun _ => mret (github_commit_entry commit_hash commit_data));
    mret (commits ++ [entry]).

Definition commits_query_caught (e : exn) : bool :=
  match e with
  | CalledProcessError _ | JSONDecodeError _ => true
  | _ => false
  end.

(** [Repo._get_pr_commits] *)
Definition _get_pr_commits (pr_number : Z) : M (list PullRequestCommit) :=
  match gh_pr_view_commits pr_number with
  | Raise e => if commits_query_caught e then mret [] else raise e
  | Ok data => for_each pr_commit_step (default [] data) []
  end.

(** [Repo._get_pr_diff_non_whitespace_files] *)
Definition _get_pr_diff_non_whitespace_files (pr_number : Z) : gset string :=
  match gh_pr_diff pr_number with
  | None => ∅
  | Some diff_output => non_whitespace_files diff_output
  end.

(** The translation of a failed listing into [GitHubApiError]. *)
Definition gh_list_error {A} (e : exn) : M A :=
  match e with
  | CalledProcessError stderr =>
      raise (GitHubApiError ("Failed to fetch pull requests: " +:+ stderr))
  | JSONDecodeError msg =>
      raise (GitHubApiError ("Invalid JSON from gh: " +:+ msg))
  | _ => raise e
  end.

Definition parse_review (review_data : gh_review) : PullRequestReview :=
  {| reviewer_username :=
       match gh_review_author review_data with
       | Some author => get_str (login author)
       | None => ""
       end;
     review_state := get_str (gh_review_state review_data);
     submitted_at := date_prefix (submittedAt review_data) |}.

Definition parse_files (non_ws_files : gset string) (files_data : list gh_file)
  : list PullRequestFile :=
  omap (fun f =>
          match gh_path f with
          | Some p =>
              if PyStr.truthy p then
                Some {| file_path := p;
                        additions := default 0%Z (gh_additions f);
                        deletions := default 0%Z (gh_deletions f);
                        has_non_whitespace_changes :=
                          bool_decide (p ∈ non_ws_files) |}
              else None
          | None => None
          end) files_data.

(** The body of the loop of [_fetch_pr_details]. *)
Definition fetch_pr_step (pr_numbers : list Z)
    (pull_requests : list PullRequest) (pr_data : gh_pr)
  : M (list PullRequest) :=
  let pr_number := default 0%Z (gh_number pr_data) in
  if negb (bool_decide (pr_number ∈ pr_numbers)) then mret pull_requests
  else
    commits ← _get_pr_commits pr_number;
    let reviews := map parse_review (default [] (gh_reviews pr_data)) in
    let author_username :=
      match gh_pr_author pr_data with
      | Some author_data => get_str (login author_data)
      | None => ""
      end in
    let merged_by_username :=
      match mergedBy pr_data with
      | Some merged_by_data => Some (get_str (login merged_by_data))
      | None => None
      end in
    let non_ws_files := _get_pr_diff_non_whitespace_files pr_number in
    let files := parse_files non_ws_files (default [] (gh_files pr_data)) in
    mret (pull_requests ++
          [{| number := pr_number;
              author_username := author_username;
              created_at := date_prefix (createdAt pr_data);
              state := PyStr.upper (default "OPEN" (gh_state pr_data));
              merged_at :=
                match mergedAt pr_data with
                | Some d => if PyStr.truthy d then Some (PyStr.take 10 d)
                            else None
                | None => None
                end;
              merged_by_username := merged_by_username;
              commits := commits;
              reviews := reviews;
              files := files |}]).

(** [Repo._fetch_pr_details] *)
Definition _fetch_pr_details (pr_numbers : list Z) : M (list PullRequest) :=
  match pr_numbers with
  | [] => mret []
  | _ =>
      match gh_pr_list_details with
      | Raise e => gh_list_error e
      | Ok data => for_each (fetch_pr_step pr_numbers) data []
      end
  end.

(** The first loop of [get_pull_requests]: [pull_requests] and
    [prs_to_fetch]. *)
Definition summary_step (pr_cache : gmap (string * Z) PullRequest)
    (st : list PullRequest * list Z) (pr_info : option Z * option string)
  : list PullRequest * list Z :=
  let '(pull_requests, prs_to_fetch) := st in
  let pr_number := default 0%Z pr_info.1 in
  let state := PyStr.upper (default "OPEN" pr_info.2) in
  match (if negb (String.eqb state "OPEN")
         then pr_cache !! (repo_id, pr_number) else None) with
  | Some cached => (pull_requests ++ [cached], prs_to_fetch)
  | None => (pull_requests, prs_to_fetch ++ [pr_number])
  end.

(** The second loop: append, and cache the request unless it is open. *)
Definition cache_step (pull_requests : list PullRequest) (pr : PullRequest)
  : M (list PullRequest) :=
  fun g =>
    (Ok (pull_requests ++ [pr]),
     if negb (is_open pr) then
       {| _cache := _cache g;
          _pr_cache := <[(repo_id, number pr) := pr]> (_pr_cache g);
          _cache_dirty := true |}
     else g).

(** [Repo.get_pull_requests] *)
Definition get_pull_requests : M (list PullRequest) :=
  match which_gh with
  | None => raise (ExecutableNotFoundError "gh")
  | Some _ =>
      match gh_pr_list_summary with
      | Raise e => gh_list_error e
      | Ok pr_summary =>
          fun g =>
            let '(pull_requests, prs_to_fetch) :=
              fold_left (summary_step (_pr_cache g)) pr_summary ([], []) in
            match prs_to_fetch with
            | [] => (Ok pull_requests, g)
            | _ =>
                (fetched_prs ← _fetch_pr_details prs_to_fetch;
                 for_each cache_step fetched_prs pull_requests) g
            end
      end
  end.

(** *** Attribution engine *)

Section Filters.
Variable include_patterns_ : list string.
Variable exclude_patterns_ : list string.

(** The local helpers [matches_include] and [should_exclude]. *)
Definition matches_include (file_path : string) : bool :=
  existsb (fun pattern => fnmatch file_path pattern) include_patterns_.

Definition should_exclude (file_path : string) : bool :=
  existsb (fun pattern => fnmatch file_path pattern) exclude_patterns_.

(** [pr_has_matching_files] *)
Definition pr_has_matching_files (pr : PullRequest) : bool :=
  existsb (fun pr_file =>
             matches_include (file_path pr_file)
             && negb (should_exclude (file_path pr_file))
             && has_non_whitespace_changes pr_file) (files pr).
End Filters.

(** [pr_is_collab] *)
Definition pr_is_collab (pr : PullRequest) : bool :=
  existsb (fun commit => match co_authors commit with [] => false | _ => true end)
          (commits pr).

(** [username_to_author] of [_collect_github_stats] *)
Definition username_to_author (students : list Author) : gmap string Author :=
  fold_left (fun m student =>
               <[PyStr.lower (github_username student) := student]> m)
            students ∅.

(** [{s: GitHubStats() for s in students_config.students}] *)
Definition initial_stats (students : list Author) : GitHubStatsData :=
  fold_left (fun m s => <[author_key s := mkGitHubStats 0 0 0 0 0 0]> m)
            students ∅.

Definition incr_alone_merged (s : GitHubStats) : GitHubStats :=
  mkGitHubStats (S (prs_alone_merged s)) (prs_alone_open s)
    (prs_collab_merged s) (prs_collab_open s)
    (approvals_given s) (change_requests_given s).
Definition incr_alone_open (s : GitHubStats) : GitHubStats :=
  mkGitHubStats (prs_alone_merged s) (S (prs_alone_open s))
    (prs_collab_merged s) (prs_collab_open s)
    (approvals_given s) (change_requests_given s).
Definition incr_collab_merged (s : GitHubStats) : GitHubStats :=
  mkGitHubStats (prs_alone_merged s) (prs_alone_open s)
    (S (prs_collab_merged s)) (prs_collab_open s)
    (approvals_given s) (change_requests_given s).
Definition incr_collab_open (s : GitHubStats) : GitHubStats :=
  mkGitHubStats (prs_alone_merged s) (prs_alone_open s)
    (prs_collab_merged s) (S (prs_collab_open s))
    (approvals_given s) (change_requests_given s).
Definition incr_approvals (s : GitHubStats) : GitHubStats :=
  mkGitHubStats (prs_alone_merged s) (prs_alone_open s)
    (prs_collab_merged s) (prs_collab_open s)
    (S (approvals_given s)) (change_requests_given s).
Definition incr_change_requests (s : GitHubStats) : GitHubStats :=
  mkGitHubStats (prs_alone_merged s) (prs_alone_open s)
    (prs_collab_merged s) (prs_collab_open s)
    (approvals_given s) (S (change_requests_given s)).

(** The author part of the loop body: [stats[author].<counter> += 1]. The
    authors of [u2a] are roster contributors and keep their entry in
    [stats], so the subscript finds it. *)
Definition count_pr (u2a : gmap string Author) (pr : PullRequest)
    (stats : GitHubStatsData) : GitHubStatsData :=
  match u2a !! PyStr.lower (author_username pr) with
  | Some author =>
      if pr_is_collab pr then
        if is_merged pr then alter incr_collab_merged (author_key author) stats
        else alter incr_collab_open (author_key author) stats
      else
        if is_merged pr then alter incr_alone_merged (author_key author) stats
        else alter incr_alone_open (author_key author) stats
  | None => stats
  end.

(** The review loop: [stats], [seen_approvers], [seen_change_requesters]. *)
Definition review_state_t : Type :=
  GitHubStatsData * gset (string * string) * gset (string * string).

Definition review_step (u2a : gmap string Author) (st : review_state_t)
    (review : PullRequestReview) : review_state_t :=
  let '(stats, seen_approvers, seen_change_requesters) := st in
  match u2a !! PyStr.lower (reviewer_username review) with
  | Some reviewer =>
      if String.eqb (review_state review) "APPROVED" then
        if bool_decide (author_key reviewer ∈ seen_approvers) then st
        else (alter incr_approvals (author_key reviewer) stats,
              {[author_key reviewer]} ∪ seen_approvers,
              seen_change_requesters)
      else if String.eqb (review_state review) "CHANGES_REQUESTED" then
        if bool_decide (author_key reviewer ∈ seen_change_requesters) then st
        else (alter incr_change_requests (author_key reviewer) stats,
              seen_approvers,
              {[author_key reviewer]} ∪ seen_change_requesters)
      else st
  | None => st
  end.

Definition count_reviews (u2a : gmap string Author) (pr : PullRequest)
    (stats : GitHubStatsData) : GitHubStatsData :=
  (fold_left (review_step u2a) (reviews pr) (stats, ∅, ∅)).1.1.

(** The body of the loop over the pull requests. *)
Definition github_pr_step (include_patterns exclude_patterns : list string)
    (u2a : gmap string Author) (stats : GitHubStatsData) (pr : PullRequest)
  : GitHubStatsData :=
  if PyStr.startswith "app/" (author_username pr) then stats
  else if negb (pr_has_matching_files include_patterns exclude_patterns pr)
  then stats
  else if negb (is_merged pr) && negb (is_open pr) then stats
  else count_reviews u2a pr (count_pr u2a pr stats).

(** [_collect_github_stats] *)
Definition _collect_github_stats (students_config : StudentsConfig)
    (include_patterns exclude_patterns : list string) : M GitHubStatsData :=
  let u2a := username_to_author (students students_config) in
  let stats := initial_stats (students students_config) in
  pull_requests ← get_pull_requests;
  mret (fold_left (github_pr_step include_patterns exclude_patterns u2a)
                  pull_requests stats).

(** [{s: {} for s in students}] and [{s: set() for s in students}] *)
Definition empty_per_student {V} (v : V) (students : list Author)
  : gmap (string * string) V :=
  fold_left (fun m s => <[author_key s := v]> m) students ∅.

(** [if a in data: data[a].setdefault(path, []).append(content)] *)
Definition add_line (data : LinesData) (a : Author) (path content : string)
  : LinesData :=
  match data !! author_key a with
  | Some per_file =>
      <[author_key a :=
          <[path := default [] (per_file !! path) ++ [content]]> per_file]> data
  | None => data
  end.

(** [if a in data: data[a].add(commit_hash)] *)
Definition add_commit (data : CommitsData) (a : Author) (commit_hash : string)
  : CommitsData :=
  match data !! author_key a with
  | Some s => <[author_key a := {[commit_hash]} ∪ s]> data
  | None => data
  end.

(** [coauthors_cache] lookup, filled on a miss by [get_co_authors]. *)
Definition cached_co_authors (coauthors_cache : gmap string (list Author))
    (commit_hash : string) (commit : Commit)
  : result (list Author * gmap string (list Author)) :=
  match coauthors_cache !! commit_hash with
  | Some co => Ok (co, coauthors_cache)
  | None =>
      co ← get_co_authors reg commit;
      Ok (co, <[commit_hash := co]> coauthors_cache)
  end.

(** [[ca for ca in co_authors if ca not in ignored_authors]] *)
Definition valid_co_authors_of (ignored_authors : gset (string * string))
    (co_authors : list Author) : list Author :=
  List.filter (fun ca => negb (bool_decide (author_key ca ∈ ignored_authors)))
              co_authors.

(** The state of [_collect_line_stats]: [alone_lines], [collab_lines],
    [file_commits], [coauthors_cache]. *)
Record line_stats : Type := mkLineStats {
  alone_lines : LinesData;
  collab_lines : LinesData;
  file_commits : gmap string (gset string);
  coauthors_cache : gmap string (list Author)
}.

(** The body of the loop over the blame lines of one tracked file. *)
Definition line_step (ignored_authors : gset (string * string))
    (tracked_file_path : string) (st : line_stats)
    (entry : Commit * string) : result line_stats :=
  let '(commit, content) := entry in
  if negb (PyStr.truthy (PyStr.strip content)) then Ok st
  else if bool_decide (author_key (author commit) ∈ ignored_authors) then Ok st
  else
    let file_commits' :=
      <[tracked_file_path :=
          {[hash commit]} ∪ default ∅ (file_commits st !! tracked_file_path)]>
        (file_commits st) in
    match cached_co_authors (coauthors_cache st) (hash commit) commit with
    | Raise e => Raise e
    | Ok (co_authors, coauthors_cache') =>
        let valid_co_authors := valid_co_authors_of ignored_authors co_authors in
        match valid_co_authors with
        | _ :: _ =>
            Ok {| alone_lines := alone_lines st;
                  collab_lines :=
                    fold_left
                      (fun d co_author =>
                         add_line d co_author tracked_file_path content)
                      valid_co_authors
                      (add_line (collab_lines st) (author commit)
                                tracked_file_path content);
                  file_commits := file_commits';
                  coauthors_cache := coauthors_cache' |}
        | [] =>
            Ok {| alone_lines :=
                    add_line (alone_lines st) (author commit)
                             tracked_file_path content;
                  collab_lines := collab_lines st;
                  file_commits := file_commits';
                  coauthors_cache := coauthors_cache' |}
        end
    end.

Fixpoint rfold {A S} (body : S -> A -> result S) (l : list A) (s : S)
  : result S :=
  match l with
  | [] => Ok s
  | x :: l' => s' ← body s x; rfold body l' s'
  end.

(** The body of the loop over the tracked files of one pattern. *)
Definition tracked_file_step (ignored_authors : gset (string * string))
    (exclude_patterns : list string) (st : line_stats)
    (tracked_file : TrackedFile) : M line_stats :=
  if should_exclude exclude_patterns (path tracked_file) then mret st
  else lift (rfold (line_step ignored_authors (path tracked_file))
                   (lines tracked_file) st).

(** [_collect_line_stats] *)
Definition _collect_line_stats (students_config : StudentsConfig)
    (ignored_authors : gset (string * string))
    (include_patterns exclude_patterns : list string) : M line_stats :=
  for_each
    (fun st pattern =>
       for_TrackedFile_files pattern "HEAD"
         (tracked_file_step ignored_authors exclude_patterns) st)
    include_patterns
    {| alone_lines := empty_per_student ∅ (students students_config);
       collab_lines := empty_per_student ∅ (students students_config);
       file_commits := ∅;
       coauthors_cache := ∅ |}.

(** The state of [_collect_commit_stats]: [alone_commits],
    [collab_commits] and the shared [coauthors_cache]. *)
Record commit_stats : Type := mkCommitStats {
  alone_commits : CommitsData;
  collab_commits : CommitsData;
  commit_coauthors_cache : gmap string (list Author)
}.

Definition skip_commit_caught (e : exn) : bool :=
  match e with
  | CommitNotFoundError _ | UnknownAuthorError _ _ _ _ => true
  | _ => false
  end.

(** The part of the loop body after the commit has been resolved. *)
Definition classify_commit (ignored_authors : gset (string * string))
    (st : commit_stats) (commit_hash : string) (commit : Commit)
  : result commit_stats :=
  if bool_decide (author_key (author commit) ∈ ignored_authors) then Ok st
  else
    match cached_co_authors (commit_coauthors_cache st) commit_hash commit with
    | Raise e => Raise e
    | Ok (co_authors, coauthors_cache') =>
        let valid_co_authors := valid_co_authors_of ignored_authors co_authors in
        match valid_co_authors with
        | _ :: _ =>
            Ok {| alone_commits := alone_commits st;
                  collab_commits :=
                    fold_left
                      (fun d co_author => add_commit d co_author commit_hash)
                      valid_co_authors
                      (add_commit (collab_commits st) (author commit) commit_hash);
                  commit_coauthors_cache := coauthors_cache' |}
        | [] =>
            Ok {| alone_commits :=
                    add_commit (alone_commits st) (author commit) commit_hash;
                  collab_commits := collab_commits st;
                  commit_coauthors_cache := coauthors_cache' |}
        end
    end.

(** The body of the loop of [_collect_commit_stats]. *)
Definition commit_step (ignored_authors : gset (string * string))
    (include_patterns exclude_patterns : list string)
    (st : commit_stats) (entry : string * list string) : M commit_stats :=
  let '(commit_hash, files) := entry in
  let matching_files :=
    List.filter (fun f => matches_include include_patterns f
                          && negb (should_exclude exclude_patterns f)) files in
  match matching_files with
  | [] => mret st
  | _ =>
      non_ws_files ← get_commit_non_whitespace_files commit_hash;
      let has_non_ws_changes :=
        existsb (fun f => bool_decide (f ∈ non_ws_files)) matching_files in
      if negb has_non_ws_changes then mret st
      else
        r ← try_except (c ← get_commit commit_hash; mret (Some c))
              skip_commit_caught (fun _ => mret None);
        match r with
        | None => mret st
        | Some commit => lift (classify_commit ignored_authors st commit_hash commit)
        end
  end.

(** [_collect_commit_stats] *)
Definition _collect_commit_stats (students_config : StudentsConfig)
    (ignored_authors : gset (string * string))
    (include_patterns exclude_patterns : list string)
    (coauthors_cache : gmap string (list Author)) : M commit_stats :=
  all_commits ← get_all_commits;
  for_each (commit_step ignored_authors include_patterns exclude_patterns)
    all_commits
    {| alone_commits := empty_per_student ∅ (students students_config);
       collab_commits := empty_per_student ∅ (students students_config);
       commit_coauthors_cache := coauthors_cache |}.

(** *** The analysis of [main]

    The body of the [try] block of [main] once the configuration is
    loaded; the report is printed from its result. *)
Record AnalysisResult : Type := mkAnalysisResult {
  res_alone_lines : LinesData;
  res_collab_lines : LinesData;
  res_alone_commits : CommitsData;
  res_collab_commits : CommitsData;
  res_file_commits : gmap string (gset string);
  github_stats : option GitHubStatsData
}.

Definition analyze (students_config : StudentsConfig) (use_github : bool)
  : M AnalysisResult :=
  let ignored_authors : gset (string * string) :=
    list_to_set (map author_key (ignore students_config)) in
  let include_patterns :=
    match include_patterns students_config with
    | [] => ["*"]
    | l => l
    end in
  let exclude_patterns := exclude_patterns students_config in
  ls ← _collect_line_stats students_config ignored_authors
         include_patterns exclude_patterns;
  cs ← _collect_commit_stats students_config ignored_authors
         include_patterns exclude_patterns (coauthors_cache ls);
  gh ← (if use_github then
          s ← _collect_github_stats students_config
                include_patterns exclude_patterns;
          mret (Some s)
        else mret None);
  mret {| res_alone_lines := alone_lines ls;
          res_collab_lines := collab_lines ls;
          res_alone_commits := alone_commits cs;
          res_collab_commits := collab_commits cs;
          res_file_commits := file_commits ls;
          github_stats := gh |}.

End Repo.
End Git.

(** ** Configuration document *)

(** A parsed JSON value; numbers are integers. An object is the list of
    its members, with distinct keys. *)
#[warnings="-register-all"]
Inductive json : Type :=
| JNull
| JBool (b : bool)
| JNum (n : Z)
| JStr (s : string)
| JArr (items : list json)
| JObj (members : list (string * json)).

(** [key in d] and [d[key]] / [d.get(key)] *)
Fixpoint jget (key : string) (members : list (string * json)) : option json :=
  match members with
  | [] => None
  | (k, v) :: members' => if String.eqb k key then Some v else jget key members'
  end.

(** The truth value of a JSON value in Python. *)
Definition py_truthy (v : json) : bool :=
  match v with
  | JNull => false
  | JBool b => b
  | JNum n => negb (n =? 0)%Z
  | JStr s => PyStr.truthy s
  | JArr items => match items with [] => false | _ => true end
  | JObj members => match members with [] => false | _ => true end
  end.

Section Config.
(** [str] of a list or of a dict (Python's [repr] of containers). *)
Variable py_repr : json -> string.

(** [str(v)] *)
Definition py_str (v : json) : string :=
  match v with
  | JNull => "None"
  | JBool true => "True"
  | JBool false => "False"
  | JNum n => pretty n
  | JStr s => s
  | JArr _ | JObj _ => py_repr v
  end.

(** [list(v)]: a number, a boolean and [None] are not iterable. *)
Definition py_list (v : json) : result (list json) :=
  match v with
  | JArr items => Ok items
  | JStr s => Ok (map (fun c => JStr (String c "")) (list_ascii_of_string s))
  | JObj members => Ok (map (fun kv => JStr kv.1) members)
  | JNull | JBool _ | JNum _ => Raise TypeError
  end.

(** The names or emails that [list(s.get(field) or [])] contributes to the
    registry keys. Only a string can equal a name or an email read from
    git, so an element that is a number, a boolean or [None] gives keys no
    lookup reaches and is left out; a list or dict element cannot be
    hashed as part of a key. *)
Fixpoint alias_strings (items : list json) : result (list string) :=
  match items with
  | [] => Ok []
  | JStr s :: items' => l ← alias_strings items'; Ok (s :: l)
  | (JArr _ | JObj _) :: _ => Raise TypeError
  | _ :: items' => alias_strings items'
  end.

Definition aliases_of (field : option json) : result (list string) :=
  match field with
  | None => Ok []
  | Some v => if py_truthy v then items ← py_list v; alias_strings items
              else Ok []
  end.

(** ["k" not in d or not d["k"]] *)
Definition missing_or_empty (key : string) (d : list (string * json)) : bool :=
  match jget key d with
  | None => true
  | Some v => negb (py_truthy v)
  end.

Definition config_error {A} (msg : string) : result A :=
  Raise (StudentsConfigError msg).

Definition entry_error {A} (kind : string) (i : nat) (what : string) : result A :=
  config_error (kind +:+ " entry " +:+ pretty i +:+ what).

(** [bool(d.get("allow_auto_update", True))] *)
Definition allow_auto_update_of (d : list (string * json)) : bool :=
  match jget "allow_auto_update" d with
  | None => true
  | Some v => py_truthy v
  end.

(** The body of the loop over the student entries: checks, then
    registration. *)
Definition student_step (i : nat) (student : json)
    (acc : list Author * registry) : result (list Author * registry) :=
  let '(students, reg) := acc in
  match student with
  | JObj s =>
      if missing_or_empty "id" s then entry_error "Student" i " missing 'id'"
      else if missing_or_empty "name" s
      then entry_error "Student" i " missing 'name'"
      else if missing_or_empty "email" s
      then entry_error "Student" i " missing 'email'"
      else
        match jget "github_username" s with
        | None => entry_error "Student" i " missing 'github_username'"
        | Some gh =>
            other_names ← aliases_of (jget "other_names" s);
            other_emails ← aliases_of (jget "other_emails" s);
            let a :=
              {| name := py_str (default JNull (jget "name" s));
                 email := py_str (default JNull (jget "email" s));
                 github_username := py_str gh;
                 student_id := py_str (default JNull (jget "id" s));
                 other_names := other_names;
                 other_emails := other_emails;
                 allow_auto_update := allow_auto_update_of s |} in
            let '(registered, reg') := Author_register_with_aliases a reg in
            Ok (students ++ [registered], reg')
        end
  | _ => entry_error "Student" i " must be an object"
  end.

(** [str(e.get(key) or "")] *)
Definition str_or_empty (field : option json) : string :=
  match field with
  | None => ""
  | Some v => if py_truthy v then py_str v else ""
  end.

(** The body of the loop over the ignore entries. *)
Definition ignore_step (i : nat) (entry : json)
    (acc : list Author * registry) : result (list Author * registry) :=
  let '(ignore, reg) := acc in
  match entry with
  | JObj e =>
      if missing_or_empty "name" e then entry_error "Ignore" i " missing 'name'"
      else
        match jget "email" e with
        | None => entry_error "Ignore" i " missing 'email'"
        | Some _ =>
            other_names ← aliases_of (jget "other_names" e);
            other_emails ← aliases_of (jget "other_emails" e);
            let a :=
              {| name := py_str (default JNull (jget "name" e));
                 email := str_or_empty (jget "email" e);
                 github_username := str_or_empty (jget "github_username" e);
                 student_id := "";
                 other_names := other_names;
                 other_emails := other_emails;
                 allow_auto_update := allow_auto_update_of e |} in
            let '(registered, reg') := Author_register_with_aliases a reg in
            Ok (ignore ++ [registered], reg')
        end
  | _ => entry_error "Ignore" i " must be an object"
  end.

(** [for i, x in enumerate(l): body], from index [i]. *)
Fixpoint enumerate_from {St} (body : nat -> json -> St -> result St)
    (i : nat) (l : list json) (s : St) : result St :=
  match l with
  | [] => Ok s
  | x :: l' => s' ← body i x s; enumerate_from body (S i) l' s'
  end.

(** The pattern list under [key] of the "files" object. *)
Definition patterns_of (key : string) (error_name : string)
    (files_config : list (string * json)) : result (list string) :=
  match jget key files_config with
  | None => Ok []
  | Some (JArr ps) => Ok (map py_str ps)
  | Some _ => config_error ("'files." +:+ error_name +:+ "' must be a list")
  end.

(** [StudentsConfig.from_dict]: the configuration and the registry after
    the registrations. *)
Definition from_dict (data : list (string * json)) (reg : registry)
  : result (StudentsConfig * registry) :=
  match jget "students" data with
  | None => config_error "Config missing 'students' field"
  | Some (JArr students_raw) =>
      '(students, reg1) ← enumerate_from student_step 0 students_raw ([], reg);
      match jget "ignore" data with
      | None => config_error "Config missing 'ignore' field"
      | Some (JArr ignore_raw) =>
          '(ignore, reg2) ← enumerate_from ignore_step 0 ignore_raw ([], reg1);
          match default (JObj []) (jget "files" data) with
          | JObj files_config =>
              include_patterns ← patterns_of "include" "include" files_config;
              exclude_patterns ← patterns_of "exclude" "exclude" files_config;
              Ok ({| students := students; ignore := ignore;
                     include_patterns := include_patterns;
                     exclude_patterns := exclude_patterns |}, reg2)
          | _ => config_error "'files' must be an object"
          end
      | Some _ => config_error "'ignore' must be a list"
      end
  | Some _ => config_error "'students' must be a list"
  end.

End Config.

(** ** Definitions used to state the properties *)

(** *** Co-author trailers *)

(** A character of a name: anything but a line feed, [<] and [@]. *)
Definition name_char (c : ascii) : bool :=
  negb (Ascii.eqb c "010") && negb (PyStr.mem_char c "<@").

(** A character of an email: no white space and no angle bracket. *)
Definition address_char (c : ascii) : bool :=
  negb (PyStr.is_space c) && negb (PyStr.mem_char c "<>").

(** A character of the part of an email after its last [@]. *)
Definition domain_char (c : ascii) : bool :=
  address_char c && negb (Ascii.eqb c "@").

Fixpoint last_char (s : string) : option ascii :=
  match s with
  | EmptyString => None
  | String c s' =>
      match s' with
      | EmptyString => Some c
      | String _ _ => last_char s'
      end
  end.

(** A name as a trailer may carry it: one or more words of name
    characters, with white space between them only, and no colon in front. *)
Definition name_ok (N : string) : bool :=
  match N with
  | String c _ => negb (PyStr.is_space c) && negb (Ascii.eqb c ":")
  | EmptyString => false
  end
  && match last_char N with
     | Some z => negb (PyStr.is_space z)
     | None => false
     end
  && PyStr.all_chars name_char N.

(** The part of an email before its last [@], and the part after it. *)
Definition local_part_ok (L : string) : bool :=
  PyStr.truthy L && PyStr.all_chars address_char L.

Definition domain_ok (D : string) : bool :=
  PyStr.truthy D && PyStr.all_chars domain_char D.

(** The three notations of the co-author trailer, for the name [N] and the
    email [E]. *)
Definition trailer_forms_of (N E : string) : list string :=
  ["Co-authored-by: " +:+ N +:+ " <" +:+ E +:+ ">";
   "Co-authored-by: " +:+ N +:+ " " +:+ E;
   "co-authored " +:+ N +:+ " " +:+ E].

(** The three notations for the name A and the email a@x.com. *)
Definition trailer_forms : list string :=
  ["Co-authored-by: A <a@x.com>";
   "Co-authored-by: A a@x.com";
   "co-authored A a@x.com"].

(** *** Reading the matcher *)

Section MatcherReadings.
Import Regex.

(** The last continuation of [pmatch]. *)
Definition K0 : K := fun _ _ caps => Some caps.

(** The outcome of the greedy loop over a class, on a run [s1] of the class
    followed by [u]: the continuation is tried after the longest prefix of
    the run first. *)
Fixpoint greedy_try (k : K) (pos : nat) (s1 u : list ascii) (caps : captures)
  : option captures :=
  match s1 with
  | [] => k pos u caps
  | x :: s1' =>
      match greedy_try k (S pos) s1' u caps with
      | Some c => Some c
      | None => k pos (s1 ++ u) caps
      end
  end.

(** The outcome of the lazy loop: the shortest prefix first. *)
Fixpoint lazy_try (k : K) (pos : nat) (s1 u : list ascii) (caps : captures)
  : option captures :=
  match k pos (s1 ++ u) caps with
  | Some c => Some c
  | None =>
      match s1 with
      | [] => None
      | x :: s1' => lazy_try k (S pos) s1' u caps
      end
  end.

(** The text [u] does not go on with the class [p]. *)
Definition stops (p : ascii -> bool) (u : list ascii) : Prop :=
  match u with [] => True | x :: _ => p x = false end.

(** Texts on which a continuation cannot succeed. *)
Definition fails_on (P : list ascii -> Prop) (k : K) : Prop :=
  forall pos s caps, P s -> k pos s caps = None.

(** The text has no character that the literal [c] matches. *)
Definition lacks (c : ascii) (s : list ascii) : Prop :=
  forallb (fun x => negb (chr_eq_nocase c x)) s = true.

(** The literal [c] follows no prefix of the leading run of the class [p]:
    a loop over [p] that must be followed by [c] fails on such a text. *)
Fixpoint blocked (p : ascii -> bool) (c : ascii) (s : list ascii) : bool :=
  match s with
  | [] => true
  | x :: s' =>
      negb (chr_eq_nocase c x) && (if p x then blocked p c s' else true)
  end.

(** White space, then a word without [@]: no email token follows any
    prefix of the white space. *)
Fixpoint ws_email_blocked (s : list ascii) : bool :=
  match s with
  | [] => true
  | x :: s' =>
      if PyStr.is_space x then ws_email_blocked s'
      else blocked (fun c => negb (PyStr.is_space c)) "@" s
  end.

(** The text after the word [w], read without regard to case. *)
Fixpoint lit_skip (w : string) (s : list ascii) : option (list ascii) :=
  match w with
  | EmptyString => Some s
  | String c w' =>
      match s with
      | x :: s' => if chr_eq_nocase c x then lit_skip w' s' else None
      | [] => None
      end
  end.

(** What the precise pattern has after the name group, and what the other
    two patterns have there. *)
Definition after_name_precise : re :=
  Cat (Star true ws) (Cat (Chr "<") (Cat (Grp 2 (Plus true not_gt))
    (Cat (Chr ">") (Cat (Star true ws) Eol)))).

Definition after_name_loose : re :=
  Cat (Plus true ws) (Cat email_token (Cat (Star true ws) Eol)).

End MatcherReadings.

Definition commit_with_trailer : Commit :=
  {| hash := "0123456789abcdef0123456789abcdef01234567";
     author := mkAuthor "B" "b@x.com" "bee" "2" [] [] true;
     date := "2024-01-01";
     message_lines := ["Fix parser"; ""; "co-authored A a@x.com"] |}.

(** *** A small repository used in examples *)

Definition nl : string := String "010" "".
Definition tab : string := String "009" "".

(** The lines of [l], each followed by a line feed. *)
Definition unlines (l : list string) : string :=
  fold_right (fun line rest => line +:+ nl +:+ rest) "" l.

Definition empty_globals : globals :=
  {| _cache := ∅; _pr_cache := ∅; _cache_dirty := false |}.

Definition hash_H : string := "0123456789abcdef0123456789abcdef01234567".

Definition ann : Author := mkAuthor "Ann" "ann@x.com" "ann-gh" "1" [] [] true.
Definition bob : Author := mkAuthor "Bob" "bob@x.com" "bob-gh" "2" [] [] true.

Definition demo_registry : registry :=
  (Author_register_with_aliases bob (Author_register_with_aliases ann ∅).2).2.

(** The sub-command of a git invocation [-C path sub ...] and its last
    argument. *)
Definition subcommand (args : list string) : string := nth 2 args "".
Definition last_arg (args : list string) : string := List.last args "".

(** A repository in which [HEAD] is the commit [hash_H] by Ann, and whose
    object store cannot be read by blame. *)
Definition git_unreadable (args : list string) : string + string :=
  if String.eqb (subcommand args) "rev-parse" then inl (hash_H +:+ nl)
  else if String.eqb (subcommand args) "show" then
    inl (unlines ["Ann"; "ann@x.com"; "2024-01-01"; "Add parser"])
  else inr "fatal: unable to read tree".

(** *** Cache keys *)

(** The key under which the resolution of [ref] is cached. *)
Definition rev_parse_key (repo_id ref : string) : string :=
  "rev-parse:" +:+ repo_id +:+ ":" +:+ ref.

(** [k] is a key of the commit-resolution family in the cache of [g]:
    either the key of a resolution query (repository identity and the ref as
    the caller gave it), or a commit-detail or blame key built from the
    stripped text stored under such a resolution key. *)
Definition history_key (repo_id : string) (g : globals) (k : string) : Prop :=
  (exists ref, k = rev_parse_key repo_id ref)
  \/ (exists ref out,
        _cache g !! rev_parse_key repo_id ref = Some out
        /\ (k = "commit:" +:+ PyStr.strip out
            \/ exists file_path,
                 k = "blame:" +:+ PyStr.strip out +:+ ":" +:+ file_path)).

(** The cache only grew between [g] and [g'], by keys of that family. *)
Definition grows_by_history_keys (repo_id : string) (g g' : globals) : Prop :=
  _cache g ⊆ _cache g'
  /\ forall k, _cache g !! k = None -> is_Some (_cache g' !! k) ->
               history_key repo_id g' k.

(** The reading of an unambiguous key: it contains the repository
    identity and the full hash, and no relative ref. *)
Definition unambiguous_key (repo_id full_hash key : string) : bool :=
  PyStr.contains repo_id key && PyStr.contains full_hash key
  && negb (PyStr.contains "HEAD" key).

(** A repository in which [HEAD] is the commit [hash_H] by Ann, with one
    file [a.py] of one line. *)
Definition git_small (args : list string) : string + string :=
  if String.eqb (subcommand args) "rev-parse" then inl (hash_H +:+ nl)
  else if String.eqb (subcommand args) "show" then
    inl (unlines ["Ann"; "ann@x.com"; "2024-01-01"; "Add parser"])
  else if String.eqb (subcommand args) "ls-tree" then inl (unlines ["a.py"])
  else if String.eqb (subcommand args) "blame" then
    inl (unlines [hash_H +:+ " 1 1 1"; "author Ann"; tab +:+ "x = 1"])
  else inr "fatal: unknown".

(** [fnmatch.fnmatch] on POSIX for patterns made of literal characters,
    [*] (any text, the slash included) and [?] (any one character). *)
Fixpoint glob (pattern : string) : string -> bool :=
  match pattern with
  | EmptyString => fun s => match s with EmptyString => true | _ => false end
  | String c pattern' =>
      if Ascii.eqb c "*" then
        fix star (s : string) : bool :=
          glob pattern' s
          || match s with
             | EmptyString => false
             | String _ s' => star s'
             end
      else if Ascii.eqb c "?" then
        fun s => match s with
                 | EmptyString => false
                 | String _ s' => glob pattern' s'
                 end
      else
        fun s => match s with
                 | EmptyString => false
                 | String d s' => Ascii.eqb c d && glob pattern' s'
                 end
  end.

Definition fnmatch_glob (file_path pattern : string) : bool :=
  glob pattern file_path.

(** The git queries of the source: the arguments and the cache key of each
    call of [git]. *)
Inductive git_call (repo_path repo_id : string) : list string -> string -> Prop :=
| call_rev_parse ref :
    git_call repo_path repo_id ["-C"; repo_path; "rev-parse"; ref]
      ("rev-parse:" +:+ repo_id +:+ ":" +:+ ref)
| call_commit h :
    git_call repo_path repo_id
      ["-C"; repo_path; "show"; "-s"; "--format=%aN%n%aE%n%as%n%B"; h]
      ("commit:" +:+ h)
| call_blame h file_path :
    git_call repo_path repo_id
      ["-C"; repo_path; "blame"; "--porcelain"; "-M"; "-C"; "-C"; h; "--"; file_path]
      ("blame:" +:+ h +:+ ":" +:+ file_path)
| call_ls_tree commit :
    git_call repo_path repo_id
      ["-C"; repo_path; "ls-tree"; "-r"; "--name-only"; commit]
      ("ls-tree:" +:+ repo_id +:+ ":" +:+ commit)
| call_log :
    git_call repo_path repo_id
      ["-C"; repo_path; "log"; "--pretty=format:%H"; "--name-only"]
      ("log-files:" +:+ repo_id)
| call_show_diff h :
    git_call repo_path repo_id
      ["-C"; repo_path; "show"; h; "--format="; "-p"]
      ("show-diff:" +:+ repo_id +:+ ":" +:+ h).

(** *** The closed-request cache *)

(** Between [g] and [g'] the closed-request cache changed only by entries
    for requests that are not open, stored under the repository identity
    and their number. *)
Definition pr_cache_closed_only (repo_id : string) (g g' : globals) : Prop :=
  forall k pr, _pr_cache g' !! k = Some pr ->
    _pr_cache g !! k = Some pr
    \/ (state pr <> "OPEN" /\ k = (repo_id, number pr)).

(** *** Review-service answers used in examples *)

Definition hash_missing : string := "89abcdef0123456789abcdef0123456789abcdef".

(** A clone in which no ref resolves. *)
Definition git_nothing_local (args : list string) : string + string :=
  inr "fatal: bad object".

(** A clone in which every ref resolves to itself, to a commit whose author
    is not in the roster. *)
Definition git_foreign_author (args : list string) : string + string :=
  if String.eqb (subcommand args) "rev-parse" then inl (last_arg args +:+ nl)
  else if String.eqb (subcommand args) "show" then
    inl (unlines ["Carol"; "carol@x.com"; "2024-02-03"; "Add docs"])
  else inr "fatal: unknown".





Definition gh_no_commits (pr_number : Z) : result (option (list gh_commit)) :=
  Ok (Some []).

(** Two requests: number 1 without a state field, number 2 merged. *)
Definition gh_summary_two : result (list (option Z * option string)) :=
  Ok [(Some 1%Z, None); (Some 2%Z, Some "MERGED")].

Definition gh_details_two : result (list gh_pr) :=
  Ok [ {| gh_number := Some 1%Z;
          gh_pr_author := Some {| login := Some "ann-gh"; gh_email := None |};
          createdAt := Some "2024-03-01T09:00:00Z";
          gh_state := None; mergedAt := None; mergedBy := None;
          gh_reviews := None; gh_files := None |};
       {| gh_number := Some 2%Z;
          gh_pr_author := Some {| login := Some "bob-gh"; gh_email := None |};
          createdAt := Some "2024-03-02T09:00:00Z";
          gh_state := Some "MERGED"; mergedAt := Some "2024-03-03T09:00:00Z";
          mergedBy := Some {| login := Some "ann-gh"; gh_email := None |};
          gh_reviews := None; gh_files := None |} ].

Definition gh_no_diff (pr_number : Z) : option string := None.

(** The states of the listed requests, when the listing succeeds. *)
Definition listed_states (r : result (list PullRequest)) : list string :=
  match r with
  | Ok prs => map state prs
  | Raise _ => []
  end.

(** *** Configuration documents used in examples *)

(** A configuration holds no list or dict where a string is read, so the
    text of containers plays no role in the examples. *)
Definition repr_unused (v : json) : string := "".

(** A student entry has a defect in [field]: "id", "name" or "email" is
    absent or empty, or "github_username" is absent. *)
Definition field_defective (field : string) (s : list (string * json)) : Prop :=
  (In field ["id"; "name"; "email"] /\ missing_or_empty field s = true)
  \/ (field = "github_username" /\ jget "github_username" s = None).

Definition student_without_handle : json :=
  JObj [("id", JStr "1"); ("name", JStr "Ann"); ("email", JStr "ann@x.com");
        ("github_username", JStr "")].

Definition config_empty_handle : list (string * json) :=
  [("id", JStr "619a9605-0e2b-45ee-ac51-a539c59d70bb");
   ("students", JArr [student_without_handle]);
   ("ignore", JArr [])].

Definition student_ann : json :=
  JObj [("id", JStr "1"); ("name", JStr "Ann"); ("email", JStr "ann@x.com");
        ("github_username", JStr "ann-gh")].

Definition student_no_email : json :=
  JObj [("id", JStr "2"); ("name", JStr "Bob"); ("email", JStr "");
        ("github_username", JStr "bob-gh")].

Definition config_no_email : list (string * json) :=
  [("students", JArr [student_ann; student_no_email]); ("ignore", JArr [])].

(** *** Review statistics *)

(** [review] is an approval by a handle that the mapping [u2a] resolves to
    the contributor with key [a]; likewise for a change request. *)
Definition review_by (disposition : string) (u2a : gmap string Author)
    (a : string * string) (review : PullRequestReview) : bool :=
  String.eqb (review_state review) disposition
  && match u2a !! PyStr.lower (reviewer_username review) with
     | Some reviewer => bool_decide (author_key reviewer = a)
     | None => false
     end.

(** The request passes the three guards of the loop body. *)
Definition pr_counts (fnmatch : string -> string -> bool)
    (include_patterns exclude_patterns : list string) (pr : PullRequest) : bool :=
  negb (PyStr.startswith "app/" (author_username pr))
  && pr_has_matching_files fnmatch include_patterns exclude_patterns pr
  && (is_merged pr || is_open pr).

Definition approvals_of (stats : GitHubStatsData) (a : string * string) : nat :=
  match stats !! a with Some s => approvals_given s | None => 0 end.

Definition change_requests_of (stats : GitHubStatsData) (a : string * string)
  : nat :=
  match stats !! a with Some s => change_requests_given s | None => 0 end.

Definition bool_to_nat (b : bool) : nat := if b then 1 else 0.

(** A request by a bot, approved twice by ann. *)
Definition bot_request : PullRequest :=
  {| number := 5%Z; author_username := "app/dependabot";
     created_at := "2024-03-01"; state := "MERGED";
     merged_at := Some "2024-03-02"; merged_by_username := Some "ann-gh";
     commits := [];
     reviews := [mkReview "ann-gh" "APPROVED" "2024-03-01";
                 mkReview "Ann-GH" "APPROVED" "2024-03-02"];
     files := [mkPRFile "src/a.py" 3 0 true] |}.

(** The same request by bob. *)
Definition bob_request : PullRequest :=
  {| number := 6%Z; author_username := "Bob-GH";
     created_at := "2024-03-01"; state := "MERGED";
     merged_at := Some "2024-03-02"; merged_by_username := Some "ann-gh";
     commits := [];
     reviews := [mkReview "ann-gh" "APPROVED" "2024-03-01";
                 mkReview "Ann-GH" "APPROVED" "2024-03-02"];
     files := [mkPRFile "src/a.py" 3 0 true] |}.

(** The statistics after the requests [prs], for the roster [students]. *)
Definition stats_after (fnmatch : string -> string -> bool)
    (include_patterns exclude_patterns : list string) (students : list Author)
    (prs : list PullRequest) : GitHubStatsData :=
  fold_left (github_pr_step fnmatch include_patterns exclude_patterns
               (username_to_author students))
            prs (initial_stats students).

(** The request [pr] with another author handle, and the review [r] with
    another reviewer handle. *)
Definition with_author_username (h : string) (pr : PullRequest) : PullRequest :=
  {| number := number pr; author_username := h; created_at := created_at pr;
     state := state pr; merged_at := merged_at pr;
     merged_by_username := merged_by_username pr; commits := commits pr;
     reviews := reviews pr; files := files pr |}.

Definition with_reviewer_username (h : string) (r : PullRequestReview)
  : PullRequestReview :=
  {| reviewer_username := h; review_state := review_state r;
     submitted_at := submitted_at r |}.

(** Two handles that differ at most in letter case. *)
Definition same_handle (h1 h2 : string) : bool :=
  String.eqb (PyStr.lower h1) (PyStr.lower h2).

(** A review with the given disposition whose reviewer handle is that of
    the contributor [s] up to letter case. *)
Definition review_of (disposition : string) (s : Author)
    (review : PullRequestReview) : bool :=
  String.eqb (review_state review) disposition
  && same_handle (reviewer_username review) (github_username s).

(** No two contributors of the roster have handles that differ only in
    letter case, and no two have the same name and email. *)
Definition handles_distinct (students : list Author) : Prop :=
  forall s1 s2, In s1 students -> In s2 students ->
    PyStr.lower (github_username s1) = PyStr.lower (github_username s2) ->
    s1 = s2.

Definition keys_distinct (students : list Author) : Prop :=
  forall s1 s2, In s1 students -> In s2 students ->
    author_key s1 = author_key s2 -> s1 = s2.

(** A roster whose handles are written with capitals. *)
Definition ann_caps : Author := mkAuthor "Ann" "ann@x.com" "Ann-GH" "1" [] [] true.

(** *** Commit attribution *)

(** The arguments and the key of the diff query of a commit. *)
Definition diff_args (repo_path h : string) : list string :=
  ["-C"; repo_path; "show"; h; "--format="; "-p"].

Definition diff_key (repo_id h : string) : string :=
  "show-diff:" +:+ repo_id +:+ ":" +:+ h.

(** The answer of a query in the state [g]: the cached text on a hit, the
    outcome of the command on a miss. *)
Definition answer_in (run_git : list string -> string + string) (g : globals)
    (args : list string) (cache_key : string) : string + string :=
  match _cache g !! cache_key with
  | Some out => inl out
  | None => run_git args
  end.

(** The files of commit [h] with a non-whitespace change, as the diff
    query answers in the state [g]. *)
Definition non_ws_files_at (run_git : list string -> string + string)
    (repo_path repo_id : string) (g : globals) (h : string) : gset string :=
  match answer_in run_git g (diff_args repo_path h) (diff_key repo_id h) with
  | inl diff_output => non_whitespace_files diff_output
  | inr _ => ∅
  end.

(** The path passes the include and exclude filters. *)
Definition passes_filters (fnmatch : string -> string -> bool)
    (include_patterns exclude_patterns : list string) (f : string) : bool :=
  matches_include fnmatch include_patterns f
  && negb (should_exclude fnmatch exclude_patterns f).

(** In the history [all_commits], every path that commit [h] touched and
    that passes the filters is outside [non_ws]: the changes of [h] to its
    filter-matching paths are whitespace-only. *)
Definition whitespace_only_commit (fnmatch : string -> string -> bool)
    (include_patterns exclude_patterns : list string) (non_ws : gset string)
    (h : string) (all_commits : list (string * list string)) : bool :=
  forallb
    (fun entry : string * list string =>
       negb (String.eqb entry.1 h)
       || forallb
            (fun f => negb (passes_filters fnmatch include_patterns
                              exclude_patterns f)
                      || negb (bool_decide (f ∈ non_ws)))
            entry.2)
    all_commits.

(** The hash [h] is in no set of [data]. *)
Definition in_no_commit_set (h : string) (data : CommitsData) : Prop :=
  forall a s, data !! a = Some s -> h ∉ s.

(** *** A history with a line copied across the filter boundary

    Commit [hash_H] (by Ann) creates [lib/util.py] with one line of code and
    [src/b.py] with one blank line. Commit [hash_K] (by Bob, the head) moves
    the line of code into the new file [src/a.py]; copy-aware blame gives
    that line to [hash_H]. *)

Definition hash_K : string := "fedcba9876543210fedcba9876543210fedcba98".

Definition code_line : string :=
  "def parse_configuration_file(path_to_file, default_encoding): pass".

Definition diff_H : string :=
  unlines ["diff --git a/lib/util.py b/lib/util.py";
           "new file mode 100644";
           "--- /dev/null";
           "+++ b/lib/util.py";
           "@@ -0,0 +1 @@";
           "+" +:+ code_line;
           "diff --git a/src/b.py b/src/b.py";
           "new file mode 100644";
           "--- /dev/null";
           "+++ b/src/b.py";
           "@@ -0,0 +1 @@";
           "+   "].

Definition diff_K : string :=
  unlines ["diff --git a/lib/util.py b/lib/util.py";
           "--- a/lib/util.py";
           "+++ b/lib/util.py";
           "@@ -1 +0,0 @@";
           "-" +:+ code_line;
           "diff --git a/src/a.py b/src/a.py";
           "new file mode 100644";
           "--- /dev/null";
           "+++ b/src/a.py";
           "@@ -0,0 +1 @@";
           "+" +:+ code_line].

Definition git_copied_line (args : list string) : string + string :=
  let sub := subcommand args in
  if String.eqb sub "rev-parse" then
    if String.eqb (last_arg args) "HEAD" then inl (hash_K +:+ nl)
    else inl (last_arg args +:+ nl)
  else if String.eqb sub "show" then
    if String.eqb (nth 3 args "") "-s" then
      if String.eqb (last_arg args) hash_H
      then inl (unlines ["Ann"; "ann@x.com"; "2024-01-01"; "Add util"])
      else inl (unlines ["Bob"; "bob@x.com"; "2024-01-02"; "Move util"])
    else if String.eqb (nth 3 args "") hash_H then inl diff_H
    else inl diff_K
  else if String.eqb sub "ls-tree" then
    inl (unlines ["lib/util.py"; "src/a.py"; "src/b.py"])
  else if String.eqb sub "blame" then
    if String.eqb (last_arg args) "src/a.py" then
      inl (unlines [hash_H +:+ " 1 1 1"; "author Ann"; "filename lib/util.py";
                    tab +:+ code_line])
    else if String.eqb (last_arg args) "src/b.py" then
      inl (unlines [hash_H +:+ " 1 1 1"; "author Ann"; "filename src/b.py";
                    tab +:+ "   "])
    else inl ""
  else if String.eqb sub "log" then
    inl (unlines [hash_K; "lib/util.py"; "src/a.py"; ""; hash_H; "lib/util.py";
                  "src/b.py"])
  else inr "fatal: unknown".

Definition roster_ann_bob : StudentsConfig :=
  {| students := [ann; bob]; ignore := [];
     include_patterns := ["src/*"]; exclude_patterns := [] |}.

Definition history_copied_line : list (string * list string) :=
  [(hash_K, ["lib/util.py"; "src/a.py"]); (hash_H, ["lib/util.py"; "src/b.py"])].

Definition commit_stats_copied_line : commit_stats :=
  {| alone_commits := {[ author_key ann := ∅; author_key bob := {[hash_K]} ]};
     collab_commits := {[ author_key ann := ∅; author_key bob := ∅ ]};
     commit_coauthors_cache := {[ hash_K := [] ]} |}.

(** *** Errors of commit attribution *)

(** An error of the resolution of a commit: the commit is not found, the
    detail query fails, or the author is unknown (context "commit"). *)
Definition resolution_error (e : exn) : Prop :=
  match e with
  | CommitNotFoundError _ | CalledProcessError _ => True
  | UnknownAuthorError _ _ context_type _ => context_type = "commit"
  | _ => False
  end.

(** An identity error raised for a co-author trailer. *)
Definition co_author_error (e : exn) : Prop :=
  exists name email context_detail,
    e = UnknownAuthorError name email "co-author in commit" context_detail.

(** The errors that leave commit attribution: a failed git command, or an
    identity error for a co-author trailer. *)
Definition commit_pass_error (e : exn) : Prop :=
  (exists stderr, e = CalledProcessError stderr) \/ co_author_error e.

(** A history of three commits on [src/a.py]: [hash_H] by Ann, [hash_K]
    by an author who is not in the roster, and [hash_missing], which does not
    resolve. The head holds [README.md] only. *)
Definition diff_a : string :=
  unlines ["diff --git a/src/a.py b/src/a.py"; "--- a/src/a.py";
           "+++ b/src/a.py"; "@@ -1 +1,2 @@"; " x = 1"; "+y = 2"].

Definition git_partly_unknown (args : list string) : string + string :=
  let sub := subcommand args in
  if String.eqb sub "rev-parse" then
    if String.eqb (last_arg args) hash_missing then inr "fatal: bad object"
    else inl (last_arg args +:+ nl)
  else if String.eqb sub "show" then
    if String.eqb (nth 3 args "") "-s" then
      if String.eqb (last_arg args) hash_H
      then inl (unlines ["Ann"; "ann@x.com"; "2024-01-01"; "Add y"])
      else inl (unlines ["Carol"; "carol@x.com"; "2024-01-02"; "Add z"])
    else inl diff_a
  else if String.eqb sub "log" then
    inl (unlines [hash_missing; "src/a.py"; ""; hash_K; "src/a.py"; "";
                  hash_H; "src/a.py"])
  else if String.eqb sub "ls-tree" then inl (unlines ["README.md"])
  else inr "fatal: unknown".

Definition commit_stats_partly_unknown : commit_stats :=
  {| alone_commits := {[ author_key ann := {[hash_H]}; author_key bob := ∅ ]};
     collab_commits := {[ author_key ann := ∅; author_key bob := ∅ ]};
     commit_coauthors_cache := {[ hash_H := [] ]} |}.

(** A history of one commit by Ann whose message has a trailer for Zed,
    who is not in the roster. The head holds [README.md] only. *)
Definition git_unknown_co_author (args : list string) : string + string :=
  let sub := subcommand args in
  if String.eqb sub "rev-parse" then inl (last_arg args +:+ nl)
  else if String.eqb sub "show" then
    if String.eqb (nth 3 args "") "-s" then
      inl (unlines ["Ann"; "ann@x.com"; "2024-01-01"; "Add y"; "";
                    "Co-authored-by: Zed <zed@x.com>"])
    else inl diff_a
  else if String.eqb sub "log" then inl (unlines [hash_H; "src/a.py"])
  else if String.eqb sub "ls-tree" then inl (unlines ["README.md"])
  else inr "fatal: unknown".

(** *** Relations and predicates on code over the globals *)

(** Every run of [m] relates the globals before to the globals after. *)
Definition preserves (R : globals -> globals -> Prop) {A} (m : M A) : Prop :=
  forall g, R g (m g).2.

(** The exceptions that a piece of code can raise. *)
Definition raises_only {A} (P : exn -> Prop) (m : M A) : Prop :=
  forall g e, (m g).1 = Raise e -> P e.

(** The diff query of [h] answers the same in [g'] as in [g]. *)
Definition same_diff_answer (run_git : list string -> string + string)
    (repo_path repo_id h : string) (g g' : globals) : Prop :=
  answer_in run_git g' (diff_args repo_path h) (diff_key repo_id h)
  = answer_in run_git g (diff_args repo_path h) (diff_key repo_id h).

(** The invariant of the loop over the history, for a commit [h] whose
    changes are whitespace-only: its diff query still answers as in the
    initial state [g], and its hash is in no commit set. *)
Definition commit_loop_invariant (run_git : list string -> string + string)
    (repo_path repo_id h : string) (g : globals) (st : commit_stats)
    (gi : globals) : Prop :=
  same_diff_answer run_git repo_path repo_id h g gi
  /\ in_no_commit_set h (alone_commits st)
  /\ in_no_commit_set h (collab_commits st).

(** The commit sets of an analysis, when it succeeds. *)
Definition analysis_alone_commits (r : result AnalysisResult)
  : option CommitsData :=
  match r with
  | Ok res => Some (res_alone_commits res)
  | Raise _ => None
  end.

(** *** The registry and the configuration *)

(** Every author of the registry is registered under its own name and
    email: the entries under alias keys point to authors that resolve to
    themselves. *)
Definition canonical (reg : registry) : Prop :=
  forall k a, reg !! k = Some a -> reg !! author_key a = Some a.

(** The exceptions with which the loading of a configuration fails. *)
Definition config_failure (e : exn) : Prop :=
  match e with
  | StudentsConfigError _ | TypeError => True
  | _ => False
  end.

(** What the loops keep: the registry is canonical, it contains [reg0],
    and the authors gathered so far, with those of [before], resolve to
    themselves. *)
Definition roster_resolves (reg0 : registry) (before : list Author)
    (acc : list Author * registry) : Prop :=
  canonical acc.2 /\ reg0 ⊆ acc.2
  /\ forall s, s ∈ before ++ acc.1 -> acc.2 !! author_key s = Some s.

(** A configuration with one student, Ann, who has a second email. *)
Definition student_ann_alias : json :=
  JObj [("id", JStr "1"); ("name", JStr "Ann"); ("email", JStr "ann@x.com");
        ("github_username", JStr "ann-gh");
        ("other_emails", JArr [JStr "ann@home.org"])].

Definition config_ann_alias : list (string * json) :=
  [("students", JArr [student_ann_alias]); ("ignore", JArr [])].

Definition ann_alias : Author :=
  mkAuthor "Ann" "ann@x.com" "ann-gh" "1" [] ["ann@home.org"] true.

(** A student entry whose "other_names" is a number. *)
Definition config_alias_number : list (string * json) :=
  [("students",
    JArr [JObj [("id", JStr "1"); ("name", JStr "Ann");
                ("email", JStr "ann@x.com"); ("github_username", JStr "ann-gh");
                ("other_names", JNum 7)]]);
   ("ignore", JArr [])].

(** *** The history of the process cache *)

(** Between [g] and [g'] the command cache kept every entry, the
    closed-request cache kept every key, the dirty flag was not reset, and
    whatever changed was recorded: when the flag is not set in [g'], the two
    caches are those of [g]. *)
Definition cache_history (g g' : globals) : Prop :=
  _cache g ⊆ _cache g'
  /\ dom (_pr_cache g) ⊆ dom (_pr_cache g')
  /\ (_cache_dirty g = true -> _cache_dirty g' = true)
  /\ (_cache_dirty g' = false ->
      _cache g' = _cache g /\ _pr_cache g' = _pr_cache g).

(** *** Listings *)

(** The arguments and the key of the listing of the tracked files. *)
Definition ls_tree_args (repo_path commit : string) : list string :=
  ["-C"; repo_path; "ls-tree"; "-r"; "--name-only"; commit].

Definition ls_tree_key (repo_id commit : string) : string :=
  "ls-tree:" +:+ repo_id +:+ ":" +:+ commit.

(** The arguments and the key of the history query. *)
Definition log_args (repo_path : string) : list string :=
  ["-C"; repo_path; "log"; "--pretty=format:%H"; "--name-only"].

Definition log_key (repo_id : string) : string := "log-files:" +:+ repo_id.

(** A path as the history parser keeps it: not empty, and not of the form
    of a full hash. *)
Definition history_path (f : string) : bool :=
  PyStr.truthy f && negb (is_full_hash f).

(** An entry of the parsed history: a full hash with such paths. *)
Definition history_entry (entry : string * list string) : bool :=
  is_full_hash entry.1 && forallb history_path entry.2.

(** The lines that the history parser looks at: stripped, and not empty. *)
Definition log_tokens (lines : list string) : list string :=
  List.filter PyStr.truthy (map PyStr.strip lines).

(** The parser on such a line. *)
Definition log_token (st : log_state) (t : string) : log_state :=
  let '(commits, current_hash, current_files) := st in
  if is_full_hash t then
    (match current_hash with
     | Some h => commits ++ [(h, current_files)]
     | None => commits
     end, Some t, [])
  else (commits, current_hash, current_files ++ [t]).

(** The lines of a history as the log prints it, empty lines apart: for
    each commit its hash, then its paths. *)
Definition log_lines (commits : list (string * list string)) : list string :=
  concat (map (fun entry : string * list string => entry.1 :: entry.2) commits).

(** The state of the history parser: the commits so far, the hash and the
    paths of the commit being read. *)
Definition log_state_ok (st : log_state) : Prop :=
  forallb history_entry st.1.1 = true
  /\ (forall h, st.1.2 = Some h -> is_full_hash h = true)
  /\ forallb history_path st.2 = true.


(** *** Reading a unified diff *)

(** The file that a line names as the header of a file's part of a diff:
    the fourth of its space-separated fields, without a leading "b/". *)
Definition header_file (line : string) : option string :=
  if PyStr.startswith "diff --git " line then
    let parts := PyStr.split " " line in
    if 4 <=? length parts then
      Some (if PyStr.startswith "b/" (nth_line parts 3)
            then PyStr.drop 2 (nth_line parts 3) else nth_line parts 3)
    else None
  else None.

(** A line that adds or removes text other than white space. A line that
    starts with "+++" or "---" does not count, whatever follows. *)
Definition changes_line (line : string) : bool :=
  (PyStr.startswith "+" line || PyStr.startswith "-" line)
  && negb (PyStr.startswith "+++" line || PyStr.startswith "---" line)
  && PyStr.truthy (PyStr.strip (PyStr.drop 1 line)).

(** The file [f] is named by a header line of [lines], and before the next
    header line there is a line that changes it. *)
Definition reported (lines : list string) (f : string) : Prop :=
  f <> ""
  /\ exists pre hl mid l post,
       lines = pre ++ hl :: mid ++ l :: post
       /\ header_file hl = Some f
       /\ Forall (fun m => header_file m = None) mid
       /\ changes_line l = true.

(** The file named by the last header line of [lines], if any. *)
Definition current_file_of (lines : list string) (c : option string) : Prop :=
  match c with
  | Some f =>
      exists pre hl mid,
        lines = pre ++ hl :: mid /\ header_file hl = Some f
        /\ Forall (fun m => header_file m = None) mid
  | None => Forall (fun m => header_file m = None) lines
  end.

(** The state of the diff reader after the lines [lines]. *)
Definition diff_state_of (lines : list string) (st : diff_state) : Prop :=
  (forall f, f ∈ st.1 <-> reported lines f) /\ current_file_of lines st.2.

(** *** The listing of the review requests *)

(** The numbers of the requests of the detailed listing, 0 standing for a
    record without a number. *)
Definition listed_numbers (details : result (list gh_pr)) : list Z :=
  match details with
  | Ok data => map (fun d => default 0%Z (gh_number d)) data
  | Raise _ => []
  end.

(** The summary lists the request [pr] as not open, and the closed-request
    cache of [g] has it under the repository identity and its listed
    number. *)
Definition cached_as_closed (repo_id : string) (g : globals)
    (pr_info : option Z * option string) (pr : PullRequest) : Prop :=
  PyStr.upper (default "OPEN" pr_info.2) <> "OPEN"
  /\ _pr_cache g !! (repo_id, default 0%Z pr_info.1) = Some pr.

(** A closed request that is in the cache, for the examples. *)
Definition merged_request : PullRequest :=
  {| number := 2%Z; author_username := "bob-gh"; created_at := "2024-03-02";
     state := "MERGED"; merged_at := Some "2024-03-03";
     merged_by_username := Some "ann-gh"; commits := []; reviews := [];
     files := [] |}.

Definition globals_with_merged_request : globals :=
  {| _cache := ∅; _pr_cache := {[ ("org/repo", 2%Z) := merged_request ]};
     _cache_dirty := false |}.

(** The record of an open request by ann that touches [src/a.py], with an
    approval by bob. *)
Definition open_request_record : gh_pr :=
  {| gh_number := Some 1%Z;
     gh_pr_author := Some {| login := Some "ann-gh"; gh_email := None |};
     createdAt := Some "2024-03-01T09:00:00Z";
     gh_state := Some "open"; mergedAt := None; mergedBy := None;
     gh_reviews :=
       Some [ {| gh_review_author :=
                   Some {| login := Some "bob-gh"; gh_email := None |};
                 gh_review_state := Some "APPROVED";
                 submittedAt := Some "2024-03-02T09:00:00Z" |} ];
     gh_files :=
       Some [ {| gh_path := Some "src/a.py"; gh_additions := Some 3%Z;
                 gh_deletions := Some 0%Z |} ] |}.

(** *** Request counters *)

(** The four request counters, by kind of request: with or without
    co-authors, merged or open. *)
Definition class_counter (collab merged : bool) : GitHubStats -> nat :=
  match collab, merged with
  | true, true => prs_collab_merged
  | true, false => prs_collab_open
  | false, true => prs_alone_merged
  | false, false => prs_alone_open
  end.

Definition counter_of (field : GitHubStats -> nat) (stats : GitHubStatsData)
    (a : string * string) : nat :=
  match stats !! a with Some s => field s | None => 0 end.

(** The author handle of the request resolves to the contributor with key
    [a]. *)
Definition authored_by (u2a : gmap string Author) (a : string * string)
    (pr : PullRequest) : bool :=
  match u2a !! PyStr.lower (author_username pr) with
  | Some author => bool_decide (author_key author = a)
  | None => false
  end.

(** The request is of the kind [collab], [merged]. *)
Definition request_class (collab merged : bool) (pr : PullRequest) : bool :=
  Bool.eqb (pr_is_collab pr) collab && Bool.eqb (is_merged pr) merged.

(** *** Commit classes *)

(** The hash is in the commit set of some contributor. *)
Definition in_some_commit_set (h : string) (data : CommitsData) : Prop :=
  exists a s, data !! a = Some s /\ h ∈ s.

(** The commit sets agree with the co-author cache: a hash counted as
    Alone has a cached co-author list without valid co-authors, a hash
    counted as Collab has one with a valid co-author. *)
Definition commit_classes_agree (ignored_authors : gset (string * string))
    (st : commit_stats) : Prop :=
  (forall h, in_some_commit_set h (alone_commits st) ->
     exists co, commit_coauthors_cache st !! h = Some co
                /\ valid_co_authors_of ignored_authors co = [])
  /\ (forall h, in_some_commit_set h (collab_commits st) ->
        exists co, commit_coauthors_cache st !! h = Some co
                   /\ valid_co_authors_of ignored_authors co <> []).

(** *** The errors of an analysis *)

(** The [except] clauses of [main]; [json.JSONDecodeError] is a subclass
    of [ValueError]. *)
Definition handled_by_main (e : exn) : bool :=
  match e with
  | ValueError | JSONDecodeError _ | CommitNotFoundError _
  | FileNotFoundInRepoError _ _ | ExecutableNotFoundError _
  | StudentsConfigError _ | UnknownAuthorError _ _ _ _ | GitHubApiError _
  | CalledProcessError _ => true
  | IndexError | TypeError => false
  end.

(** The failures of a [gh] query: of the command, or of [json.loads] on
    its output. *)
Definition gh_failure (e : exn) : Prop :=
  match e with
  | CalledProcessError _ | JSONDecodeError _ => True
  | _ => False
  end.

(** The errors of the blame of a file: those of resolving a commit, and
    the translated failure of the blame command. *)
Definition blame_error (e : exn) : Prop :=
  match e with
  | CommitNotFoundError _ | CalledProcessError _
  | FileNotFoundInRepoError _ _ | UnknownAuthorError _ _ _ _ => True
  | _ => False
  end.

Definition analysis_error (use_github : bool) (e : exn) : Prop :=
  match e with
  | CommitNotFoundError _ | CalledProcessError _
  | FileNotFoundInRepoError _ _ | UnknownAuthorError _ _ _ _ => True
  | ExecutableNotFoundError command => use_github = true /\ command = "gh"
  | GitHubApiError _ => use_github = true
  | _ => False
  end.

Definition gh_summary_unauthorized
  : result (list (option Z * option string)) :=
  Raise (CalledProcessError "HTTP 401").

(** *** The cache file

    [load_cache] and [save_cache] read and write the command cache and the
    closed-request cache as one pickled value. *)

(** What [pickle.load] returns: a pair (its components are taken for the
    two caches without a check), a dictionary alone (the old format), or
    some other value. *)
Inductive pickled : Type :=
| PickleTuple2 (cache : gmap string string)
               (pr_cache : gmap (string * Z) PullRequest)
| PickleDict (cache : gmap string string)
| PickleOther.

(** The cache file: absent, unreadable (opening or unpickling it raises
    [pickle.PickleError], [EOFError] or [OSError], which [load_cache]
    catches), or holding a value. Any other exception of [pickle.load] ends
    the process before the analysis starts. *)
Inductive cache_file : Type :=
| NoFile
| Unreadable
| Holds (loaded : pickled).

(** [load_cache] *)
Definition load_cache (file : cache_file) (g : globals) : globals :=
  match file with
  | NoFile => g
  | Holds (PickleTuple2 cache pr_cache) =>
      {| _cache := cache; _pr_cache := pr_cache;
         _cache_dirty := _cache_dirty g |}
  | Holds (PickleDict cache) =>
      {| _cache := cache; _pr_cache := ∅; _cache_dirty := _cache_dirty g |}
  | Holds PickleOther | Unreadable =>
      {| _cache := ∅; _pr_cache := ∅; _cache_dirty := _cache_dirty g |}
  end.

(** The outcome of writing the file: written, or [OSError] with the file
    left as [remains]. *)
Inductive write_outcome : Type :=
| Written
| WriteError (remains : cache_file).

(** [save_cache] *)
Definition save_cache (outcome : write_outcome) (file : cache_file)
    (g : globals) : cache_file * globals :=
  if negb (_cache_dirty g) then (file, g)
  else
    match outcome with
    | Written =>
        (Holds (PickleTuple2 (_cache g) (_pr_cache g)),
         {| _cache := _cache g; _pr_cache := _pr_cache g;
            _cache_dirty := false |})
    | WriteError remains => (remains, g)
    end.

(** The [try] block of [main] once the configuration is loaded: the
    analysis, then the report. Of the report only the lookups of
    [_print_file_details] reach the caches: [[repo.get_commit(h) for h in
    all_commit_hashes]], where [hashes_of] gives the hashes in the order in
    which the set is iterated. *)
Section Session.
Variable run_git : list string -> string + string.
Variables repo_path repo_id : string.
Variable reg : registry.
Variable fnmatch : string -> string -> bool.
Variable which_gh : option string.
Variable gh_pr_view_commits : Z -> result (option (list gh_commit)).
Variable gh_pr_list_summary : result (list (option Z * option string)).
Variable gh_pr_list_details : result (list gh_pr).
Variable gh_pr_diff : Z -> option string.

Definition lookup_commits (hashes : list string) : M (list Commit) :=
  for_each
    (fun commit_objects h =>
       c ← get_commit run_git repo_path repo_id reg h;
       mret (commit_objects ++ [c]))
    hashes [].

Definition analyze_and_report (students_config : StudentsConfig)
    (use_github : bool) (hashes_of : AnalysisResult -> list string)
  : M AnalysisResult :=
  result ← analyze run_git repo_path repo_id reg fnmatch which_gh
             gh_pr_view_commits gh_pr_list_summary gh_pr_list_details
             gh_pr_diff students_config use_github;
  _ ← lookup_commits (hashes_of result);
  mret result.
End Session.

(** *** The identity of the repository *)

(** [s.replace(old, new)] for a non-empty [old]: the occurrences are
    replaced from the left and do not overlap. [skip] counts the characters
    of the occurrence just replaced that are still to be passed over. *)
Fixpoint replace_from (old new : string) (skip : nat) (s : string) : string :=
  match s with
  | EmptyString => EmptyString
  | String c s' =>
      match skip with
      | S k => replace_from old new k s'
      | O =>
          if String.prefix old s
          then new +:+ replace_from old new (String.length old - 1) s'
          else String c (replace_from old new 0 s')
      end
  end.

Definition replace (old new s : string) : string := replace_from old new 0 s.

(** [sep.join(l)] *)
Fixpoint join (sep : string) (l : list string) : string :=
  match l with
  | [] => ""
  | [x] => x
  | x :: l' => x +:+ sep +:+ join sep l'
  end.

(** [l[-n:]] for a positive [n] *)
Definition last_n {A} (n : nat) (l : list A) : list A :=
  drop (length l - n) l.

(** [Repo.repo_id], as computed on the first access. [origin] is the
    output of [git remote get-url origin], or [None] when the command
    fails; [path_name] is [self.path.name]. *)
Definition repo_id_of (origin : option string) (path_name : string) : string :=
  match origin with
  | Some stdout =>
      let remote_url := PyStr.strip stdout in
      if PyStr.contains ":" remote_url && PyStr.contains "@" remote_url then
        replace ".git" "" (default "" (last (PyStr.split ":" remote_url)))
      else if PyStr.startswith "https://" remote_url then
        replace ".git" "" (join "/" (last_n 2 (PyStr.split "/" remote_url)))
      else remote_url
  | None => path_name
  end.

(** A name without colon, slash and at sign. *)
Definition plain_name (s : string) : bool :=
  negb (PyStr.mem_char ":" s) && negb (PyStr.mem_char "/" s)
  && negb (PyStr.mem_char "@" s).

(** *** Line attribution *)

(** The lines of the file [p] in the bucket of the contributor [a]. *)
Definition lines_of (data : LinesData) (a : string * string) (p : string)
  : list string :=
  match data !! a with
  | Some per_file => default [] (per_file !! p)
  | None => []
  end.

(** The blame line passes the two guards of the loop: its content is not
    blank and the author of its commit is not ignored. *)
Definition line_counts (ignored_authors : gset (string * string))
    (entry : Commit * string) : bool :=
  PyStr.truthy (PyStr.strip entry.2)
  && negb (bool_decide (author_key (author entry.1) ∈ ignored_authors)).

Definition occurrences (a : string * string) (l : list Author) : nat :=
  length (List.filter (fun x => bool_decide (author_key x = a)) l).

(** What one blame line adds to the Alone and to the Collab lines of [a],
    when [co h] are the co-authors of the commit [h]. *)
Definition alone_share (ignored_authors : gset (string * string))
    (co : string -> list Author) (a : string * string)
    (entry : Commit * string) : list string :=
  if line_counts ignored_authors entry then
    match valid_co_authors_of ignored_authors (co (hash entry.1)) with
    | [] => if bool_decide (author_key (author entry.1) = a)
            then [entry.2] else []
    | _ :: _ => []
    end
  else [].

Definition collab_share (ignored_authors : gset (string * string))
    (co : string -> list Author) (a : string * string)
    (entry : Commit * string) : list string :=
  if line_counts ignored_authors entry then
    match valid_co_authors_of ignored_authors (co (hash entry.1)) with
    | [] => []
    | valid =>
        replicate
          (bool_to_nat (bool_decide (author_key (author entry.1) = a))
           + occurrences a valid)
          entry.2
    end
  else [].

(** The co-author cache holds what [co] gives. *)
Definition cache_agrees (co : string -> list Author) (st : line_stats) : Prop :=
  forall h l, coauthors_cache st !! h = Some l -> l = co h.

(** A commit by Ann with Bob as co-author. *)
Definition pair_commit : Commit :=
  {| hash := hash_H; author := ann; date := "2024-01-02";
     message_lines := ["Pair work"; ""; "Co-authored-by: Bob <bob@x.com>"] |}.

Definition initial_line_stats (students : list Author) : line_stats :=
  {| alone_lines := empty_per_student ∅ students;
     collab_lines := empty_per_student ∅ students;
     file_commits := ∅;
     coauthors_cache := ∅ |}.

(** * Properties *)

(** ** Sanity checks of the string primitives and of the trailer patterns *)

Example splitlines_ex :
  PyStr.splitlines ("a" +:+ String "010" ("" +:+ String "013" (String "010" "b")))
  = ["a"; ""; "b"].
Proof. reflexivity. Qed.

Example strip_ex : PyStr.strip "  ab c  " = "ab c".
Proof. reflexivity. Qed.

Example trailer_mixed_case :
  match_trailer "CO-AUTHORED-BY:Ann  Lee   <ann@x.com>  "
  = (Some "Ann  Lee", Some "ann@x.com").
Proof. vm_compute. reflexivity. Qed.

Example trailer_other_key :
  match_trailer "Signed-off-by: A <a@x.com>" = (None, None).
Proof. vm_compute. reflexivity. Qed.

(** ** Monad laws used below *)

Lemma rbind_Ok {A B} (a : A) (k : A -> result B) : (x ← Ok a; k x) = k a.
Proof. reflexivity. Qed.

Lemma rbind_Raise {A B} (e : exn) (k : A -> result B) :
  (x ← Raise e; k x) = Raise e.
Proof. reflexivity. Qed.

(** ** The matcher of the trailer patterns *)

Section MatcherFacts.
Import Regex.

Lemma star_greedy_class p k s1 u :
  stops p u -> forallb p s1 = true ->
  forall fuel pos caps,
    length s1 <= fuel ->
    star_loop (rmatch (CSet p)) true k fuel pos (s1 ++ u) caps
    = greedy_try k pos s1 u caps.
Proof.
  intros Hu. induction s1 as [|x s1 IH]; intros Hp fuel pos caps Hfuel.
  - simpl. destruct fuel as [|fuel]; [done|]. simpl.
    destruct u as [|y u]; [done|]. simpl in Hu. by rewrite Hu.
  - simpl in Hp. apply andb_prop in Hp as [Hx Hp].
    destruct fuel as [|fuel]; [simpl in Hfuel; lia|].
    cbn [star_loop app rmatch greedy_try]. rewrite Hx.
    replace (pos <? S pos) with true by (symmetry; apply Nat.ltb_lt; lia).
    rewrite IH by (done || simpl in Hfuel; lia). done.
Qed.

Lemma star_lazy_class p k s1 u :
  stops p u -> forallb p s1 = true ->
  forall fuel pos caps,
    length s1 <= fuel ->
    star_loop (rmatch (CSet p)) false k fuel pos (s1 ++ u) caps
    = lazy_try k pos s1 u caps.
Proof.
  intros Hu. induction s1 as [|x s1 IH]; intros Hp fuel pos caps Hfuel.
  - simpl. destruct fuel as [|fuel]; simpl.
    + by destruct (k pos u caps).
    + destruct (k pos u caps); [done|].
      destruct u as [|y u]; [done|]. simpl in Hu. by rewrite Hu.
  - simpl in Hp. apply andb_prop in Hp as [Hx Hp].
    destruct fuel as [|fuel]; [simpl in Hfuel; lia|].
    cbn [star_loop app rmatch lazy_try].
    destruct (k pos (x :: s1 ++ u) caps); [done|]. rewrite Hx.
    replace (pos <? S pos) with true by (symmetry; apply Nat.ltb_lt; lia).
    rewrite IH by (done || simpl in Hfuel; lia). done.
Qed.

Lemma greedy_try_longest k s1 u caps c :
  forall pos,
    k (pos + length s1) u caps = Some c ->
    greedy_try k pos s1 u caps = Some c.
Proof.
  induction s1 as [|x s1 IH]; intros pos Hk; simpl in *.
  - by rewrite Nat.add_0_r in Hk.
  - rewrite (IH (S pos)); [done|]. by rewrite <- Hk, Nat.add_succ_r.
Qed.

Lemma greedy_try_first k b u caps :
  forall pos,
    (forall t1 t2, b = t1 ++ t2 -> t1 <> [] ->
                   k (pos + length t1) (t2 ++ u) caps = None) ->
    greedy_try k pos b u caps = k pos (b ++ u) caps.
Proof.
  induction b as [|x b IH]; intros pos Hlater; [done|].
  cbn [greedy_try]. rewrite IH.
  - specialize (Hlater [x] b eq_refl ltac:(done)). simpl in Hlater.
    rewrite Nat.add_1_r in Hlater. by rewrite Hlater.
  - intros t1 t2 -> Hne.
    specialize (Hlater (x :: t1) t2 eq_refl ltac:(done)). simpl in Hlater.
    by rewrite Nat.add_succ_r in Hlater.
Qed.

Lemma greedy_try_at k a b u caps c :
  forall pos,
    k (pos + length a) (b ++ u) caps = Some c ->
    (forall t1 t2, b = t1 ++ t2 -> t1 <> [] ->
                   k (pos + length a + length t1) (t2 ++ u) caps = None) ->
    greedy_try k pos (a ++ b) u caps = Some c.
Proof.
  induction a as [|x a IH]; intros pos Hk Hlater.
  - simpl in *. rewrite Nat.add_0_r in Hk. rewrite greedy_try_first; [done|].
    intros t1 t2 Hb Hne. specialize (Hlater t1 t2 Hb Hne).
    by rewrite Nat.add_0_r in Hlater.
  - cbn [app greedy_try]. rewrite (IH (S pos)); [done| |].
    + by rewrite <- Hk; simpl; rewrite Nat.add_succ_r.
    + intros t1 t2 Hb Hne. rewrite <- (Hlater t1 t2 Hb Hne).
      simpl. by rewrite Nat.add_succ_r.
Qed.

Lemma lazy_try_at k a b u caps c :
  forall pos,
    (forall t1 t2, a = t1 ++ t2 -> t2 <> [] ->
                   k (pos + length t1) (t2 ++ b ++ u) caps = None) ->
    k (pos + length a) (b ++ u) caps = Some c ->
    lazy_try k pos (a ++ b) u caps = Some c.
Proof.
  induction a as [|x a IH]; intros pos Hearlier Hk.
  - simpl in *. rewrite Nat.add_0_r in Hk.
    destruct b; simpl in *; by rewrite Hk.
  - cbn [app lazy_try].
    pose proof (Hearlier [] (x :: a) eq_refl ltac:(done)) as H0.
    simpl in H0. rewrite Nat.add_0_r in H0.
    rewrite <- app_assoc, H0.
    apply IH.
    + intros t1 t2 -> Hne.
      specialize (Hearlier (x :: t1) t2 eq_refl Hne). simpl in Hearlier.
      by rewrite Nat.add_succ_r in Hearlier.
    + by rewrite <- Hk; simpl; rewrite Nat.add_succ_r.
Qed.

Section FailsOn.
Variable P : list ascii -> Prop.
Hypothesis P_tail : forall x s, P (x :: s) -> P s.

Lemma star_loop_fails_on m1 greedy k :
  (forall k', fails_on P k' -> fails_on P (fun pos s caps => m1 pos s caps k')) ->
  fails_on P k ->
  forall fuel, fails_on P (star_loop m1 greedy k fuel).
Proof.
  intros Hm1 Hk. induction fuel as [|fuel IH]; intros pos s caps Hs; simpl.
  - by apply Hk.
  - assert (m1 pos s caps
      (fun pos' s' caps' =>
         if pos <? pos' then star_loop m1 greedy k fuel pos' s' caps'
         else None) = None) as Hloop.
    { apply (Hm1 (fun pos' s' caps' =>
         if pos <? pos' then star_loop m1 greedy k fuel pos' s' caps'
         else None)); [|done].
      intros pos' s' caps' Hs'. destruct (pos <? pos'); [by apply IH|done]. }
    destruct greedy; rewrite Hloop, (Hk pos s caps Hs); done.
Qed.

Lemma rmatch_fails_on r :
  forall k, fails_on P k -> fails_on P (fun pos s caps => rmatch r pos s caps k).
Proof.
  induction r as [| |c|p|r1 IH1 r2 IH2|r1 IH1|greedy r1 IH1|n r1 IH1];
    intros k Hk pos s caps Hs; cbn [rmatch].
  - destruct (pos =? 0); [by apply Hk|done].
  - destruct s as [|c [|]]; [by apply Hk| |done].
    destruct (Ascii.eqb c "010"); [by apply Hk|done].
  - destruct s as [|x s]; [done|].
    destruct (chr_eq_nocase c x); [|done]. apply Hk. by apply (P_tail x).
  - destruct s as [|x s]; [done|].
    destruct (p x); [|done]. apply Hk. by apply (P_tail x).
  - apply (IH1 (fun pos' s' caps' => rmatch r2 pos' s' caps' k)); [|done].
    by apply IH2.
  - rewrite (IH1 k Hk pos s caps Hs). by apply Hk.
  - by apply star_loop_fails_on.
  - apply (IH1 (fun pos' s' caps' =>
       k pos' s' ((n, string_of_list_ascii (firstn (pos' - pos) s)) :: caps')));
      [|done].
    intros pos' s' caps' Hs'. by apply Hk.
Qed.

Lemma Cat_fails_on r1 r2 k :
  fails_on P (fun pos s caps => rmatch r2 pos s caps k) ->
  fails_on P (fun pos s caps => rmatch (Cat r1 r2) pos s caps k).
Proof.
  intros H2 pos s caps Hs. cbn [rmatch].
  by apply (rmatch_fails_on r1
              (fun pos' s' caps' => rmatch r2 pos' s' caps' k)).
Qed.
End FailsOn.

Lemma lacks_tail c x s : lacks c (x :: s) -> lacks c s.
Proof. unfold lacks. simpl. by intros [_ ?]%andb_prop. Qed.

Lemma Chr_fails_on c r k :
  fails_on (lacks c) (fun pos s caps => rmatch (Cat (Chr c) r) pos s caps k).
Proof.
  intros pos s caps Hs. cbn [rmatch]. destruct s as [|x s]; [done|].
  unfold lacks in Hs. simpl in Hs. apply andb_prop in Hs as [Hx _].
  by destruct (chr_eq_nocase c x).
Qed.

(** *** The equations of the matcher *)

Lemma rmatch_Cat r1 r2 pos s caps k :
  rmatch (Cat r1 r2) pos s caps k
  = rmatch r1 pos s caps (fun pos' s' caps' => rmatch r2 pos' s' caps' k).
Proof. reflexivity. Qed.

Lemma rmatch_Star greedy r pos s caps k :
  rmatch (Star greedy r) pos s caps k
  = star_loop (rmatch r) greedy k (length s) pos s caps.
Proof. reflexivity. Qed.

Lemma rmatch_Grp n r pos s caps k :
  rmatch (Grp n r) pos s caps k
  = rmatch r pos s caps
      (fun pos' s' caps' =>
         k pos' s' ((n, string_of_list_ascii (take (pos' - pos) s)) :: caps')).
Proof. reflexivity. Qed.

Lemma rmatch_CSet p pos x s caps k :
  p x = true -> rmatch (CSet p) pos (x :: s) caps k = k (S pos) s caps.
Proof. intros Hx. simpl. by rewrite Hx. Qed.

Lemma rmatch_Chr c pos x s caps k :
  chr_eq_nocase c x = true ->
  rmatch (Chr c) pos (x :: s) caps k = k (S pos) s caps.
Proof. intros Hx. simpl. by rewrite Hx. Qed.

Lemma rmatch_Plus greedy r pos s caps k :
  rmatch (Plus greedy r) pos s caps k
  = rmatch r pos s caps
      (fun pos' s' caps' => rmatch (Star greedy r) pos' s' caps' k).
Proof. reflexivity. Qed.

(** *** Loops over a class *)

Lemma star_greedy_longest p a u pos caps k c :
  forallb p a = true -> stops p u ->
  k (pos + length a) u caps = Some c ->
  rmatch (Star true (CSet p)) pos (a ++ u) caps k = Some c.
Proof.
  intros Ha Hu Hk. rewrite rmatch_Star.
  rewrite star_greedy_class; [|done|done|rewrite !length_app; lia].
  by apply greedy_try_longest.
Qed.

Lemma plus_greedy_at p a b u pos caps k c :
  a <> [] -> forallb p (a ++ b) = true -> stops p u ->
  k (pos + length a) (b ++ u) caps = Some c ->
  (forall t1 t2, b = t1 ++ t2 -> t1 <> [] ->
                 k (pos + length a + length t1) (t2 ++ u) caps = None) ->
  rmatch (Plus true (CSet p)) pos (a ++ b ++ u) caps k = Some c.
Proof.
  intros Hne Hp Hu Hk Hlater. destruct a as [|x a]; [done|].
  simpl in Hp. apply andb_prop in Hp as [Hx Hp].
  rewrite rmatch_Plus. cbn [app]. rewrite (rmatch_CSet p _ _ _ _ _ Hx).
  rewrite rmatch_Star, app_assoc.
  rewrite star_greedy_class; [|done|done|rewrite !length_app; lia].
  apply greedy_try_at.
  - rewrite <- Hk. simpl. by rewrite Nat.add_succ_r.
  - intros t1 t2 Hb Ht1. rewrite <- (Hlater t1 t2 Hb Ht1). simpl.
    by rewrite Nat.add_succ_r.
Qed.

Lemma plus_greedy_longest p a u pos caps k c :
  a <> [] -> forallb p a = true -> stops p u ->
  k (pos + length a) u caps = Some c ->
  rmatch (Plus true (CSet p)) pos (a ++ u) caps k = Some c.
Proof.
  intros Hne Hp Hu Hk.
  apply (plus_greedy_at p a [] u); try done.
  - by rewrite app_nil_r.
  - intros [|? ?] t2 Hb Ht1; [done|discriminate].
Qed.

Lemma grp_plus_greedy_longest n p a u pos caps k c :
  a <> [] -> forallb p a = true -> stops p u ->
  k (pos + length a) u ((n, string_of_list_ascii a) :: caps) = Some c ->
  rmatch (Grp n (Plus true (CSet p))) pos (a ++ u) caps k = Some c.
Proof.
  intros Hne Hp Hu Hk. rewrite rmatch_Grp.
  apply plus_greedy_longest; try done.
  replace (pos + length a - pos) with (length a) by lia.
  by rewrite take_app_length.
Qed.

Lemma grp_plus_lazy n p a b pos caps k c :
  a <> [] -> forallb p (a ++ b) = true ->
  (forall t1 t2 caps', a = t1 ++ t2 -> t1 <> [] -> t2 <> [] ->
                       k (pos + length t1) (t2 ++ b) caps' = None) ->
  k (pos + length a) b ((n, string_of_list_ascii a) :: caps) = Some c ->
  rmatch (Grp n (Plus false (CSet p))) pos (a ++ b) caps k = Some c.
Proof.
  intros Hne Hp Hearlier Hk. destruct a as [|x a]; [done|].
  simpl in Hp. apply andb_prop in Hp as [Hx Hp].
  rewrite rmatch_Grp, rmatch_Plus. cbn [app].
  rewrite (rmatch_CSet p _ _ _ _ _ Hx), rmatch_Star.
  pose proof (star_lazy_class p
    (fun pos' s' caps' =>
       k pos' s'
         ((n, string_of_list_ascii (take (pos' - pos) (x :: a ++ b))) :: caps'))
    (a ++ b) [] I Hp (length (a ++ b)) (S pos) caps (le_n _)) as Hloop.
  rewrite app_nil_r in Hloop. rewrite Hloop. clear Hloop.
  apply lazy_try_at.
  - intros t1 t2 -> Ht2. rewrite app_nil_r.
    specialize (Hearlier (x :: t1) t2
      ((n, string_of_list_ascii
             (take (S pos + length t1 - pos) (x :: (t1 ++ t2) ++ b))) :: caps)
      eq_refl ltac:(done) Ht2).
    simpl in Hearlier. rewrite Nat.add_succ_r in Hearlier. exact Hearlier.
  - rewrite app_nil_r.
    replace (S pos + length a - pos) with (length (x :: a)) by (simpl; lia).
    change (x :: a ++ b) with ((x :: a) ++ b). rewrite take_app_length.
    rewrite <- Hk. simpl. by rewrite Nat.add_succ_r.
Qed.

Lemma star_then_chr_blocked p c r k greedy :
  forall fuel pos s caps,
    blocked p c s = true ->
    star_loop (rmatch (CSet p)) greedy
      (fun pos' s' caps' => rmatch (Cat (Chr c) r) pos' s' caps' k)
      fuel pos s caps = None.
Proof.
  assert (forall pos s caps, blocked p c s = true ->
            rmatch (Cat (Chr c) r) pos s caps k = None) as Hk.
  { intros pos [|x s] caps Hs; [done|]. simpl in Hs.
    apply andb_prop in Hs as [Hx _]. cbn [rmatch].
    by destruct (chr_eq_nocase c x). }
  induction fuel as [|fuel IH]; intros pos s caps Hs; cbn [star_loop].
  - by apply Hk.
  - rewrite (Hk pos s caps Hs).
    assert (rmatch (CSet p) pos s caps
      (fun pos' s' caps' =>
         if pos <? pos'
         then star_loop (rmatch (CSet p)) greedy
                (fun pos'0 s'0 caps'0 =>
                   rmatch (Cat (Chr c) r) pos'0 s'0 caps'0 k)
                fuel pos' s' caps'
         else None) = None) as Hloop.
    { cbn [rmatch]. destruct s as [|x s]; [done|].
      simpl in Hs. apply andb_prop in Hs as [_ Hs].
      destruct (p x); [|done].
      destruct (pos <? S pos); [by apply IH|done]. }
    rewrite Hloop. by destruct greedy.
Qed.

Lemma star_chr_blocked p c r k greedy pos s caps :
  blocked p c s = true ->
  rmatch (Cat (Star greedy (CSet p)) (Cat (Chr c) r)) pos s caps k = None.
Proof.
  intros Hs. rewrite rmatch_Cat, rmatch_Star. by apply star_then_chr_blocked.
Qed.

Lemma plus_chr_blocked p c r k greedy pos s caps :
  blocked p c s = true ->
  rmatch (Cat (Plus greedy (CSet p)) (Cat (Chr c) r)) pos s caps k = None.
Proof.
  intros Hs. rewrite rmatch_Cat, rmatch_Plus. destruct s as [|x s]; [done|].
  simpl in Hs. apply andb_prop in Hs as [_ Hs].
  destruct (p x) eqn:Hx; [|by simpl; rewrite Hx].
  rewrite (rmatch_CSet p _ _ _ _ _ Hx), rmatch_Star.
  by apply star_then_chr_blocked.
Qed.

(** *** Literal words *)

Lemma rmatch_Lit w :
  forall rest pos s caps k,
    rmatch (Lit w rest) pos s caps k =
      match lit_skip w s with
      | Some s' => rmatch rest (pos + String.length w) s' caps k
      | None => None
      end.
Proof.
  induction w as [|c w IH]; intros rest pos s caps k.
  - simpl. by rewrite Nat.add_0_r.
  - cbn [Lit lit_skip String.length]. rewrite rmatch_Cat.
    destruct s as [|x s]; [done|]. cbn [rmatch].
    destruct (chr_eq_nocase c x); [|done].
    rewrite IH. by rewrite Nat.add_succ_r.
Qed.

(** *** Characters *)

Ltac each_char c :=
  destruct c as [[] [] [] [] [] [] [] []]; try discriminate; try reflexivity.

Lemma space_not_lt c : PyStr.is_space c = true -> chr_eq_nocase "<" c = false.
Proof. each_char c. Qed.
Lemma space_not_at c : PyStr.is_space c = true -> chr_eq_nocase "@" c = false.
Proof. each_char c. Qed.
Lemma name_char_dot c :
  name_char c = true -> negb (Ascii.eqb c "010") = true.
Proof. each_char c. Qed.
Lemma name_char_not_lt c : name_char c = true -> chr_eq_nocase "<" c = false.
Proof. each_char c. Qed.
Lemma name_char_not_at c : name_char c = true -> chr_eq_nocase "@" c = false.
Proof. each_char c. Qed.
Lemma address_char_non_ws c :
  address_char c = true -> negb (PyStr.is_space c) = true.
Proof. each_char c. Qed.
Lemma address_char_dot c :
  address_char c = true -> negb (Ascii.eqb c "010") = true.
Proof. each_char c. Qed.
Lemma address_char_not_gt c :
  address_char c = true -> negb (Ascii.eqb c ">") = true.
Proof. each_char c. Qed.
Lemma address_char_not_lt c :
  address_char c = true -> chr_eq_nocase "<" c = false.
Proof. each_char c. Qed.
Lemma address_char_not_angle c :
  address_char c = true -> PyStr.mem_char c "<>" = false.
Proof. each_char c. Qed.
Lemma domain_char_address c : domain_char c = true -> address_char c = true.
Proof. each_char c. Qed.
Lemma domain_char_not_at c :
  domain_char c = true -> chr_eq_nocase "@" c = false.
Proof. each_char c. Qed.

Lemma forallb_impl (p q : ascii -> bool) (l : list ascii) :
  (forall c, p c = true -> q c = true) ->
  forallb p l = true -> forallb q l = true.
Proof.
  intros Hpq. induction l as [|x l IH]; [done|]. simpl.
  intros [Hx Hl]%andb_prop. by rewrite (Hpq x Hx), IH.
Qed.

Lemma snoc_suffix (t1 t2 nb : list ascii) (z : ascii) :
  t1 ++ t2 = nb ++ [z] -> t2 <> [] ->
  exists t2', t2 = t2' ++ [z] /\ nb = t1 ++ t2'.
Proof.
  intros Heq Hne. destruct (exists_last Hne) as (t2' & y & ->).
  rewrite app_assoc in Heq. apply app_inj_tail in Heq as [<- <-]. eauto.
Qed.

(** *** Texts on which the part after the name cannot match *)

(** After a part of the name that is followed by more of the name, the
    bracket of the precise pattern is not next. *)
Lemma name_rest_blocked_lt (t : list ascii) (x : ascii) (tail : list ascii) :
  forallb name_char (t ++ [x]) = true -> PyStr.is_space x = false ->
  blocked PyStr.is_space "<" (t ++ x :: tail) = true.
Proof.
  intros Hchars Hx. induction t as [|y t IH]; simpl in *.
  - apply andb_prop in Hchars as [Hc _].
    by rewrite (name_char_not_lt x Hc), Hx.
  - apply andb_prop in Hchars as [Hy Hchars].
    rewrite (name_char_not_lt y Hy), (IH Hchars). by destruct (PyStr.is_space y).
Qed.

(** A word without [@], followed by a blank, is no email token. *)
Lemma word_blocked_at (w tail : list ascii) :
  forallb name_char w = true ->
  blocked (fun c => negb (PyStr.is_space c)) "@" (w ++ " "%char :: tail) = true.
Proof.
  intros Hchars. induction w as [|y w IH]; [done|]. simpl in *.
  apply andb_prop in Hchars as [Hy Hchars].
  rewrite (name_char_not_at y Hy), (IH Hchars).
  by destruct (PyStr.is_space y).
Qed.

Lemma ws_email_blocked_at s :
  ws_email_blocked s = true ->
  blocked (fun c => negb (PyStr.is_space c)) "@" s = true.
Proof.
  destruct s as [|x s]; [done|]. cbn [ws_email_blocked].
  destruct (PyStr.is_space x) eqn:Hx; [|done].
  intros _. simpl. by rewrite (space_not_at x Hx), Hx.
Qed.

Lemma name_rest_ws_email_blocked (t : list ascii) (x : ascii) (tail : list ascii) :
  forallb name_char (t ++ [x]) = true -> PyStr.is_space x = false ->
  ws_email_blocked (t ++ x :: " "%char :: tail) = true.
Proof.
  intros Hchars Hx. induction t as [|y t IH].
  - cbn [app ws_email_blocked]. rewrite Hx.
    by apply (word_blocked_at [x]).
  - cbn [app ws_email_blocked]. simpl in Hchars.
    destruct (PyStr.is_space y).
    + apply IH. by apply andb_prop in Hchars as [_ ?].
    + change (y :: t ++ x :: " "%char :: tail)
        with ((y :: t) ++ [x] ++ " "%char :: tail).
      rewrite app_assoc. by apply word_blocked_at.
Qed.

Lemma email_token_blocked r k pos s caps :
  blocked (fun c => negb (PyStr.is_space c)) "@" s = true ->
  rmatch (Cat email_token r) pos s caps k = None.
Proof.
  intros Hs. rewrite rmatch_Cat. unfold email_token. rewrite rmatch_Grp.
  by apply plus_chr_blocked.
Qed.

Lemma star_ws_email_blocked r k greedy :
  forall fuel pos s caps,
    ws_email_blocked s = true ->
    star_loop (rmatch ws) greedy
      (fun pos' s' caps' => rmatch (Cat email_token r) pos' s' caps' k)
      fuel pos s caps = None.
Proof.
  induction fuel as [|fuel IH]; intros pos s caps Hs; cbn [star_loop].
  - apply email_token_blocked. by apply ws_email_blocked_at.
  - rewrite (email_token_blocked r k pos s caps (ws_email_blocked_at s Hs)).
    assert (rmatch ws pos s caps
      (fun pos' s' caps' =>
         if pos <? pos'
         then star_loop (rmatch ws) greedy
                (fun pos'0 s'0 caps'0 =>
                   rmatch (Cat email_token r) pos'0 s'0 caps'0 k)
                fuel pos' s' caps'
         else None) = None) as Hloop.
    { unfold ws at 1. cbn [rmatch]. destruct s as [|x s]; [done|].
      cbn [ws_email_blocked] in Hs.
      destruct (PyStr.is_space x); [|done].
      destruct (pos <? S pos); [by apply IH|done]. }
    rewrite Hloop. by destruct greedy.
Qed.

Lemma plus_ws_email_blocked r k pos s caps :
  ws_email_blocked s = true ->
  rmatch (Cat (Plus true ws) (Cat email_token r)) pos s caps k = None.
Proof.
  intros Hs. rewrite rmatch_Cat, rmatch_Plus. destruct s as [|x s]; [done|].
  cbn [ws_email_blocked] in Hs. unfold ws at 1.
  destruct (PyStr.is_space x) eqn:Hx; [|by simpl; rewrite Hx].
  rewrite (rmatch_CSet _ _ _ _ _ _ Hx), rmatch_Star.
  by apply star_ws_email_blocked.
Qed.

(** *** The email token *)

Lemma email_token_matches (l d : list ascii) pos caps k c :
  l <> [] -> d <> [] ->
  forallb address_char l = true -> forallb domain_char d = true ->
  k (pos + length (l ++ "@"%char :: d)) []
    ((2, string_of_list_ascii (l ++ "@"%char :: d)) :: caps) = Some c ->
  rmatch email_token pos (l ++ "@"%char :: d) caps k = Some c.
Proof.
  intros Hl Hd Hlc Hdc Hk. unfold email_token.
  rewrite rmatch_Grp, rmatch_Cat.
  assert (forallb (fun c => negb (PyStr.is_space c)) d = true) as Hd_nws.
  { eapply forallb_impl; [|exact Hdc].
    intros x Hx. by apply address_char_non_ws, domain_char_address. }
  match goal with |- rmatch _ _ _ _ ?k1 = _ => set (k' := k1) end.
  pose proof (plus_greedy_at (fun c => negb (PyStr.is_space c))
                l ("@"%char :: d) [] pos caps k' c) as Hplus.
  rewrite !app_nil_r in Hplus. apply Hplus; clear Hplus; subst k'; cbv beta; try done.
  - rewrite forallb_app. apply andb_true_intro. split.
    + eapply forallb_impl; [|exact Hlc]. apply address_char_non_ws.
    + simpl. exact Hd_nws.
  - rewrite rmatch_Cat, (rmatch_Chr "@" _ "@" _ _ _ eq_refl).
    match goal with |- rmatch _ _ _ _ ?k1 = _ => set (k' := k1) end.
    pose proof (plus_greedy_longest (fun c => negb (PyStr.is_space c))
                  d [] (S (pos + length l)) caps k' c) as Hplus.
    rewrite !app_nil_r in Hplus. apply Hplus; clear Hplus; subst k'; cbv beta; try done.
    rewrite <- Hk. rewrite take_ge; [|rewrite !length_app; simpl; lia].
    f_equal. rewrite length_app. simpl. lia.
  - intros t1 t2 Hb Ht1. rewrite app_nil_r, rmatch_Cat.
    destruct t1 as [|y t1]; [done|]. injection Hb as <- ->.
    destruct t2 as [|x t2]; [done|].
    rewrite forallb_app in Hdc. apply andb_prop in Hdc as [_ Hx].
    simpl in Hx. apply andb_prop in Hx as [Hx _].
    cbn [rmatch]. by rewrite (domain_char_not_at x Hx).
Qed.

(** *** The name group *)

Lemma name_group_matches (r : re) (nb : list ascii) (z : ascii)
    (tail : list ascii) pos caps c :
  PyStr.is_space z = false ->
  forallb name_char (nb ++ [z]) = true ->
  forallb (fun c => negb (Ascii.eqb c "010")) tail = true ->
  (forall t x pos' caps',
     forallb name_char (t ++ [x]) = true -> PyStr.is_space x = false ->
     rmatch r pos' (t ++ x :: tail) caps' K0 = None) ->
  rmatch r (pos + length (nb ++ [z])) tail
    ((1, string_of_list_ascii (nb ++ [z])) :: caps) K0 = Some c ->
  rmatch (Cat (Grp 1 (Plus false dot)) r) pos ((nb ++ [z]) ++ tail) caps K0
  = Some c.
Proof.
  intros Hz Hchars Htail Hearlier Hk. rewrite rmatch_Cat.
  apply grp_plus_lazy; try done.
  - by destruct nb.
  - rewrite forallb_app. apply andb_true_intro. split; [|done].
    eapply forallb_impl; [|exact Hchars]. apply name_char_dot.
  - intros t1 t2 caps' Heq _ Ht2.
    destruct (snoc_suffix t1 t2 nb z (eq_sym Heq) Ht2) as (t2' & -> & ->).
    rewrite <- app_assoc. apply Hearlier; [|done].
    rewrite <- app_assoc, forallb_app in Hchars.
    by apply andb_prop in Hchars as [_ ?].
Qed.

Lemma stops_email (p : ascii -> bool) (l d : list ascii) :
  l <> [] -> forallb address_char l = true ->
  (forall c, address_char c = true -> p c = false) ->
  stops p (l ++ "@"%char :: d).
Proof.
  intros Hl Hlc Hp. destruct l as [|x l]; [done|]. simpl in *.
  apply andb_prop in Hlc as [Hx _]. by apply Hp.
Qed.

Lemma address_char_not_space c :
  address_char c = true -> PyStr.is_space c = false.
Proof. each_char c. Qed.

Section Forms.
Variables (nb : list ascii) (z : ascii) (l d : list ascii).
Hypothesis z_not_space : PyStr.is_space z = false.
Hypothesis name_chars : forallb name_char (nb ++ [z]) = true.
Hypothesis l_not_empty : l <> [].
Hypothesis d_not_empty : d <> [].
Hypothesis l_chars : forallb address_char l = true.
Hypothesis d_chars : forallb domain_char d = true.

Let n : list ascii := nb ++ [z].
Let e : list ascii := l ++ "@"%char :: d.

Lemma e_chars : forallb address_char e = true.
Proof.
  unfold e. rewrite forallb_app. apply andb_true_intro. split; [done|].
  simpl. eapply forallb_impl; [|exact d_chars]. apply domain_char_address.
Qed.

Lemma precise_on_name pos caps :
  rmatch (Cat (Grp 1 (Plus false dot)) after_name_precise) pos
    (n ++ " "%char :: "<"%char :: e ++ [">"%char]) caps K0
  = Some ((2, string_of_list_ascii e) :: (1, string_of_list_ascii n) :: caps).
Proof.
  apply name_group_matches; try done.
  - simpl. rewrite forallb_app. apply andb_true_intro. split; [|done].
    eapply forallb_impl; [|exact e_chars]. apply address_char_dot.
  - intros t x pos' caps' Ht Hx. apply star_chr_blocked.
    by apply name_rest_blocked_lt.
  - unfold after_name_precise. rewrite rmatch_Cat.
    apply (star_greedy_longest PyStr.is_space [" "%char]); [done|done|].
    rewrite rmatch_Cat, (rmatch_Chr "<" _ "<" _ _ _ eq_refl), rmatch_Cat.
    apply grp_plus_greedy_longest.
    + unfold e. by destruct l.
    + eapply forallb_impl; [|exact e_chars]. apply address_char_not_gt.
    + done.
    + by rewrite rmatch_Cat, (rmatch_Chr ">" _ ">" _ _ _ eq_refl).
Qed.

Lemma loose_on_name pos caps :
  rmatch (Cat (Grp 1 (Plus false dot)) after_name_loose) pos
    (n ++ " "%char :: e) caps K0
  = Some ((2, string_of_list_ascii e) :: (1, string_of_list_ascii n) :: caps).
Proof.
  apply name_group_matches; try done.
  - simpl. eapply forallb_impl; [|exact e_chars]. apply address_char_dot.
  - intros t x pos' caps' Ht Hx. apply plus_ws_email_blocked.
    by apply name_rest_ws_email_blocked.
  - unfold after_name_loose. rewrite rmatch_Cat.
    apply (plus_greedy_longest PyStr.is_space [" "%char]); [done|done| |].
    + apply stops_email; [done|done|apply address_char_not_space].
    + rewrite rmatch_Cat. by apply email_token_matches.
Qed.
End Forms.

(** *** Strings *)

Lemma list_ascii_of_string_app (a b : string) :
  list_ascii_of_string (a +:+ b)
  = list_ascii_of_string a ++ list_ascii_of_string b.
Proof. induction a as [|c a IH]; simpl; [done|by rewrite IH]. Qed.

Lemma all_chars_forallb (p : ascii -> bool) (s : string) :
  PyStr.all_chars p s = forallb p (list_ascii_of_string s).
Proof. induction s as [|c s IH]; simpl; [done|by rewrite IH]. Qed.

Lemma last_char_snoc (s : string) (z : ascii) :
  last_char s = Some z ->
  exists nb, list_ascii_of_string s = nb ++ [z].
Proof.
  induction s as [|c s IH]; [done|]. cbn [last_char].
  destruct s as [|c' s].
  - intros [= ->]. by exists [].
  - intros Hz. destruct (IH Hz) as [nb Hnb]. exists (c :: nb).
    cbn [list_ascii_of_string] in *. by rewrite Hnb.
Qed.

Lemma last_char_app (a b : string) :
  PyStr.truthy b = true -> last_char (a +:+ b) = last_char b.
Proof.
  intros Hb. induction a as [|c a IH]; [done|].
  rewrite <- IH. change (String c a +:+ b) with (String c (a +:+ b)).
  destruct (a +:+ b) as [|c' r] eqn:Hab; [|done].
  destruct a as [|c2 a2].
  - change (b = EmptyString) in Hab. by subst b.
  - change (String c2 (a2 +:+ b) = EmptyString) in Hab. discriminate.
Qed.

Lemma truthy_app_r (a b : string) :
  PyStr.truthy b = true -> PyStr.truthy (a +:+ b) = true.
Proof. intros Hb. destruct a; [done|reflexivity]. Qed.

Lemma all_chars_last (p : ascii -> bool) (s : string) (z : ascii) :
  PyStr.all_chars p s = true -> last_char s = Some z -> p z = true.
Proof.
  induction s as [|c s IH]; [done|]. cbn [PyStr.all_chars last_char].
  intros [Hc Hs]%andb_prop. destruct s; [by intros [= <-]|by apply IH].
Qed.

Lemma truthy_last_char (s : string) :
  PyStr.truthy s = true -> exists z, last_char s = Some z.
Proof.
  induction s as [|c s IH]; [done|]. intros _. cbn [last_char].
  destruct s; [by eauto|]. by apply IH.
Qed.

Lemma rstrip_by_last (p : ascii -> bool) (s : string) (z : ascii) :
  last_char s = Some z -> p z = false -> PyStr.rstrip_by p s = s.
Proof.
  intros Hlast Hz. induction s as [|c s IH]; [done|].
  cbn [last_char] in Hlast. cbn [PyStr.rstrip_by]. destruct s as [|c' s].
  - injection Hlast as ->. simpl. by rewrite Hz.
  - by rewrite (IH Hlast).
Qed.

Lemma strip_by_ends (p : ascii -> bool) (c : ascii) (s : string) (z : ascii) :
  p c = false -> last_char (String c s) = Some z -> p z = false ->
  PyStr.strip_by p (String c s) = String c s.
Proof.
  intros Hc Hlast Hz. unfold PyStr.strip_by. cbn [PyStr.lstrip_by].
  rewrite Hc. by apply (rstrip_by_last p _ z).
Qed.

Lemma lit_skip_self (w : string) (s : list ascii) :
  lit_skip w (list_ascii_of_string w ++ s) = Some s.
Proof.
  induction w as [|c w IH]; [done|]. cbn [list_ascii_of_string app lit_skip].
  unfold chr_eq_nocase. by rewrite Ascii.eqb_refl.
Qed.

(** *** The three notations *)

Section TrailerForms.
Variables N L D : string.
Hypothesis N_ok : name_ok N = true.
Hypothesis L_ok : local_part_ok L = true.
Hypothesis D_ok : domain_ok D = true.

Let E : string := L +:+ "@" +:+ D.

Lemma N_parts :
  exists c N' nb z,
    N = String c N' /\ PyStr.is_space c = false /\ Ascii.eqb c ":" = false
    /\ last_char N = Some z /\ PyStr.is_space z = false
    /\ list_ascii_of_string N = nb ++ [z]
    /\ forallb name_char (nb ++ [z]) = true.
Proof.
  unfold name_ok in N_ok.
  apply andb_prop in N_ok as [[Hfirst Hlast]%andb_prop Hchars].
  destruct N as [|c N'] eqn:HN; [done|].
  apply andb_prop in Hfirst as [Hc Hcolon].
  destruct (last_char (String c N')) as [z|] eqn:Hz; [|done].
  destruct (last_char_snoc _ z Hz) as [nb Hnb].
  exists c, N', nb, z. repeat split; try done.
  - by destruct (PyStr.is_space c).
  - by destruct (Ascii.eqb c ":").
  - by destruct (PyStr.is_space z).
  - by rewrite <- Hnb, <- all_chars_forallb.
Qed.

Lemma L_parts :
  list_ascii_of_string L <> []
  /\ forallb address_char (list_ascii_of_string L) = true.
Proof.
  unfold local_part_ok in L_ok. apply andb_prop in L_ok as [Hne Hchars].
  split; [by destruct L|by rewrite <- all_chars_forallb].
Qed.

Lemma D_parts :
  list_ascii_of_string D <> []
  /\ forallb domain_char (list_ascii_of_string D) = true
  /\ exists z, last_char D = Some z /\ address_char z = true.
Proof.
  unfold domain_ok in D_ok. apply andb_prop in D_ok as [Hne Hchars].
  split; [by destruct D|]. split; [by rewrite <- all_chars_forallb|].
  destruct (truthy_last_char D Hne) as [z Hz]. exists z. split; [done|].
  apply domain_char_address. by apply (all_chars_last domain_char D).
Qed.

Lemma E_list :
  list_ascii_of_string E
  = list_ascii_of_string L ++ "@"%char :: list_ascii_of_string D.
Proof. unfold E. by rewrite !list_ascii_of_string_app. Qed.

Lemma E_chars : PyStr.all_chars address_char E = true.
Proof.
  rewrite all_chars_forallb, E_list.
  destruct L_parts as [_ Hl]. destruct D_parts as (_ & Hd & _).
  rewrite forallb_app, Hl. simpl.
  eapply forallb_impl; [|exact Hd]. apply domain_char_address.
Qed.

Lemma E_ends :
  exists c E' z,
    E = String c E' /\ address_char c = true
    /\ last_char E = Some z /\ address_char z = true.
Proof.
  destruct D_parts as (HD & _ & z & Hz & Hzc).
  pose proof E_chars as Hchars.
  assert (last_char E = Some z) as Hlast.
  { unfold E. rewrite last_char_app; [|by destruct L].
    rewrite last_char_app; [done|by destruct D]. }
  destruct E as [|c E'] eqn:HE; [done|].
  exists c, E', z. repeat split; try done.
  simpl in Hchars. by apply andb_prop in Hchars as [? _].
Qed.

Lemma strip_N : PyStr.strip N = N.
Proof.
  destruct N_parts as (c & N' & nb & z & HN & Hc & _ & Hz & Hzs & _).
  rewrite HN in *. by apply (strip_by_ends _ _ _ z).
Qed.

Lemma strip_E : PyStr.strip E = E.
Proof.
  destruct E_ends as (c & E' & z & HE & Hc & Hz & Hzc).
  rewrite HE in *.
  apply (strip_by_ends _ _ _ z); [|done|]; by apply address_char_not_space.
Qed.

Lemma strip_angle_E : PyStr.strip_chars "<>" E = E.
Proof.
  destruct E_ends as (c & E' & z & HE & Hc & Hz & Hzc).
  rewrite HE in *. unfold PyStr.strip_chars.
  apply (strip_by_ends _ _ _ z); [|done|]; by apply address_char_not_angle.
Qed.

Lemma truthy_N : PyStr.truthy N = true.
Proof. destruct N_parts as (c & N' & _ & _ & -> & _). done. Qed.

Lemma truthy_E : PyStr.truthy E = true.
Proof. destruct E_ends as (c & E' & _ & -> & _). done. Qed.

Lemma lacks_lt_N : lacks "<" (list_ascii_of_string N).
Proof.
  destruct N_parts as (_ & _ & nb & z & _ & _ & _ & _ & _ & -> & Hchars).
  unfold lacks. eapply forallb_impl; [|exact Hchars].
  intros c Hc. by rewrite (name_char_not_lt c Hc).
Qed.

Lemma lacks_lt_E : lacks "<" (list_ascii_of_string E).
Proof.
  pose proof E_chars as Hchars. rewrite all_chars_forallb in Hchars.
  unfold lacks. eapply forallb_impl; [|exact Hchars].
  intros c Hc. by rewrite (address_char_not_lt c Hc).
Qed.

(** The precise pattern needs a bracket. *)
Lemma precise_needs_lt (s : list ascii) :
  lacks "<" s -> rmatch precise_pattern 0 s [] K0 = None.
Proof.
  intros Hs.
  assert (fails_on (lacks "<")
            (fun pos s caps => rmatch precise_pattern pos s caps K0)) as H.
  { unfold precise_pattern. cbn [Lit].
    repeat first [ apply Chr_fails_on
                 | apply Cat_fails_on; [apply lacks_tail|] ]. }
  by apply H.
Qed.

Lemma precise_form :
  pmatch precise_pattern ("Co-authored-by: " +:+ N +:+ " <" +:+ E +:+ ">")
  = Some [(2, E); (1, N)].
Proof.
  destruct N_parts as (c & N' & nb & z & HN & Hc & _ & _ & Hz & Hnb & Hchars).
  destruct L_parts as [Hl Hlc]. destruct D_parts as (Hd & Hdc & _).
  unfold pmatch, precise_pattern.
  rewrite !list_ascii_of_string_app, E_list, Hnb.
  rewrite rmatch_Cat. cbn [rmatch Nat.eqb]. rewrite rmatch_Lit.
  change (list_ascii_of_string "Co-authored-by: ")
    with (list_ascii_of_string "Co-authored-by:" ++ [" "%char]).
  rewrite <- (app_assoc (list_ascii_of_string "Co-authored-by:")).
  rewrite lit_skip_self, rmatch_Cat.
  apply (star_greedy_longest PyStr.is_space [" "%char]); [done| |].
  { rewrite <- Hnb, HN. exact Hc. }
  etransitivity; [by apply precise_on_name|].
  by rewrite <- Hnb, <- E_list, !string_of_list_ascii_of_string.
Qed.

Lemma no_brackets_form :
  pmatch no_brackets_pattern ("Co-authored-by: " +:+ N +:+ " " +:+ E)
  = Some [(2, E); (1, N)].
Proof.
  destruct N_parts as (c & N' & nb & z & HN & Hc & _ & _ & Hz & Hnb & Hchars).
  destruct L_parts as [Hl Hlc]. destruct D_parts as (Hd & Hdc & _).
  unfold pmatch, no_brackets_pattern.
  rewrite !list_ascii_of_string_app, E_list, Hnb.
  rewrite rmatch_Cat. cbn [rmatch Nat.eqb]. rewrite rmatch_Lit.
  change (list_ascii_of_string "Co-authored-by: ")
    with (list_ascii_of_string "Co-authored-by:" ++ [" "%char]).
  rewrite <- (app_assoc (list_ascii_of_string "Co-authored-by:")).
  rewrite lit_skip_self, rmatch_Cat.
  apply (star_greedy_longest PyStr.is_space [" "%char]); [done| |].
  { rewrite <- Hnb, HN. exact Hc. }
  etransitivity; [by apply loose_on_name|].
  by rewrite <- Hnb, <- E_list, !string_of_list_ascii_of_string.
Qed.

Lemma loose_form :
  pmatch loose_pattern ("co-authored " +:+ N +:+ " " +:+ E)
  = Some [(2, E); (1, N)].
Proof.
  destruct N_parts
    as (c & N' & nb & z & HN & Hc & Hcolon & _ & Hz & Hnb & Hchars).
  destruct L_parts as [Hl Hlc]. destruct D_parts as (Hd & Hdc & _).
  unfold pmatch, loose_pattern.
  rewrite !list_ascii_of_string_app, E_list, Hnb.
  rewrite rmatch_Cat. cbn [rmatch Nat.eqb]. rewrite rmatch_Lit.
  change (list_ascii_of_string "co-authored ")
    with (list_ascii_of_string "co-authored" ++ [" "%char]).
  rewrite <- (app_assoc (list_ascii_of_string "co-authored")).
  rewrite lit_skip_self, rmatch_Cat.
  cbn [rmatch]. rewrite rmatch_Lit. cbn [lit_skip app].
  change (chr_eq_nocase "-" " ") with false. cbv iota.
  apply (plus_greedy_longest
           (fun c => Ascii.eqb c ":" || PyStr.is_space c) [" "%char]);
    [done|done| |].
  { rewrite <- Hnb, HN. simpl. by rewrite Hc, Hcolon. }
  etransitivity; [by apply loose_on_name|].
  by rewrite <- Hnb, <- E_list, !string_of_list_ascii_of_string.
Qed.

Lemma no_brackets_needs_by (s : list ascii) :
  rmatch no_brackets_pattern 0 (list_ascii_of_string "co-authored " ++ s) [] K0
  = None.
Proof.
  unfold no_brackets_pattern. rewrite rmatch_Cat. cbn [rmatch Nat.eqb].
  by rewrite rmatch_Lit.
Qed.

(** The reading of each notation by the cascade of patterns. *)
Lemma match_trailer_forms (line : string) :
  In line (trailer_forms_of N E) ->
  match_trailer (PyStr.strip line) = (Some N, Some E).
Proof.
  assert ((Some (PyStr.strip (group 1 [(2, E); (1, N)])),
           Some (PyStr.strip (group 2 [(2, E); (1, N)])))
          = (Some N, Some E)) as Hgroups.
  { cbn [group Nat.eqb]. by rewrite strip_N, strip_E. }
  destruct E_ends as (ce & E' & ze & HE & Hce & Hze & Hzec).
  pose proof truthy_E as HEt.
  assert (forall s : list ascii,
            lacks "<" s ->
            lacks "<" (s ++ list_ascii_of_string N ++ " "%char
                         :: list_ascii_of_string E)) as Hlacks.
  { intros s Hs. unfold lacks in *. rewrite !forallb_app. simpl.
    pose proof lacks_lt_N as HlN. pose proof lacks_lt_E as HlE.
    unfold lacks in HlN, HlE. by rewrite Hs, HlN, HlE. }
  intros [<- | [<- | [<- | []]]].
  - assert (PyStr.strip ("Co-authored-by: " +:+ N +:+ " <" +:+ E +:+ ">")
            = "Co-authored-by: " +:+ N +:+ " <" +:+ E +:+ ">") as ->.
    { unfold PyStr.strip, PyStr.strip_by.
      change (PyStr.lstrip_by PyStr.is_space
                ("Co-authored-by: " +:+ N +:+ " <" +:+ E +:+ ">"))
        with ("Co-authored-by: " +:+ N +:+ " <" +:+ E +:+ ">").
      apply (rstrip_by_last _ _ ">"%char); [|done].
      by repeat (rewrite last_char_app by (repeat first [done | apply truthy_app_r])). }
    unfold match_trailer. rewrite precise_form. exact Hgroups.
  - assert (PyStr.strip ("Co-authored-by: " +:+ N +:+ " " +:+ E)
            = "Co-authored-by: " +:+ N +:+ " " +:+ E) as ->.
    { unfold PyStr.strip, PyStr.strip_by.
      change (PyStr.lstrip_by PyStr.is_space
                ("Co-authored-by: " +:+ N +:+ " " +:+ E))
        with ("Co-authored-by: " +:+ N +:+ " " +:+ E).
      apply (rstrip_by_last _ _ ze); [|by apply address_char_not_space].
      by repeat (rewrite last_char_app by (repeat first [done | apply truthy_app_r])). }
    unfold match_trailer.
    assert (pmatch precise_pattern ("Co-authored-by: " +:+ N +:+ " " +:+ E)
            = None) as ->.
    { unfold pmatch. apply precise_needs_lt.
      rewrite !list_ascii_of_string_app. by apply Hlacks. }
    rewrite no_brackets_form. exact Hgroups.
  - assert (PyStr.strip ("co-authored " +:+ N +:+ " " +:+ E)
            = "co-authored " +:+ N +:+ " " +:+ E) as ->.
    { unfold PyStr.strip, PyStr.strip_by.
      change (PyStr.lstrip_by PyStr.is_space
                ("co-authored " +:+ N +:+ " " +:+ E))
        with ("co-authored " +:+ N +:+ " " +:+ E).
      apply (rstrip_by_last _ _ ze); [|by apply address_char_not_space].
      by repeat (rewrite last_char_app by (repeat first [done | apply truthy_app_r])). }
    unfold match_trailer.
    assert (pmatch precise_pattern ("co-authored " +:+ N +:+ " " +:+ E)
            = None) as ->.
    { unfold pmatch. apply precise_needs_lt.
      rewrite !list_ascii_of_string_app. by apply Hlacks. }
    assert (pmatch no_brackets_pattern ("co-authored " +:+ N +:+ " " +:+ E)
            = None) as ->.
    { unfold pmatch. rewrite list_ascii_of_string_app.
      apply no_brackets_needs_by. }
    rewrite loose_form. exact Hgroups.
Qed.
End TrailerForms.

End MatcherFacts.

(** ** Co-author trailers *)

Example name_and_email_ok :
  name_ok "Ann Lee" = true /\ local_part_ok "ann.lee" = true
  /\ domain_ok "x.com" = true /\ name_ok ":Ann" = false
  /\ name_ok "Ann " = false /\ domain_ok "x@y" = false.
Proof. repeat split; reflexivity. Qed.

Section CoAuthorFacts.
Variable reg : registry.
Variable self : Commit.

(** The three notations for A and a@x.com are the instance of the general
    ones. *)
Lemma trailer_forms_instance :
  trailer_forms_of "A" ("a" +:+ "@" +:+ "x.com") = trailer_forms.
Proof. reflexivity. Qed.

Lemma co_author_of_trailer (N L D line : string) :
  name_ok N = true -> local_part_ok L = true -> domain_ok D = true ->
  In line (trailer_forms_of N (L +:+ "@" +:+ D)) ->
  co_author_of_line reg self line =
    (a ← Author_get reg N (L +:+ "@" +:+ D) "co-author in commit"
           (PyStr.take 8 (hash self));
     Ok (Some a)).
Proof.
  intros HN HL HD Hin. unfold co_author_of_line.
  rewrite (match_trailer_forms N L D HN HL HD line Hin).
  by rewrite (truthy_N N HN), (truthy_E L D HL HD), (strip_angle_E L D HL HD).
Qed.

(** The loop accumulates: running it from [acc] is running it from the
    empty list and appending. *)
Lemma co_authors_loop_acc lines acc :
  co_authors_loop reg self lines acc =
    (l ← co_authors_loop reg self lines []; Ok (acc ++ l)).
Proof.
  revert acc. induction lines as [|line lines IH]; intros acc; simpl.
  - by rewrite app_nil_r.
  - destruct (co_author_of_line reg self line) as [[a|]|e]; simpl.
    + rewrite (IH (acc ++ [a])), (IH [a]).
      destruct (co_authors_loop reg self lines []); simpl; [|done].
      by rewrite <- app_assoc.
    + apply IH.
    + done.
Qed.

Lemma co_authors_loop_app pre post acc :
  co_authors_loop reg self (pre ++ post) acc =
    (mid ← co_authors_loop reg self pre acc;
     co_authors_loop reg self post mid).
Proof.
  revert acc. induction pre as [|line pre IH]; intros acc; simpl; [done|].
  destruct (co_author_of_line reg self line) as [r|e]; simpl; [apply IH|done].
Qed.
End CoAuthorFacts.

(** A line that reads as a trailer for a pair that the registry does not
    have makes the loop body raise the identity error, with the commit's
    hash prefix as context. *)
Lemma co_author_of_unregistered reg self line n e :
  match_trailer (PyStr.strip line) = (Some n, Some e) ->
  PyStr.truthy n = true -> PyStr.truthy e = true ->
  reg !! (n, PyStr.strip_chars "<>" e) = None ->
  co_author_of_line reg self line =
    Raise (UnknownAuthorError n (PyStr.strip_chars "<>" e) "co-author in commit"
             (PyStr.take 8 (hash self))).
Proof.
  intros Hparse Hn He Hreg. unfold co_author_of_line, Author_get.
  by rewrite Hparse, Hn, He, Hreg.
Qed.

(** C8. In a commit message whose earlier lines resolve to [before], take
    any name [N] made of words without "<" and "@" (not starting with a
    colon) and any email [L@D] without white space and angle brackets, such
    as the name "A" and the email "a@x.com". Each of the lines
    "Co-authored-by: N <L@D>", "Co-authored-by: N L@D" and
    "co-authored N L@D" is read as the name [N] with the email [L@D]: if the
    registry has an entry for that pair, co-author extraction gives that
    same entry at this place of its result, whichever of the three notations
    was used, and if it has none, extraction raises [UnknownAuthorError]
    for [N] and [L@D]. In general, a line that the patterns read as a
    trailer for a name and an email that the registry does not have makes
    extraction raise [UnknownAuthorError] with that name and email, the
    context "co-author in commit" and the first eight characters of the
    commit's hash. *)
Theorem co_author_trailer_forms_resolve :
  forall (reg : registry) (self : Commit)
         (pre post : list string) (before : list Author)
         (line N L D : string),
    name_ok N = true -> local_part_ok L = true -> domain_ok D = true ->
    message_lines self = pre ++ line :: post ->
    co_authors_loop reg self pre [] = Ok before ->
    (In line (trailer_forms_of N (L +:+ "@" +:+ D)) ->
     match reg !! (N, L +:+ "@" +:+ D) with
     | Some c =>
         get_co_authors reg self =
           (rest ← co_authors_loop reg self post []; Ok (before ++ c :: rest))
     | None =>
         get_co_authors reg self =
           Raise (UnknownAuthorError N (L +:+ "@" +:+ D) "co-author in commit"
                    (PyStr.take 8 (hash self)))
     end)
    /\ (forall n e,
          match_trailer (PyStr.strip line) = (Some n, Some e) ->
          PyStr.truthy n = true -> PyStr.truthy e = true ->
          reg !! (n, PyStr.strip_chars "<>" e) = None ->
          get_co_authors reg self =
            Raise (UnknownAuthorError n (PyStr.strip_chars "<>" e)
                     "co-author in commit" (PyStr.take 8 (hash self)))).
Proof.
  intros reg self pre post before line N L D HN HL HD Hmsg Hpre.
  unfold get_co_authors. rewrite Hmsg, co_authors_loop_app, Hpre. simpl.
  split.
  - intros Hin.
    rewrite (co_author_of_trailer reg self N L D line HN HL HD Hin).
    unfold Author_get.
    destruct (reg !! (N, L +:+ "@" +:+ D)) as [c|]; simpl; [|done].
    rewrite co_authors_loop_acc.
    destruct (co_authors_loop reg self post []); simpl; [|done].
    by rewrite <- app_assoc.
  - intros n e Hparse Hn He Hreg.
    by rewrite (co_author_of_unregistered reg self line n e).
Qed.

Lemma co_author_trailer_forms_resolve_witness :
  get_co_authors {[ ("A", "a@x.com") := mkAuthor "A" "a@x.com" "ay" "1" [] [] true ]}
    commit_with_trailer
  = Ok [mkAuthor "A" "a@x.com" "ay" "1" [] [] true]
  /\ get_co_authors ∅ commit_with_trailer
     = Raise (UnknownAuthorError "A" "a@x.com" "co-author in commit" "01234567").
Proof.
  split.
  - destruct (co_author_trailer_forms_resolve
      {[ ("A", "a@x.com") := mkAuthor "A" "a@x.com" "ay" "1" [] [] true ]}
      commit_with_trailer ["Fix parser"; ""] [] [] "co-authored A a@x.com"
      "A" "a" "x.com")
      as [H _]; [reflexivity | reflexivity | reflexivity | reflexivity
                | vm_compute; reflexivity |].
    change ("a" +:+ "@" +:+ "x.com") with "a@x.com" in H.
    rewrite lookup_singleton_eq in H. apply H. simpl. tauto.
  - destruct (co_author_trailer_forms_resolve ∅
      commit_with_trailer ["Fix parser"; ""] [] [] "co-authored A a@x.com"
      "A" "a" "x.com")
      as [_ H]; [reflexivity | reflexivity | reflexivity | reflexivity
                | vm_compute; reflexivity |].
    apply (H "A" "a@x.com"); vm_compute; reflexivity.
Defined.

(** ** Reasoning about code over the globals *)

Lemma M_bind_unfold {A B} (m : M A) (k : A -> M B) (g : globals) :
  (x ← m; k x) g =
    match m g with
    | (Ok a, g') => k a g'
    | (Raise e, g') => (Raise e, g')
    end.
Proof. reflexivity. Qed.

Lemma M_bind_Ok {A B} (m : M A) (k : A -> M B) g a g' :
  m g = (Ok a, g') -> (x ← m; k x) g = k a g'.
Proof. intros H. by rewrite M_bind_unfold, H. Qed.

Lemma M_bind_Raise {A B} (m : M A) (k : A -> M B) g e g' :
  m g = (Raise e, g') -> (x ← m; k x) g = (Raise e, g').
Proof. intros H. by rewrite M_bind_unfold, H. Qed.

(** A relation between the globals before and after a piece of code that
    is closed under sequencing. *)
Section Preserves.
Variable R : globals -> globals -> Prop.
Hypothesis R_refl : forall g, R g g.
Hypothesis R_trans : forall g1 g2 g3, R g1 g2 -> R g2 g3 -> R g1 g3.

Lemma preserves_ret {A} (a : A) : preserves R (mret a).
Proof. intros g. apply R_refl. Qed.

Lemma preserves_raise {A} (e : exn) : preserves R (@raise A e).
Proof. intros g. apply R_refl. Qed.

Lemma preserves_lift {A} (r : result A) : preserves R (lift r).
Proof. intros g. apply R_refl. Qed.

Lemma preserves_bind {A B} (m : M A) (k : A -> M B) :
  preserves R m -> (forall a, preserves R (k a)) -> preserves R (x ← m; k x).
Proof.
  intros Hm Hk g. rewrite M_bind_unfold.
  specialize (Hm g). destruct (m g) as [[a|e] g1]; simpl in *; [|done].
  eapply R_trans; [exact Hm | apply Hk].
Qed.

Lemma preserves_try_except {A} (m : M A) catches (h : exn -> M A) :
  preserves R m -> (forall e, preserves R (h e)) ->
  preserves R (try_except m catches h).
Proof.
  intros Hm Hh g. unfold try_except.
  specialize (Hm g). destruct (m g) as [[a|e] g1]; simpl in *; [done|].
  destruct (catches e); [|done].
  eapply R_trans; [exact Hm | apply Hh].
Qed.

Lemma preserves_for_each {A S} (body : S -> A -> M S) (l : list A) (s : S) :
  (forall s x, preserves R (body s x)) -> preserves R (for_each body l s).
Proof.
  intros Hb. revert s. induction l as [|x l IH]; intros s; simpl.
  - apply preserves_ret.
  - apply preserves_bind; [apply Hb | intros s'; apply IH].
Qed.
End Preserves.

(** ** The process cache *)

Section GitFacts.
Variable run_git : list string -> string + string.

Lemma git_result args k g :
  (git run_git args k g).1 =
    match answer_in run_git g args k with
    | inl out => Ok out
    | inr stderr => Raise (CalledProcessError stderr)
    end.
Proof.
  unfold git, answer_in. destruct (_cache g !! k); [done|].
  by destruct (run_git args).
Qed.

(** The cache after a query: one more entry on a successful miss. *)
Lemma git_cache args k g :
  _cache (git run_git args k g).2 =
    match _cache g !! k, run_git args with
    | None, inl out => <[k := out]> (_cache g)
    | _, _ => _cache g
    end.
Proof.
  unfold git. destruct (_cache g !! k); [done|].
  by destruct (run_git args).
Qed.

Lemma git_pr_cache args k g :
  _pr_cache (git run_git args k g).2 = _pr_cache g.
Proof.
  unfold git. destruct (_cache g !! k); [done|].
  by destruct (run_git args).
Qed.

(** A query never removes or changes an entry. *)
Lemma git_mono args k g : _cache g ⊆ _cache (git run_git args k g).2.
Proof.
  rewrite git_cache. destruct (_cache g !! k) eqn:Hk; [done|].
  destruct (run_git args); [|done]. by apply insert_subseteq.
Qed.

(** After a successful query the answer is stored under its key. *)
Lemma git_Ok_stored args k g out g' :
  git run_git args k g = (Ok out, g') -> _cache g' !! k = Some out.
Proof.
  unfold git. destruct (_cache g !! k) eqn:Hk.
  - intros [= <- <-]. done.
  - destruct (run_git args); intros [= <- <-]; simpl.
    apply lookup_insert_eq.
Qed.

Lemma git_Raise args k g e g' :
  git run_git args k g = (Raise e, g') ->
  g' = g /\ _cache g !! k = None /\
  exists stderr, run_git args = inr stderr /\ e = CalledProcessError stderr.
Proof.
  unfold git. destruct (_cache g !! k) eqn:Hk; [done|].
  destruct (run_git args) eqn:Hr; intros [= <- <-]; eauto.
Qed.
End GitFacts.

(** ** Blame: translation of a failed query *)

(** C3 (as amended). When the commit resolves and the blame query is not
    cached and its command fails with standard error [stderr], the blame
    operation raises "file not found in repo" for the path and the
    resolved commit exactly when the lower-cased [stderr] contains
    "no such path" or contains "fatal:"; otherwise it re-raises the
    command's failure unchanged. The globals are those left by the
    resolution. *)
Theorem blame_failure_translation :
  forall (run_git : list string -> string + string)
         (repo_path repo_id : string) (reg : registry)
         (file_path commit out stderr : string) (g g1 : globals),
    git run_git ["-C"; repo_path; "rev-parse"; commit]
        ("rev-parse:" +:+ repo_id +:+ ":" +:+ commit) g = (Ok out, g1) ->
    _cache g1 !! ("blame:" +:+ PyStr.strip out +:+ ":" +:+ file_path) = None ->
    run_git ["-C"; repo_path; "blame"; "--porcelain"; "-M"; "-C"; "-C";
             PyStr.strip out; "--"; file_path] = inr stderr ->
    TrackedFile_get run_git repo_path repo_id reg file_path commit g =
      (if PyStr.contains "no such path" (PyStr.lower stderr)
          || PyStr.contains "fatal:" (PyStr.lower stderr)
       then Raise (FileNotFoundInRepoError file_path (PyStr.strip out))
       else Raise (CalledProcessError stderr),
       g1).
Proof.
  intros run_git repo_path repo_id reg file_path commit out stderr g g1
    Hres Hmiss Hfail.
  unfold TrackedFile_get.
  erewrite M_bind_Ok; [|unfold try_except; by rewrite Hres].
  rewrite M_bind_unfold.
  unfold try_except, git at 1. rewrite Hmiss, Hfail. simpl.
  by destruct (_ || _).
Qed.

Lemma blame_failure_translation_witness :
  TrackedFile_get git_unreadable "/repo" "org/repo" demo_registry "a.py" "HEAD"
    empty_globals =
  (if PyStr.contains "no such path" (PyStr.lower "fatal: unable to read tree")
      || PyStr.contains "fatal:" (PyStr.lower "fatal: unable to read tree")
   then Raise (FileNotFoundInRepoError "a.py" (PyStr.strip (hash_H +:+ nl)))
   else Raise (CalledProcessError "fatal: unable to read tree"),
   (git git_unreadable ["-C"; "/repo"; "rev-parse"; "HEAD"]
      "rev-parse:org/repo:HEAD" empty_globals).2).
Proof.
  apply (blame_failure_translation git_unreadable "/repo" "org/repo"
           demo_registry "a.py" "HEAD" (hash_H +:+ nl)
           "fatal: unable to read tree" empty_globals).
  - reflexivity.
  - vm_compute. reflexivity.
  - reflexivity.
Defined.

(** C3, counterexample. The blame command fails with a message that
    does not mention a missing path, and the failure is still translated to
    "file not found in repo" instead of being propagated. *)
Lemma blame_fatal_is_translated :
  PyStr.contains "no such path" (PyStr.lower "fatal: unable to read tree") = false
  /\ (TrackedFile_get git_unreadable "/repo" "org/repo" demo_registry "a.py"
        "HEAD" empty_globals).1
     = Raise (FileNotFoundInRepoError "a.py" hash_H)
  /\ (TrackedFile_get git_unreadable "/repo" "org/repo" demo_registry "a.py"
        "HEAD" empty_globals).1
     <> Raise (CalledProcessError "fatal: unable to read tree").
Proof.
  split; [vm_compute; reflexivity|].
  assert (H : (TrackedFile_get git_unreadable "/repo" "org/repo" demo_registry
                 "a.py" "HEAD" empty_globals).1
              = Raise (FileNotFoundInRepoError "a.py" hash_H))
    by (vm_compute; reflexivity).
  split; [exact H|]. rewrite H. discriminate.
Qed.

(** ** Cache keys of the commit and blame queries *)

Section KeyFacts.
Variable run_git : list string -> string + string.
Variables repo_path repo_id : string.
Variable reg : registry.

Lemma history_key_mono g g' k :
  _cache g ⊆ _cache g' -> history_key repo_id g k -> history_key repo_id g' k.
Proof.
  intros Hsub [Hk | (ref & out & Hout & Hk)]; [by left | right].
  exists ref, out. split; [|done]. by eapply lookup_weaken.
Qed.

Lemma grows_refl g : grows_by_history_keys repo_id g g.
Proof.
  split; [done|]. intros k Hnone [v Hv]. congruence.
Qed.

Lemma grows_trans g1 g2 g3 :
  grows_by_history_keys repo_id g1 g2 ->
  grows_by_history_keys repo_id g2 g3 ->
  grows_by_history_keys repo_id g1 g3.
Proof.
  intros [Hsub12 Hnew12] [Hsub23 Hnew23]. split; [by etrans|].
  intros k Hnone Hsome.
  destruct (_cache g2 !! k) as [v|] eqn:Hk2.
  - eapply history_key_mono; [exact Hsub23|]. apply Hnew12; eauto.
  - by apply Hnew23.
Qed.

(** A query whose key is of the family keeps the relation. *)
Lemma git_grows args k g :
  (forall out, run_git args = inl out ->
     history_key repo_id (git run_git args k g).2 k) ->
  grows_by_history_keys repo_id g (git run_git args k g).2.
Proof.
  intros Hkey. split; [apply git_mono|].
  intros k' Hnone Hsome. revert Hkey Hsome. rewrite git_cache.
  destruct (_cache g !! k) eqn:Hk; [intros _ [v Hv]; congruence|].
  destruct (run_git args) as [out|err] eqn:Hrun;
    [|intros _ [v Hv]; congruence].
  intros Hkey [v Hv]. destruct (decide (k = k')) as [<-|Hne].
  - specialize (Hkey out eq_refl). revert Hkey.
    unfold git. rewrite Hk, Hrun. done.
  - rewrite lookup_insert_ne in Hv by done. congruence.
Qed.

Lemma rev_parse_grows ref g :
  grows_by_history_keys repo_id g
    (git run_git ["-C"; repo_path; "rev-parse"; ref]
       (rev_parse_key repo_id ref) g).2.
Proof. apply git_grows. intros _ _. left. by exists ref. Qed.

Lemma Commit_get_grows ref :
  preserves (grows_by_history_keys repo_id)
    (Commit_get run_git repo_path repo_id reg ref).
Proof.
  intros g. unfold Commit_get. rewrite M_bind_unfold. unfold try_except.
  fold (rev_parse_key repo_id ref).
  pose proof (rev_parse_grows ref g) as Hg1.
  destruct (git run_git _ (rev_parse_key repo_id ref) g)
    as [[out|e] g1] eqn:Hrp; simpl in *.
  2:{ by destruct (is_CalledProcessError e). }
  apply git_Ok_stored in Hrp.
  eapply grows_trans; [exact Hg1|].
  rewrite M_bind_unfold.
  match goal with |- context [git run_git ?args ?k g1] =>
    pose proof (git_grows args k g1) as Hg2;
    pose proof (git_mono run_git args k g1) as Hm2;
    destruct (git run_git args k g1) as [[stdout|e] g2] eqn:Hshow
  end; simpl in *.
  2:{ apply Hg2. intros o Ho. right. exists ref, out. split; [|by left].
      eapply lookup_weaken; [exact Hrp | exact Hm2]. }
  eapply grows_trans.
  { apply Hg2. intros o Ho. right. exists ref, out. split; [|by left].
    eapply lookup_weaken; [exact Hrp | exact Hm2]. }
  apply (preserves_bind _ grows_trans).
  - apply preserves_lift, grows_refl.
  - intros a. apply preserves_ret, grows_refl.
Qed.
End KeyFacts.

Section BlameKeyFacts.
Variable run_git : list string -> string + string.
Variables repo_path repo_id : string.
Variable reg : registry.

Lemma blame_line_grows st line :
  preserves (grows_by_history_keys repo_id)
    (blame_line run_git repo_path repo_id reg st line).
Proof.
  destruct st as [[ls cur] cc]. unfold blame_line.
  destruct (is_blame_header line);
    [apply preserves_ret, grows_refl|].
  destruct (PyStr.startswith _ line); [|apply preserves_ret, grows_refl].
  destruct cur as [h|]; [|apply preserves_ret, grows_refl].
  destruct (cc !! h); [apply preserves_ret, grows_refl|].
  apply (preserves_bind _ (grows_trans repo_id)).
  - apply Commit_get_grows.
  - intros c. apply preserves_ret, grows_refl.
Qed.

Lemma TrackedFile_get_grows file_path commit :
  preserves (grows_by_history_keys repo_id)
    (TrackedFile_get run_git repo_path repo_id reg file_path commit).
Proof.
  intros g. unfold TrackedFile_get. rewrite M_bind_unfold. unfold try_except at 1.
  fold (rev_parse_key repo_id commit).
  pose proof (rev_parse_grows run_git repo_path repo_id commit g) as Hg1.
  destruct (git run_git _ (rev_parse_key repo_id commit) g)
    as [[out|e] g1] eqn:Hrp; simpl in *.
  2:{ by destruct (is_CalledProcessError e). }
  apply git_Ok_stored in Hrp.
  eapply grows_trans; [exact Hg1|].
  rewrite M_bind_unfold. unfold try_except.
  match goal with |- context [git run_git ?args ?k g1] =>
    pose proof (git_grows run_git repo_id args k g1) as Hg2;
    pose proof (git_mono run_git args k g1) as Hm2;
    pose proof (git_Raise run_git args k g1) as Hr2;
    destruct (git run_git args k g1) as [[stdout|e] g2] eqn:Hblame
  end; simpl in *.
  - eapply grows_trans.
    { apply Hg2. intros o Ho. right. exists commit, out. split; [|right; eauto].
      eapply lookup_weaken; [exact Hrp | exact Hm2]. }
    apply (preserves_bind _ (grows_trans repo_id)).
    + apply (preserves_for_each _ (grows_refl repo_id) (grows_trans repo_id)).
      intros st line. apply blame_line_grows.
    + intros st. apply preserves_ret, grows_refl.
  - destruct (Hr2 e g2 eq_refl) as (-> & _ & stderr & _ & ->). simpl.
    unfold blame_failure. destruct (_ || _); apply grows_refl.
Qed.
End BlameKeyFacts.

(** C1 (as amended). Whatever the ref and the state of the cache, every
    entry that resolving a commit ([Commit.get]) or blaming a file
    ([TrackedFile.get]) adds to the command cache is stored either under the
    key of a resolution query, made of the repository identity and the ref as
    the caller gave it, or under a commit-detail or blame key built from the
    stripped text that the cache holds for such a resolution, that is from
    the resolved hash and not from the caller's ref; and no entry is removed
    or changed. *)
Theorem commit_and_blame_keys_use_resolved_hash :
  forall (run_git : list string -> string + string)
         (repo_path repo_id : string) (reg : registry)
         (ref file_path : string) (g : globals),
    grows_by_history_keys repo_id g
      (Commit_get run_git repo_path repo_id reg ref g).2
    /\ grows_by_history_keys repo_id g
         (TrackedFile_get run_git repo_path repo_id reg file_path ref g).2.
Proof.
  intros. split; [apply Commit_get_grows | apply TrackedFile_get_grows].
Qed.

(** C1, counterexample. Resolving "HEAD" in an empty cache stores the
    commit details under a key without the repository identity, and the
    resolution itself under a key that holds the relative ref "HEAD" and no
    hash. *)
Lemma commit_keys_not_unambiguous :
  let g := (Commit_get git_small "/repo" "org/repo" demo_registry "HEAD"
              empty_globals).2 in
  is_Some (_cache g !! ("commit:" +:+ hash_H))
  /\ PyStr.contains "org/repo" ("commit:" +:+ hash_H) = false
  /\ is_Some (_cache g !! "rev-parse:org/repo:HEAD")
  /\ PyStr.contains "HEAD" "rev-parse:org/repo:HEAD" = true
  /\ unambiguous_key "org/repo" hash_H ("commit:" +:+ hash_H) = false
  /\ unambiguous_key "org/repo" hash_H "rev-parse:org/repo:HEAD" = false.
Proof.
  cbv zeta. repeat split; try (vm_compute; reflexivity);
    eexists; vm_compute; reflexivity.
Qed.

(** The listing query of [TrackedFile.files] is cached under the ref as
    given: with the default commit, under "HEAD". *)
Lemma ls_tree_key_uses_given_ref :
  let g := (TrackedFile_files git_small "/repo" "org/repo" demo_registry
              fnmatch_glob "*" "HEAD" empty_globals).2 in
  _cache g !! "ls-tree:org/repo:HEAD" = Some (unlines ["a.py"]).
Proof. vm_compute. reflexivity. Qed.

(** ** A relation kept by every git query is kept by the data layers *)

Section LayerPreserves.
Variable run_git : list string -> string + string.
Variables repo_path repo_id : string.
Variable reg : registry.
Variable fnmatch : string -> string -> bool.
Variable R : globals -> globals -> Prop.
Hypothesis R_refl : forall g, R g g.
Hypothesis R_trans : forall g1 g2 g3, R g1 g2 -> R g2 g3 -> R g1 g3.
Hypothesis git_R :
  forall args k, git_call repo_path repo_id args k ->
                 preserves R (git run_git args k).

Ltac step :=
  first
    [ apply (preserves_ret R R_refl)
    | apply (preserves_raise R R_refl)
    | apply (preserves_lift R R_refl)
    | apply git_R; constructor
    | apply (preserves_bind R R_trans); [|intros ?]
    | apply (preserves_try_except R R_trans); [|intros ?]
    | apply (preserves_for_each R R_refl R_trans); intros ? ? ].

Lemma Commit_get_preserves h :
  preserves R (Commit_get run_git repo_path repo_id reg h).
Proof. unfold Commit_get. repeat step. Qed.

Lemma blame_line_preserves st line :
  preserves R (blame_line run_git repo_path repo_id reg st line).
Proof.
  destruct st as [[ls cur] cc]. unfold blame_line.
  destruct (is_blame_header line); [step|].
  destruct (PyStr.startswith _ line); [|step].
  destruct cur as [h|]; [|step]. destruct (cc !! h); [step|].
  step; [apply Commit_get_preserves | step].
Qed.

Lemma blame_failure_preserves f c e : preserves R (blame_failure f c e).
Proof.
  unfold blame_failure. destruct e; try step. destruct (_ || _); step.
Qed.

Lemma TrackedFile_get_preserves f c :
  preserves R (TrackedFile_get run_git repo_path repo_id reg f c).
Proof.
  unfold TrackedFile_get. step; [repeat step|].
  step; [step; [step | apply blame_failure_preserves]|].
  step; [|step]. step. apply blame_line_preserves.
Qed.

Lemma for_TrackedFile_files_preserves {S} pattern c
    (body : S -> TrackedFile -> M S) s :
  (forall s tf, preserves R (body s tf)) ->
  preserves R (for_TrackedFile_files run_git repo_path repo_id reg fnmatch
                 pattern c body s).
Proof.
  intros Hb. unfold for_TrackedFile_files. step; [step|]. step.
  destruct (fnmatch _ _); [|step].
  step; [apply TrackedFile_get_preserves | apply Hb].
Qed.

Lemma get_all_commits_preserves :
  preserves R (get_all_commits run_git repo_path repo_id).
Proof.
  unfold get_all_commits. step; [step|].
  destruct (fold_left _ _ _) as [[? ?] ?]. step.
Qed.

Lemma get_commit_non_whitespace_files_preserves h :
  preserves R (get_commit_non_whitespace_files run_git repo_path repo_id h).
Proof.
  unfold get_commit_non_whitespace_files. step; [repeat step|].
  match goal with |- context [match ?x with _ => _ end] => destruct x end; step.
Qed.

Lemma commit_step_preserves ign inc exc st entry :
  preserves R (commit_step run_git repo_path repo_id reg fnmatch ign inc exc
                 st entry).
Proof.
  destruct entry as [h fs]. unfold commit_step.
  destruct (List.filter _ fs); [step|].
  step; [apply get_commit_non_whitespace_files_preserves|].
  destruct (negb _); [step|].
  step.
  - step; [|step]. step; [apply Commit_get_preserves | step].
  - match goal with |- context [match ?x with _ => _ end] => destruct x end;
      step.
Qed.

Lemma _collect_commit_stats_preserves cfg ign inc exc cc :
  preserves R (_collect_commit_stats run_git repo_path repo_id reg fnmatch
                 cfg ign inc exc cc).
Proof.
  unfold _collect_commit_stats. step; [apply get_all_commits_preserves|].
  step. apply commit_step_preserves.
Qed.

Section Review.
Variable gh_pr_view_commits : Z -> result (option (list gh_commit)).
Variable gh_pr_list_details : result (list gh_pr).
Variable gh_pr_diff : Z -> option string.

Lemma pr_commit_step_preserves cs cd :
  preserves R (pr_commit_step run_git repo_path repo_id reg cs cd).
Proof.
  unfold pr_commit_step. destruct (negb _); [step|].
  step; [|step]. step; [|step]. unfold local_commit_entry.
  step; [apply Commit_get_preserves|]. repeat step.
Qed.

Lemma _get_pr_commits_preserves n :
  preserves R (_get_pr_commits run_git repo_path repo_id reg
                 gh_pr_view_commits n).
Proof.
  unfold _get_pr_commits. destruct (gh_pr_view_commits n) as [d|e].
  - step. apply pr_commit_step_preserves.
  - destruct (commits_query_caught e); step.
Qed.

Lemma fetch_pr_step_preserves ns acc d :
  preserves R (fetch_pr_step run_git repo_path repo_id reg
                 gh_pr_view_commits gh_pr_diff ns acc d).
Proof.
  unfold fetch_pr_step. destruct (negb _); [step|].
  step; [apply _get_pr_commits_preserves | step].
Qed.

Lemma gh_list_error_preserves {A} e : preserves R (@gh_list_error A e).
Proof. unfold gh_list_error. destruct e; step. Qed.

Lemma _fetch_pr_details_preserves ns :
  preserves R (_fetch_pr_details run_git repo_path repo_id reg
                 gh_pr_view_commits gh_pr_list_details gh_pr_diff ns).
Proof.
  unfold _fetch_pr_details. destruct ns; [step|].
  destruct gh_pr_list_details; [|apply gh_list_error_preserves].
  step. apply fetch_pr_step_preserves.
Qed.
End Review.
End LayerPreserves.

(** ** The closed-request cache *)

Section PrCacheFacts.
Variable run_git : list string -> string + string.
Variables repo_path repo_id : string.
Variable reg : registry.
Variable which_gh : option string.
Variable gh_pr_view_commits : Z -> result (option (list gh_commit)).
Variable gh_pr_list_summary : result (list (option Z * option string)).
Variable gh_pr_list_details : result (list gh_pr).
Variable gh_pr_diff : Z -> option string.

Lemma closed_only_refl g : pr_cache_closed_only repo_id g g.
Proof. intros k pr H. by left. Qed.

Lemma closed_only_trans g1 g2 g3 :
  pr_cache_closed_only repo_id g1 g2 -> pr_cache_closed_only repo_id g2 g3 ->
  pr_cache_closed_only repo_id g1 g3.
Proof.
  intros H12 H23 k pr H3. destruct (H23 k pr H3) as [H2|H]; [|by right].
  by apply H12.
Qed.

Lemma git_closed_only args k :
  preserves (pr_cache_closed_only repo_id) (git run_git args k).
Proof. intros g k' pr. rewrite git_pr_cache. by left. Qed.

Lemma is_open_false pr : is_open pr = false -> state pr <> "OPEN".
Proof. unfold is_open. by intros H%String.eqb_neq. Qed.

Lemma is_open_true pr : state pr = "OPEN" -> is_open pr = true.
Proof. unfold is_open. by intros ->. Qed.

Lemma cache_step_closed_only acc pr :
  preserves (pr_cache_closed_only repo_id) (cache_step repo_id acc pr).
Proof.
  intros g k pr'. unfold cache_step. simpl.
  destruct (is_open pr) eqn:Hopen; simpl; [by left|].
  destruct (decide (k = (repo_id, number pr))) as [->|Hne].
  - rewrite lookup_insert_eq. intros [= <-]. right.
    split; [by apply is_open_false | done].
  - rewrite lookup_insert_ne by done. by left.
Qed.

Lemma get_pull_requests_closed_only :
  preserves (pr_cache_closed_only repo_id)
    (get_pull_requests run_git repo_path repo_id reg which_gh
       gh_pr_view_commits gh_pr_list_summary gh_pr_list_details gh_pr_diff).
Proof.
  unfold get_pull_requests.
  destruct which_gh; [|apply preserves_raise, closed_only_refl].
  destruct gh_pr_list_summary as [summary|e];
    [|apply gh_list_error_preserves, closed_only_refl].
  intros g. destruct (fold_left _ summary _) as [prs to_fetch].
  destruct to_fetch as [|n to_fetch]; [apply closed_only_refl|].
  apply (preserves_bind _ closed_only_trans).
  - apply _fetch_pr_details_preserves;
      [apply closed_only_refl | apply closed_only_trans |].
    intros args k _. apply git_closed_only.
  - intros fetched.
    apply (preserves_for_each _ closed_only_refl closed_only_trans).
    intros acc pr. apply cache_step_closed_only.
Qed.

(** The request built by [_fetch_pr_details] from a record without a
    state field is open. *)
Lemma fetch_pr_step_stateless pr_numbers acc pr_data g l :
  gh_state pr_data = None ->
  (fetch_pr_step run_git repo_path repo_id reg gh_pr_view_commits gh_pr_diff
     pr_numbers acc pr_data g).1 = Ok l ->
  l = acc \/ exists pr, l = acc ++ [pr] /\ state pr = "OPEN".
Proof.
  intros Hstate. unfold fetch_pr_step.
  destruct (negb _); [intros [= <-]; by left|].
  rewrite M_bind_unfold.
  destruct (_get_pr_commits _ _ _ _ _ _ g) as [[cs|e] g1]; [|done].
  simpl. intros [= <-]. right. eexists. split; [reflexivity|].
  simpl. by rewrite Hstate.
Qed.
End PrCacheFacts.

(** C10. A review request whose record has no state field is given the
    state "OPEN"; appending an open request leaves the closed-request cache
    as it was; and over a whole listing every entry of the closed-request
    cache is either an entry that was there before, or a request whose state
    is not "OPEN", stored under the repository identity and its number. *)
Theorem stateless_request_is_open_and_not_cached :
  forall (run_git : list string -> string + string)
         (repo_path repo_id : string) (reg : registry)
         (which_gh : option string)
         (gh_pr_view_commits : Z -> result (option (list gh_commit)))
         (gh_pr_list_summary : result (list (option Z * option string)))
         (gh_pr_list_details : result (list gh_pr))
         (gh_pr_diff : Z -> option string),
    (forall pr_numbers acc pr_data g l,
        gh_state pr_data = None ->
        (fetch_pr_step run_git repo_path repo_id reg gh_pr_view_commits
           gh_pr_diff pr_numbers acc pr_data g).1 = Ok l ->
        l = acc \/ exists pr, l = acc ++ [pr] /\ state pr = "OPEN")
    /\ (forall acc pr g,
           state pr = "OPEN" ->
           (cache_step repo_id acc pr g).2 = g)
    /\ (forall g,
           pr_cache_closed_only repo_id g
             (get_pull_requests run_git repo_path repo_id reg which_gh
                gh_pr_view_commits gh_pr_list_summary gh_pr_list_details
                gh_pr_diff g).2).
Proof.
  intros. split; [|split].
  - intros. by eapply fetch_pr_step_stateless.
  - intros acc pr g Hopen. unfold cache_step. simpl.
    by rewrite (is_open_true pr Hopen).
  - apply get_pull_requests_closed_only.
Qed.

Lemma stateless_request_is_open_and_not_cached_witness :
  let r := get_pull_requests git_small "/repo" "org/repo" demo_registry
             (Some "/usr/bin/gh") gh_no_commits gh_summary_two gh_details_two
             gh_no_diff empty_globals in
  listed_states r.1 = ["OPEN"; "MERGED"]
  /\ _pr_cache r.2 !! ("org/repo", 1%Z) = None
  /\ is_Some (_pr_cache r.2 !! ("org/repo", 2%Z))
  /\ pr_cache_closed_only "org/repo" empty_globals r.2.
Proof.
  cbv zeta. split; [vm_compute; reflexivity|].
  split; [vm_compute; reflexivity|].
  split; [eexists; vm_compute; reflexivity|].
  apply (stateless_request_is_open_and_not_cached git_small "/repo" "org/repo"
           demo_registry (Some "/usr/bin/gh") gh_no_commits gh_summary_two
           gh_details_two gh_no_diff).
Defined.

(** ** Commits of a review request *)

Section PrCommitFacts.
Variable run_git : list string -> string + string.
Variables repo_path repo_id : string.
Variable reg : registry.

(** When the resolution query itself fails, the loop body raises
    "commit not found": the except clause of the local lookup does not
    list that class. *)
Lemma pr_commit_step_unresolvable commits commit_data h stderr g :
  oid commit_data = Some h ->
  PyStr.truthy h = true ->
  _cache g !! ("rev-parse:" +:+ repo_id +:+ ":" +:+ h) = None ->
  run_git ["-C"; repo_path; "rev-parse"; h] = inr stderr ->
  pr_commit_step run_git repo_path repo_id reg commits commit_data g =
    (Raise (CommitNotFoundError h), g).
Proof.
  intros Hoid Hh Hmiss Hfail. unfold pr_commit_step. rewrite Hoid. simpl.
  rewrite Hh. simpl. rewrite M_bind_unfold.
  unfold try_except at 1, local_commit_entry. rewrite M_bind_unfold.
  unfold get_commit, Commit_get. rewrite M_bind_unfold.
  unfold try_except, git. rewrite Hmiss, Hfail. reflexivity.
Qed.

(** When the local lookup of the commit raises an exception that the
    except clause lists, the loop body takes the service's record. *)
Lemma pr_commit_step_falls_back commits commit_data h g e g' :
  oid commit_data = Some h ->
  PyStr.truthy h = true ->
  Commit_get run_git repo_path repo_id reg h g = (Raise e, g') ->
  local_lookup_caught e = true ->
  pr_commit_step run_git repo_path repo_id reg commits commit_data g =
    (Ok (commits ++ [github_commit_entry h commit_data]), g').
Proof.
  intros Hoid Hh Hget Hcaught. unfold pr_commit_step. rewrite Hoid. simpl.
  rewrite Hh. simpl. rewrite M_bind_unfold.
  unfold try_except at 1, local_commit_entry. rewrite M_bind_unfold.
  unfold get_commit. rewrite Hget, Hcaught. reflexivity.
Qed.
End PrCommitFacts.

(** ** Loading the configuration *)

Section ConfigFacts.
Variable py_repr : json -> string.

Lemma enumerate_from_app {St} (body : nat -> json -> St -> result St)
    i pre post (s : St) :
  enumerate_from body i (pre ++ post) s =
    (s' ← enumerate_from body i pre s;
     enumerate_from body (i + length pre) post s').
Proof.
  revert i s. induction pre as [|x pre IH]; intros i s; simpl.
  - by rewrite Nat.add_0_r.
  - destruct (body i x s) as [s'|e]; simpl; [|done].
    rewrite IH. by replace (S i + length pre) with (i + S (length pre)) by lia.
Qed.

(** A defective student entry is refused by the loop body, with a message
    that names the entry's index and a defective field. *)
Lemma student_step_defective i s acc :
  (exists f, field_defective f s) ->
  exists f, field_defective f s
    /\ student_step py_repr i (JObj s) acc =
         Raise (StudentsConfigError
                  ("Student entry " +:+ pretty i +:+ " missing '" +:+ f +:+ "'")).
Proof.
  intros Hdef. destruct acc as [students reg]. unfold student_step.
  destruct (missing_or_empty "id" s) eqn:Hid.
  { exists "id". split; [left; simpl; tauto | reflexivity]. }
  destruct (missing_or_empty "name" s) eqn:Hname.
  { exists "name". split; [left; simpl; tauto | reflexivity]. }
  destruct (missing_or_empty "email" s) eqn:Hemail.
  { exists "email". split; [left; simpl; tauto | reflexivity]. }
  destruct (jget "github_username" s) eqn:Hgh.
  2:{ exists "github_username". split; [by right | reflexivity]. }
  exfalso. destruct Hdef as [f [[Hin Hm] | [_ Hm]]]; [|congruence].
  simpl in Hin. destruct Hin as [<- | [<- | [<- | []]]]; congruence.
Qed.
End ConfigFacts.

(** C7 (as amended). When the entries before it are accepted, a student
    entry in which "id", "name" or "email" is absent or empty, or in which
    "github_username" is absent, makes the loading fail with a configuration
    error whose message gives the index of the entry and names one of its
    defective fields. (An empty "github_username" is not a defect.) *)
Theorem defective_student_entry_is_refused :
  forall (py_repr : json -> string) (data : list (string * json))
         (reg : registry) (pre post : list json) (s : list (string * json))
         (acc : list Author * registry),
    jget "students" data = Some (JArr (pre ++ JObj s :: post)) ->
    enumerate_from (student_step py_repr) 0 pre ([], reg) = Ok acc ->
    (exists f, field_defective f s) ->
    exists f, field_defective f s
      /\ from_dict py_repr data reg =
           Raise (StudentsConfigError
                    ("Student entry " +:+ pretty (length pre)
                     +:+ " missing '" +:+ f +:+ "'")).
Proof.
  intros py_repr data reg pre post s acc Hdata Hpre Hdef.
  destruct (student_step_defective py_repr (length pre) s acc Hdef)
    as (f & Hf & Hstep).
  exists f. split; [exact Hf|].
  unfold from_dict. rewrite Hdata, enumerate_from_app, Hpre. simpl.
  by rewrite Hstep.
Qed.

Lemma defective_student_entry_is_refused_witness :
  exists f, field_defective f [("id", JStr "2"); ("name", JStr "Bob");
                               ("email", JStr ""); ("github_username", JStr "bob-gh")]
    /\ from_dict repr_unused config_no_email ∅ =
         Raise (StudentsConfigError
                  ("Student entry " +:+ pretty (length [student_ann])
                   +:+ " missing '" +:+ f +:+ "'")).
Proof.
  apply (defective_student_entry_is_refused repr_unused config_no_email ∅
           [student_ann] []
           [("id", JStr "2"); ("name", JStr "Bob"); ("email", JStr "");
            ("github_username", JStr "bob-gh")]
           ([mkAuthor "Ann" "ann@x.com" "ann-gh" "1" [] [] true],
            {[ ("Ann", "ann@x.com") := mkAuthor "Ann" "ann@x.com" "ann-gh" "1" [] [] true ]})).
  - reflexivity.
  - vm_compute. reflexivity.
  - exists "email". left. split; [simpl; tauto | reflexivity].
Defined.

(** C7, counterexample. A student entry whose "github_username" is the
    empty string is accepted: the configuration is loaded, with a student
    whose handle is empty. *)
Lemma empty_github_username_is_accepted :
  exists cfg reg',
    from_dict repr_unused config_empty_handle ∅ = Ok (cfg, reg')
    /\ map github_username (students cfg) = [""].
Proof. eexists _, _. split; vm_compute; reflexivity. Qed.

(** ** Review statistics *)

Ltac tidy :=
  simpl; rewrite ?andb_false_r, ?orb_false_r; simpl; rewrite ?Nat.add_0_r.

Section ReviewFacts.
Variable u2a : gmap string Author.

Lemma approvals_of_alter_other (f : GitHubStats -> GitHubStats) (k : string * string)
    (stats : GitHubStatsData) (a : string * string) :
  (forall s, approvals_given (f s) = approvals_given s) ->
  approvals_of (alter f k stats) a = approvals_of stats a.
Proof.
  intros Hf. unfold approvals_of. rewrite lookup_alter.
  case_decide; [subst|done]. destruct (stats !! a); simpl; [apply Hf|done].
Qed.

Lemma change_requests_of_alter_other (f : GitHubStats -> GitHubStats) (k : string * string)
    (stats : GitHubStatsData) (a : string * string) :
  (forall s, change_requests_given (f s) = change_requests_given s) ->
  change_requests_of (alter f k stats) a = change_requests_of stats a.
Proof.
  intros Hf. unfold change_requests_of. rewrite lookup_alter.
  case_decide; [subst|done]. destruct (stats !! a); simpl; [apply Hf|done].
Qed.

Lemma approvals_of_alter_ne (f : GitHubStats -> GitHubStats) (k : string * string)
    (stats : GitHubStatsData) (a : string * string) :
  k <> a -> approvals_of (alter f k stats) a = approvals_of stats a.
Proof. intros Hne. unfold approvals_of. by rewrite lookup_alter_ne. Qed.

Lemma change_requests_of_alter_ne (f : GitHubStats -> GitHubStats) (k : string * string)
    (stats : GitHubStatsData) (a : string * string) :
  k <> a -> change_requests_of (alter f k stats) a = change_requests_of stats a.
Proof. intros Hne. unfold change_requests_of. by rewrite lookup_alter_ne. Qed.

Lemma approvals_of_incr (stats : GitHubStatsData) (a : string * string) :
  is_Some (stats !! a) ->
  approvals_of (alter incr_approvals a stats) a = S (approvals_of stats a).
Proof.
  intros [s Hs]. unfold approvals_of. by rewrite lookup_alter_eq, Hs.
Qed.

Lemma change_requests_of_incr (stats : GitHubStatsData) (a : string * string) :
  is_Some (stats !! a) ->
  change_requests_of (alter incr_change_requests a stats) a
  = S (change_requests_of stats a).
Proof.
  intros [s Hs]. unfold change_requests_of. by rewrite lookup_alter_eq, Hs.
Qed.

Lemma is_Some_alter (f : GitHubStats -> GitHubStats) (k : string * string)
    (stats : GitHubStatsData) (a : string * string) :
  is_Some (stats !! a) -> is_Some (alter f k stats !! a).
Proof. intros H. by apply lookup_alter_is_Some. Qed.

(** One review: the counters of [a] and its membership in the two sets
    of seen reviewers. *)
Lemma review_step_counts (a : string * string) (r : PullRequestReview)
    (stats : GitHubStatsData) (sa sc : gset (string * string)) :
  is_Some (stats !! a) ->
  let st := review_step u2a (stats, sa, sc) r in
  is_Some (st.1.1 !! a)
  /\ approvals_of st.1.1 a =
       approvals_of stats a
       + bool_to_nat (negb (bool_decide (a ∈ sa))
                      && review_by "APPROVED" u2a a r)
  /\ bool_decide (a ∈ st.1.2) =
       bool_decide (a ∈ sa) || review_by "APPROVED" u2a a r
  /\ change_requests_of st.1.1 a =
       change_requests_of stats a
       + bool_to_nat (negb (bool_decide (a ∈ sc))
                      && review_by "CHANGES_REQUESTED" u2a a r)
  /\ bool_decide (a ∈ st.2) =
       bool_decide (a ∈ sc) || review_by "CHANGES_REQUESTED" u2a a r.
Proof.
  intros Hin. unfold review_by, review_step. cbv zeta.
  destruct (u2a !! PyStr.lower (reviewer_username r)) as [reviewer|] eqn:Hrv;
    [|by tidy].
  generalize (author_key reviewer). intros k.
  destruct (String.eqb (review_state r) "APPROVED") eqn:Happ.
  - apply String.eqb_eq in Happ. rewrite Happ. tidy.
    destruct (decide (k ∈ sa)) as [Hseen|Hseen].
    + rewrite (bool_decide_eq_true_2 _ Hseen). simpl.
      destruct (decide (k = a)) as [->|Hk].
      * rewrite (bool_decide_eq_true_2 (a ∈ sa)) by done. by tidy.
      * rewrite (bool_decide_eq_false_2 _ Hk). by tidy.
    + rewrite (bool_decide_eq_false_2 _ Hseen). simpl.
      destruct (decide (k = a)) as [->|Hk].
      * rewrite (bool_decide_eq_false_2 (a ∈ sa)) by done.
        rewrite (bool_decide_eq_true_2 (a = a)) by done. simpl.
        rewrite approvals_of_incr by done.
        rewrite change_requests_of_alter_other by done.
        rewrite (bool_decide_eq_true_2 (a ∈ {[a]} ∪ sa))
          by (apply elem_of_union_l; by apply elem_of_singleton).
        repeat split; [by apply is_Some_alter | lia].
      * rewrite (bool_decide_eq_false_2 _ Hk). tidy.
        rewrite approvals_of_alter_ne, change_requests_of_alter_ne by done.
        repeat split; [by apply is_Some_alter |].
        apply bool_decide_ext. rewrite elem_of_union, elem_of_singleton.
        split; [intros [?|?]; [congruence | done] | by right].
  - destruct (String.eqb (review_state r) "CHANGES_REQUESTED") eqn:Hcr;
      [|by tidy].
    tidy.
    destruct (decide (k ∈ sc)) as [Hseen|Hseen].
    + rewrite (bool_decide_eq_true_2 _ Hseen). simpl.
      destruct (decide (k = a)) as [->|Hk].
      * rewrite (bool_decide_eq_true_2 (a ∈ sc)) by done. by tidy.
      * rewrite (bool_decide_eq_false_2 _ Hk). by tidy.
    + rewrite (bool_decide_eq_false_2 _ Hseen). simpl.
      destruct (decide (k = a)) as [->|Hk].
      * rewrite (bool_decide_eq_false_2 (a ∈ sc)) by done.
        rewrite (bool_decide_eq_true_2 (a = a)) by done. simpl.
        rewrite change_requests_of_incr by done.
        rewrite approvals_of_alter_other by done.
        rewrite (bool_decide_eq_true_2 (a ∈ {[a]} ∪ sc))
          by (apply elem_of_union_l; by apply elem_of_singleton).
        repeat split; [by apply is_Some_alter | lia].
      * rewrite (bool_decide_eq_false_2 _ Hk). tidy.
        rewrite approvals_of_alter_ne, change_requests_of_alter_ne by done.
        repeat split; [by apply is_Some_alter |].
        apply bool_decide_ext. rewrite elem_of_union, elem_of_singleton.
        split; [intros [?|?]; [congruence | done] | by right].
Qed.

(** The counters of [a] after the review loop, from any state of the
    loop: one more approval when [a] is not yet among the seen approvers
    and some review is an approval by [a]; likewise for change requests. *)
Lemma review_fold_counts (a : string * string)
    (reviews : list PullRequestReview) :
  forall (stats : GitHubStatsData) (sa sc : gset (string * string)),
    is_Some (stats !! a) ->
    let st := fold_left (review_step u2a) reviews (stats, sa, sc) in
    is_Some (st.1.1 !! a)
    /\ approvals_of st.1.1 a =
         approvals_of stats a
         + bool_to_nat (negb (bool_decide (a ∈ sa))
                        && existsb (review_by "APPROVED" u2a a) reviews)
    /\ change_requests_of st.1.1 a =
         change_requests_of stats a
         + bool_to_nat (negb (bool_decide (a ∈ sc))
                        && existsb (review_by "CHANGES_REQUESTED" u2a a) reviews).
Proof.
  induction reviews as [|r reviews IH]; intros stats sa sc Hin;
    cbn [fold_left existsb].
  - by tidy.
  - pose proof (review_step_counts a r stats sa sc Hin) as Hstep.
    cbv zeta in Hstep.
    destruct (review_step u2a (stats, sa, sc) r) as [[stats1 sa1] sc1].
    simpl in Hstep. destruct Hstep as (Hin1 & Ha & Hsa & Hc & Hsc).
    specialize (IH stats1 sa1 sc1 Hin1). cbv zeta in IH.
    destruct IH as (Hin' & Ha' & Hc'). split; [exact Hin'|].
    rewrite Ha', Hc', Ha, Hc, Hsa, Hsc.
    destruct (bool_decide (a ∈ sa)), (bool_decide (a ∈ sc)),
      (review_by "APPROVED" u2a a r), (review_by "CHANGES_REQUESTED" u2a a r),
      (existsb (review_by "APPROVED" u2a a) reviews),
      (existsb (review_by "CHANGES_REQUESTED" u2a a) reviews);
      simpl; split; lia.
Qed.
End ReviewFacts.

Section GithubStatsFacts.
Variable fnmatch : string -> string -> bool.
Variables include_patterns exclude_patterns : list string.
Variable u2a : gmap string Author.

Lemma count_pr_counts (a : string * string) (pr : PullRequest)
    (stats : GitHubStatsData) :
  is_Some (stats !! a) ->
  is_Some (count_pr u2a pr stats !! a)
  /\ approvals_of (count_pr u2a pr stats) a = approvals_of stats a
  /\ change_requests_of (count_pr u2a pr stats) a = change_requests_of stats a.
Proof.
  intros Hin. unfold count_pr.
  destruct (u2a !! PyStr.lower (author_username pr)); [|done].
  destruct (pr_is_collab pr), (is_merged pr);
    (split; [by apply is_Some_alter|]);
    by rewrite approvals_of_alter_other, change_requests_of_alter_other.
Qed.

(** One request: the approvals and change requests of [a] grow by one
    when the request passes the guards and holds such a review by [a]. *)
Lemma github_pr_step_counts (a : string * string) (pr : PullRequest)
    (stats : GitHubStatsData) :
  is_Some (stats !! a) ->
  let stats' := github_pr_step fnmatch include_patterns exclude_patterns u2a
                  stats pr in
  is_Some (stats' !! a)
  /\ approvals_of stats' a =
       approvals_of stats a
       + bool_to_nat (pr_counts fnmatch include_patterns exclude_patterns pr
                      && existsb (review_by "APPROVED" u2a a) (reviews pr))
  /\ change_requests_of stats' a =
       change_requests_of stats a
       + bool_to_nat (pr_counts fnmatch include_patterns exclude_patterns pr
                      && existsb (review_by "CHANGES_REQUESTED" u2a a)
                           (reviews pr)).
Proof.
  intros Hin. unfold github_pr_step, pr_counts. cbv zeta.
  destruct (PyStr.startswith "app/" (author_username pr)); [by tidy|].
  destruct (pr_has_matching_files _ _ _ pr); [|by tidy].
  destruct (is_merged pr), (is_open pr); simpl; try (by tidy);
    destruct (count_pr_counts a pr stats Hin) as (Hin1 & Ha & Hc);
    destruct (review_fold_counts u2a a (reviews pr) _ ∅ ∅ Hin1)
      as (Hin2 & Ha2 & Hc2);
    unfold count_reviews; rewrite Ha2, Hc2, Ha, Hc;
    rewrite (bool_decide_eq_false_2 (a ∈ (∅ : gset (string * string))))
      by apply not_elem_of_empty; done.
Qed.

Lemma github_pr_fold_counts (a : string * string) (prs : list PullRequest) :
  forall stats : GitHubStatsData,
    is_Some (stats !! a) ->
    let stats' := fold_left (github_pr_step fnmatch include_patterns
                               exclude_patterns u2a) prs stats in
    approvals_of stats' a =
      approvals_of stats a
      + length (List.filter
                  (fun pr => pr_counts fnmatch include_patterns exclude_patterns pr
                             && existsb (review_by "APPROVED" u2a a) (reviews pr))
                  prs)
    /\ change_requests_of stats' a =
         change_requests_of stats a
         + length (List.filter
                     (fun pr =>
                        pr_counts fnmatch include_patterns exclude_patterns pr
                        && existsb (review_by "CHANGES_REQUESTED" u2a a)
                             (reviews pr))
                     prs).
Proof.
  induction prs as [|pr prs IH]; intros stats Hin; cbn [fold_left List.filter].
  - simpl. lia.
  - destruct (github_pr_step_counts a pr stats Hin) as (Hin1 & Ha & Hc).
    destruct (IH _ Hin1) as [Ha' Hc']. rewrite Ha', Hc', Ha, Hc.
    destruct (pr_counts _ _ _ pr && existsb (review_by "APPROVED" u2a a) _),
      (pr_counts _ _ _ pr && existsb (review_by "CHANGES_REQUESTED" u2a a) _);
      simpl; lia.
Qed.
End GithubStatsFacts.

Lemma empty_per_student_lookup {V} (v : V) (students : list Author)
    (a : string * string) :
  forall m : gmap (string * string) V,
    fold_left (fun m s => <[author_key s := v]> m) students m !! a =
      if bool_decide (a ∈ map author_key students) then Some v else m !! a.
Proof.
  induction students as [|s students IH]; intros m; cbn [fold_left map].
  - rewrite bool_decide_eq_false_2; [done | apply not_elem_of_nil].
  - rewrite IH. destruct (decide (a ∈ map author_key students)) as [Hin|Hin].
    + rewrite !bool_decide_eq_true_2; [done | by apply list_elem_of_further | done].
    + rewrite (bool_decide_eq_false_2 _ Hin).
      destruct (decide (a = author_key s)) as [Heq|Hne].
      * rewrite bool_decide_eq_true_2 by (rewrite Heq; apply list_elem_of_here).
        rewrite Heq. apply lookup_insert_eq.
      * rewrite bool_decide_eq_false_2.
        -- by apply lookup_insert_ne.
        -- intros [?|?]%elem_of_cons; done.
Qed.

Lemma initial_stats_lookup (students : list Author) (a : string * string) :
  In a (map author_key students) ->
  initial_stats students !! a = Some (mkGitHubStats 0 0 0 0 0 0).
Proof.
  intros Hin%list_elem_of_In. unfold initial_stats.
  rewrite (empty_per_student_lookup (mkGitHubStats 0 0 0 0 0 0)).
  by rewrite bool_decide_eq_true_2.
Qed.

(** The statistics that [_collect_github_stats] returns are those of the
    loop over the listing. *)
Lemma _collect_github_stats_result run_git repo_path repo_id reg fnmatch which_gh
    view summary details diff cfg inc exc g :
  (_collect_github_stats run_git repo_path repo_id reg fnmatch which_gh view
     summary details diff cfg inc exc g).1 =
    (prs ← (get_pull_requests run_git repo_path repo_id reg which_gh view
              summary details diff g).1;
     Ok (stats_after fnmatch inc exc (students cfg) prs)).
Proof.
  unfold _collect_github_stats. rewrite M_bind_unfold.
  by destruct (get_pull_requests _ _ _ _ _ _ _ _ _ g) as [[prs|e] g'].
Qed.

(** C2 (as amended). For a roster contributor, the approvals counted
    over a listing are the requests that pass the guards of the loop (the
    author is not a bot, some changed file matches the filters with a
    non-whitespace change, the request is merged or open) and hold at least
    one approval whose reviewer handle resolves to that contributor: one per
    such request, however many times the reviewer approved; and likewise for
    change requests. A request that fails a guard adds nothing. *)
Theorem reviews_counted_once_per_counted_request :
  forall (fnmatch : string -> string -> bool)
         (include_patterns exclude_patterns : list string)
         (students : list Author) (prs : list PullRequest)
         (a : string * string),
    In a (map author_key students) ->
    approvals_of (stats_after fnmatch include_patterns exclude_patterns
                    students prs) a =
      length (List.filter
                (fun pr =>
                   pr_counts fnmatch include_patterns exclude_patterns pr
                   && existsb (review_by "APPROVED" (username_to_author students) a)
                        (reviews pr)) prs)
    /\ change_requests_of (stats_after fnmatch include_patterns exclude_patterns
                             students prs) a =
         length (List.filter
                   (fun pr =>
                      pr_counts fnmatch include_patterns exclude_patterns pr
                      && existsb (review_by "CHANGES_REQUESTED"
                                    (username_to_author students) a)
                           (reviews pr)) prs).
Proof.
  intros fnmatch inc exc students prs a Hin.
  pose proof (initial_stats_lookup students a Hin) as Hinit.
  destruct (github_pr_fold_counts fnmatch inc exc (username_to_author students)
              a prs (initial_stats students)) as [Ha Hc]; [by eexists|].
  unfold stats_after. rewrite Ha, Hc.
  unfold approvals_of, change_requests_of. rewrite Hinit. done.
Qed.

Lemma reviews_counted_once_per_counted_request_witness :
  approvals_of (stats_after fnmatch_glob ["*"] [] [ann; bob]
                  [bot_request; bob_request]) (author_key ann) = 1
  /\ change_requests_of (stats_after fnmatch_glob ["*"] [] [ann; bob]
                           [bot_request; bob_request]) (author_key ann) = 0.
Proof.
  apply (reviews_counted_once_per_counted_request fnmatch_glob ["*"] []
           [ann; bob] [bot_request; bob_request] (author_key ann)).
  simpl. tauto.
Defined.

(** C2, counterexample. A merged request by a bot, with a matching file,
    was approved by ann; ann's approval counter stays at zero. *)
Lemma approval_on_bot_request_not_counted :
  existsb (review_by "APPROVED" (username_to_author [ann; bob]) (author_key ann))
          (reviews bot_request) = true
  /\ approvals_of (stats_after fnmatch_glob ["*"] [] [ann; bob] [bot_request])
                  (author_key ann) = 0.
Proof. split; vm_compute; reflexivity. Qed.

(** ** Handles and letter case *)

Section HandleFacts.

Lemma username_to_author_fold_Some (students : list Author) :
  forall (m : gmap string Author) key s',
    fold_left (fun m student =>
                 <[PyStr.lower (github_username student) := student]> m)
              students m !! key = Some s' ->
    (In s' students /\ PyStr.lower (github_username s') = key)
    \/ m !! key = Some s'.
Proof.
  induction students as [|s students IH]; intros m key s' H; simpl in *.
  - by right.
  - destruct (IH _ _ _ H) as [[Hin Hk]|Hm]; [left; tauto|].
    destruct (decide (PyStr.lower (github_username s) = key)) as [Heq|Hne].
    + rewrite Heq, lookup_insert_eq in Hm. injection Hm as <-. left. tauto.
    + rewrite lookup_insert_ne in Hm by done. by right.
Qed.

Lemma username_to_author_fold_is_Some (students : list Author) :
  forall (m : gmap string Author) key,
    is_Some (m !! key) ->
    is_Some (fold_left (fun m student =>
                          <[PyStr.lower (github_username student) := student]> m)
                       students m !! key).
Proof.
  induction students as [|s students IH]; intros m key H; simpl; [done|].
  apply IH. apply lookup_insert_is_Some'. by right.
Qed.

(** A roster handle, lower-cased, is a key of the mapping, and the
    contributor found under it has that handle up to letter case. *)
Lemma username_to_author_roster (students : list Author) s :
  In s students ->
  exists s', username_to_author students !! PyStr.lower (github_username s)
             = Some s'
             /\ In s' students
             /\ PyStr.lower (github_username s')
                = PyStr.lower (github_username s).
Proof.
  intros Hin. unfold username_to_author.
  assert (Hsome : is_Some
    (fold_left (fun m student =>
                  <[PyStr.lower (github_username student) := student]> m)
               students (∅ : gmap string Author)
     !! PyStr.lower (github_username s))).
  { generalize (∅ : gmap string Author).
    induction students as [|x students IH]; intros m; simpl in *; [done|].
    destruct Hin as [->|Hin]; [|by apply IH].
    apply username_to_author_fold_is_Some. rewrite lookup_insert_eq. by eexists. }
  destruct Hsome as [s' Hs']. exists s'. split; [exact Hs'|].
  destruct (username_to_author_fold_Some _ _ _ _ Hs') as [[? ?]|Hempty];
    [tauto|]. by rewrite lookup_empty in Hempty.
Qed.
End HandleFacts.

(** The subscripts [stats[author]] and [stats[reviewer]] of the source
    cannot fail: a contributor that the handle mapping returns is in the
    roster, the initial statistics have an entry for every roster
    contributor, and the loop keeps every entry. *)
Lemma roster_handles_have_stats (students : list Author) (h : string)
    (a : Author) :
  username_to_author students !! h = Some a ->
  is_Some (initial_stats students !! author_key a).
Proof.
  intros Hu. unfold username_to_author in Hu.
  destruct (username_to_author_fold_Some _ _ _ _ Hu) as [[Hin _]|Hempty].
  - rewrite initial_stats_lookup; [by eexists|]. by apply in_map.
  - by rewrite lookup_empty in Hempty.
Qed.

Lemma stats_entries_kept fnmatch inc exc u2a (prs : list PullRequest)
    (k : string * string) :
  forall stats : GitHubStatsData,
    is_Some (stats !! k) ->
    is_Some (fold_left (github_pr_step fnmatch inc exc u2a) prs stats !! k).
Proof.
  induction prs as [|pr prs IH]; intros stats Hin; simpl; [done|].
  apply IH. by apply (github_pr_step_counts fnmatch inc exc u2a k pr stats).
Qed.

(** ** Commit attribution *)

Lemma append_inj_l (s a b : string) : s +:+ a = s +:+ b -> a = b.
Proof. induction s as [|c s IH]; simpl; [done|]. intros [= H]. by apply IH. Qed.

(** An invariant of a loop that holds after every completed iteration
    holds when the loop completes. *)
Lemma for_each_invariant {A S} (I : S -> globals -> Prop)
    (body : S -> A -> M S) (l : list A) :
  (forall s x g s' g', In x l -> I s g -> body s x g = (Ok s', g') -> I s' g') ->
  forall s g s' g',
    I s g -> for_each body l s g = (Ok s', g') -> I s' g'.
Proof.
  induction l as [|x l IH]; intros Hbody s g s' g' HI Hrun; simpl in Hrun.
  - by injection Hrun as <- <-.
  - rewrite M_bind_unfold in Hrun.
    destruct (body s x g) as [[s1|e] g1] eqn:Hb; [|done].
    eapply IH; [| |exact Hrun].
    + intros. eapply Hbody; eauto. by right.
    + eapply Hbody; eauto. by left.
Qed.

Section DiffAnswerFacts.
Variable run_git : list string -> string + string.
Variables repo_path repo_id : string.
Variable h : string.

Lemma same_diff_answer_refl g :
  same_diff_answer run_git repo_path repo_id h g g.
Proof. done. Qed.

Lemma same_diff_answer_trans g1 g2 g3 :
  same_diff_answer run_git repo_path repo_id h g1 g2 ->
  same_diff_answer run_git repo_path repo_id h g2 g3 ->
  same_diff_answer run_git repo_path repo_id h g1 g3.
Proof. unfold same_diff_answer. congruence. Qed.

(** Among the queries of the source, only the diff query of [h] uses
    the key of the diff query of [h]. *)
Lemma git_call_diff_key args k :
  git_call repo_path repo_id args k ->
  k = diff_key repo_id h -> args = diff_args repo_path h.
Proof.
  unfold diff_key, diff_args.
  destruct 1; simpl; intros Hk; try discriminate Hk.
  injection Hk as Hk. repeat (injection Hk as _ Hk).
  do 3 apply append_inj_l in Hk. by subst.
Qed.
End DiffAnswerFacts.

Section CommitStatsFacts.
Variable run_git : list string -> string + string.
Variables repo_path repo_id : string.
Variable reg : registry.
Variable fnmatch : string -> string -> bool.
Variable ignored_authors : gset (string * string).
Variables include_patterns exclude_patterns : list string.

Lemma git_same_diff_answer h args k :
  git_call repo_path repo_id args k ->
  preserves (same_diff_answer run_git repo_path repo_id h) (git run_git args k).
Proof.
  intros Hcall g. unfold same_diff_answer, answer_in. rewrite git_cache.
  destruct (_cache g !! k) eqn:Hk; [done|].
  destruct (run_git args) as [out|err] eqn:Hrun; [|done].
  destruct (decide (k = diff_key repo_id h)) as [Heq|Hne].
  - rewrite (git_call_diff_key repo_path repo_id h args k Hcall Heq) in Hrun.
    subst k. by rewrite lookup_insert_eq, Hk, Hrun.
  - by rewrite lookup_insert_ne.
Qed.

(** The diff query gives the non-whitespace files of the commit as the
    state of the cache answers. *)
Lemma get_commit_non_whitespace_files_result h g :
  (get_commit_non_whitespace_files run_git repo_path repo_id h g).1
  = Ok (non_ws_files_at run_git repo_path repo_id g h).
Proof.
  unfold get_commit_non_whitespace_files, non_ws_files_at, answer_in,
    diff_args, diff_key.
  rewrite M_bind_unfold. unfold try_except. rewrite M_bind_unfold.
  unfold git. destruct (_cache g !! _); [done|].
  by destruct (run_git _).
Qed.

Lemma add_commit_lookup (data : CommitsData) (author : Author)
    (c : string) (a : string * string) (s : gset string) :
  add_commit data author c !! a = Some s ->
  data !! a = Some s \/ exists s0, data !! a = Some s0 /\ s = {[c]} ∪ s0.
Proof.
  unfold add_commit. destruct (data !! author_key author) as [s0|] eqn:Hd;
    [|by left].
  destruct (decide (author_key author = a)) as [<-|Hne].
  - rewrite lookup_insert_eq. intros [= <-]. right. eauto.
  - rewrite lookup_insert_ne by done. by left.
Qed.

Lemma add_commit_other (h : string) (data : CommitsData) (author : Author) (c : string) :
  c <> h -> in_no_commit_set h data ->
  in_no_commit_set h (add_commit data author c).
Proof.
  intros Hne Hno a s Hs.
  destruct (add_commit_lookup _ _ _ _ _ Hs) as [Hd|(s0 & Hd & ->)].
  - by eapply Hno.
  - rewrite elem_of_union, elem_of_singleton.
    intros [?|?]; [congruence|]. by eapply Hno.
Qed.

Lemma add_commits_other (h : string) (co : list Author) (c : string) :
  c <> h ->
  forall data : CommitsData,
    in_no_commit_set h data ->
    in_no_commit_set h
      (fold_left (fun d co_author => add_commit d co_author c) co data).
Proof.
  intros Hne. induction co as [|x co IH]; intros data Hno; simpl; [done|].
  apply IH. by apply add_commit_other.
Qed.

(** Classifying the commit [c] puts no other hash in the commit sets. *)
Lemma classify_commit_other (h : string) (st : commit_stats) (c : string)
  (commit : Commit) (st' : commit_stats) :
  c <> h ->
  classify_commit reg ignored_authors st c commit = Ok st' ->
  in_no_commit_set h (alone_commits st) /\ in_no_commit_set h (collab_commits st) ->
  in_no_commit_set h (alone_commits st') /\ in_no_commit_set h (collab_commits st').
Proof.
  intros Hne Hcl [Ha Hc]. unfold classify_commit in Hcl.
  destruct (bool_decide _); [by injection Hcl as <-|].
  destruct (cached_co_authors _ _ _ _) as [[co cc]|e]; [|done].
  destruct (valid_co_authors_of _ co) as [|x valid] eqn:Hvalid;
    injection Hcl as <-; simpl; split; try done.
  - by apply add_commit_other.
  - apply (add_commits_other h (x :: valid) c Hne). by apply add_commit_other.
Qed.
End CommitStatsFacts.

Lemma no_non_whitespace_change (passes : string -> bool) (non_ws : gset string)
    (fs : list string) :
  forallb (fun f => negb (passes f) || negb (bool_decide (f ∈ non_ws))) fs = true ->
  existsb (fun f => bool_decide (f ∈ non_ws)) (List.filter passes fs) = false.
Proof.
  induction fs as [|f fs IH]; simpl; [done|].
  intros [Hf Hfs]%andb_prop. destruct (passes f); simpl in *; [|by apply IH].
  apply negb_true_iff in Hf. rewrite Hf. by apply IH.
Qed.

Lemma empty_per_student_in_no_set (h : string) (students : list Author) :
  in_no_commit_set h (empty_per_student ∅ students).
Proof.
  intros a s. unfold empty_per_student.
  rewrite (empty_per_student_lookup (∅ : gset string)).
  destruct (bool_decide _); [|by rewrite lookup_empty].
  intros [= <-]. apply not_elem_of_empty.
Qed.

Section WhitespaceOnlyFacts.
Variable run_git : list string -> string + string.
Variables repo_path repo_id : string.
Variable reg : registry.
Variable fnmatch : string -> string -> bool.
Variable ignored_authors : gset (string * string).
Variables include_patterns exclude_patterns : list string.
Variable h : string.
Variable g : globals.
Variable all_commits : list (string * list string).
Hypothesis whitespace_only :
  whitespace_only_commit fnmatch include_patterns exclude_patterns
    (non_ws_files_at run_git repo_path repo_id g h) h all_commits = true.

Lemma commit_step_keeps_invariant st entry gi st' gi' :
  In entry all_commits ->
  commit_loop_invariant run_git repo_path repo_id h g st gi ->
  commit_step run_git repo_path repo_id reg fnmatch ignored_authors
    include_patterns exclude_patterns st entry gi = (Ok st', gi') ->
  commit_loop_invariant run_git repo_path repo_id h g st' gi'.
Proof.
  intros Hin (HR & Hno) Hstep. split.
  { eapply same_diff_answer_trans; [exact HR|].
    pose proof (commit_step_preserves run_git repo_path repo_id reg fnmatch
                  (same_diff_answer run_git repo_path repo_id h)
                  (same_diff_answer_refl run_git repo_path repo_id h)
                  (same_diff_answer_trans run_git repo_path repo_id h)
                  (git_same_diff_answer run_git repo_path repo_id h)
                  ignored_authors include_patterns exclude_patterns
                  st entry gi) as Hp.
    by rewrite Hstep in Hp. }
  destruct entry as [c fs]. unfold commit_step in Hstep.
  destruct (List.filter _ fs) as [|f0 matching] eqn:Hmatch;
    [by injection Hstep as <- <-|].
  rewrite M_bind_unfold in Hstep.
  pose proof (get_commit_non_whitespace_files_result run_git repo_path repo_id
                c gi) as Hnw.
  destruct (get_commit_non_whitespace_files _ _ _ c gi) as [[nw|e] g1];
    [|done].
  simpl in Hnw. injection Hnw as ->.
  destruct (negb _) eqn:Hhas; [by injection Hstep as <- <-|].
  destruct (decide (c = h)) as [->|Hne].
  - exfalso. apply negb_false_iff in Hhas. rewrite <- Hmatch in Hhas.
    unfold whitespace_only_commit in whitespace_only.
    rewrite forallb_forall in whitespace_only.
    specialize (whitespace_only _ Hin). simpl in whitespace_only.
    rewrite String.eqb_refl in whitespace_only. simpl in whitespace_only.
    apply no_non_whitespace_change in whitespace_only.
    unfold passes_filters in whitespace_only.
    unfold non_ws_files_at in Hhas, whitespace_only.
    rewrite HR in Hhas. congruence.
  - rewrite M_bind_unfold in Hstep. unfold try_except in Hstep.
    rewrite M_bind_unfold in Hstep.
    destruct (get_commit _ _ _ _ c g1) as [[commit|e] g2].
    + simpl in Hstep. unfold lift in Hstep.
      destruct (classify_commit reg ignored_authors st c commit) as [st2|e]
        eqn:Hcl; [|done].
      injection Hstep as <- <-.
      by eapply classify_commit_other.
    + destruct (skip_commit_caught e); [|done].
      by injection Hstep as <- <-.
Qed.
End WhitespaceOnlyFacts.

(** C5 (as amended). When every path that a commit touched and that
    passes the include and exclude filters is outside the commit's set of
    files with a non-whitespace change, the commit's hash is in no
    contributor's set of Alone commits and in no contributor's set of Collab
    commits after commit attribution. In line attribution, a blame line
    whose content is blank is added to no bucket, whatever commit owns it;
    the deltas of the owning commit are not looked at. *)
Theorem whitespace_only_commit_not_attributed :
  forall (run_git : list string -> string + string)
         (repo_path repo_id : string) (reg : registry)
         (fnmatch : string -> string -> bool)
         (students_config : StudentsConfig)
         (ignored_authors : gset (string * string))
         (include_patterns exclude_patterns : list string)
         (coauthors_cache : gmap string (list Author))
         (h : string) (all_commits : list (string * list string))
         (g g0 g' : globals) (cs : commit_stats),
    get_all_commits run_git repo_path repo_id g = (Ok all_commits, g0) ->
    whitespace_only_commit fnmatch include_patterns exclude_patterns
      (non_ws_files_at run_git repo_path repo_id g h) h all_commits = true ->
    _collect_commit_stats run_git repo_path repo_id reg fnmatch students_config
      ignored_authors include_patterns exclude_patterns coauthors_cache g
      = (Ok cs, g') ->
    in_no_commit_set h (alone_commits cs)
    /\ in_no_commit_set h (collab_commits cs)
    /\ (forall tracked_file_path st commit content,
          PyStr.strip content = "" ->
          line_step reg ignored_authors tracked_file_path st (commit, content)
          = Ok st).
Proof.
  intros run_git repo_path repo_id reg fnmatch cfg ign inc exc cc h all_commits
    g g0 g' cs Hall Hws Hrun.
  unfold _collect_commit_stats in Hrun. rewrite M_bind_unfold, Hall in Hrun.
  assert (Hinv : commit_loop_invariant run_git repo_path repo_id h g cs g').
  { eapply (for_each_invariant
              (commit_loop_invariant run_git repo_path repo_id h g));
      [| |exact Hrun].
    - intros st entry gi st' gi' Hin HI Hstep.
      eapply commit_step_keeps_invariant; eauto.
    - split; [|split; simpl; apply empty_per_student_in_no_set].
      pose proof (get_all_commits_preserves run_git repo_path repo_id
                    (same_diff_answer run_git repo_path repo_id h)
                    (same_diff_answer_refl run_git repo_path repo_id h)
                    (same_diff_answer_trans run_git repo_path repo_id h)
                    (git_same_diff_answer run_git repo_path repo_id h) g) as Hp.
      by rewrite Hall in Hp. }
  destruct Hinv as (_ & Ha & Hc). split; [exact Ha|]. split; [exact Hc|].
  intros path st commit content Hblank. unfold line_step. by rewrite Hblank.
Qed.

Lemma whitespace_only_commit_not_attributed_witness :
  in_no_commit_set hash_H (alone_commits commit_stats_copied_line)
  /\ in_no_commit_set hash_H (collab_commits commit_stats_copied_line)
  /\ (forall tracked_file_path st commit content,
        PyStr.strip content = "" ->
        line_step demo_registry ∅ tracked_file_path st (commit, content) = Ok st).
Proof.
  apply (whitespace_only_commit_not_attributed git_copied_line "/repo" "org/repo"
           demo_registry fnmatch_glob roster_ann_bob ∅ ["src/*"] [] ∅
           hash_H history_copied_line empty_globals
           (get_all_commits git_copied_line "/repo" "org/repo" empty_globals).2
           (_collect_commit_stats git_copied_line "/repo" "org/repo"
              demo_registry fnmatch_glob roster_ann_bob ∅ ["src/*"] [] ∅
              empty_globals).2
           commit_stats_copied_line).
  - vm_compute. reflexivity.
  - vm_compute. reflexivity.
  - vm_compute. reflexivity.
Defined.

(** C5, counterexample. Every filter-matching path that commit [hash_H]
    touched ([src/b.py]) has a whitespace-only change, and [hash_H] is in no
    commit set; yet the blame of [src/a.py] gives its line of code to
    [hash_H], and line attribution adds that line to Ann's Alone lines. *)
Lemma whitespace_only_commit_owns_attributed_line :
  whitespace_only_commit fnmatch_glob ["src/*"] []
    (non_ws_files_at git_copied_line "/repo" "org/repo" empty_globals hash_H)
    hash_H history_copied_line = true
  /\ (get_all_commits git_copied_line "/repo" "org/repo" empty_globals).1
     = Ok history_copied_line
  /\ (exists tf c,
        (TrackedFile_get git_copied_line "/repo" "org/repo" demo_registry
           "src/a.py" "HEAD" empty_globals).1 = Ok tf
        /\ lines tf = [(c, code_line)] /\ hash c = hash_H)
  /\ (exists ls,
        (_collect_line_stats git_copied_line "/repo" "org/repo" demo_registry
           fnmatch_glob roster_ann_bob ∅ ["src/*"] [] empty_globals).1 = Ok ls
        /\ alone_lines ls !! author_key ann = Some {[ "src/a.py" := [code_line] ]}).
Proof.
  split; [vm_compute; reflexivity|].
  split; [vm_compute; reflexivity|].
  split.
  - eexists _, _. split; [vm_compute; reflexivity|]. split; reflexivity.
  - eexists. split; vm_compute; reflexivity.
Qed.

(** ** Errors of commit attribution *)

Section RaisesOnly.
Context {A B : Type}.
Variable P : exn -> Prop.

Lemma raises_only_ret (a : A) : raises_only P (mret a).
Proof. intros g e. discriminate. Qed.

Lemma raises_only_raise (e : exn) : P e -> raises_only P (@raise A e).
Proof. intros He g e' [= <-]. exact He. Qed.

Lemma raises_only_lift (r : result A) :
  (forall e, r = Raise e -> P e) -> raises_only P (lift r).
Proof. intros Hr g e H. by apply Hr. Qed.

Lemma raises_only_bind (m : M A) (k : A -> M B) :
  raises_only P m -> (forall a, raises_only P (k a)) ->
  raises_only P (x ← m; k x).
Proof.
  intros Hm Hk g e. rewrite M_bind_unfold. specialize (Hm g).
  destruct (m g) as [[a|e'] g1]; simpl in *.
  - apply Hk.
  - intros [= <-]. by apply Hm.
Qed.

Lemma raises_only_try_except (Q : exn -> Prop) (m : M A) catches
    (h : exn -> M A) :
  raises_only Q m ->
  (forall e, Q e -> catches e = false -> P e) ->
  (forall e, Q e -> catches e = true -> raises_only P (h e)) ->
  raises_only P (try_except m catches h).
Proof.
  intros Hm Hpass Hh g e. unfold try_except. specialize (Hm g).
  destruct (m g) as [[a|e'] g1]; simpl in *; [done|].
  destruct (catches e') eqn:Hc.
  - apply (Hh e'); [by apply Hm | exact Hc].
  - intros [= <-]. apply Hpass; [by apply Hm | exact Hc].
Qed.
End RaisesOnly.

Lemma raises_only_for_each {A S} (P : exn -> Prop) (body : S -> A -> M S)
    (l : list A) (s : S) :
  (forall s x, raises_only P (body s x)) -> raises_only P (for_each body l s).
Proof.
  intros Hb. revert s. induction l as [|x l IH]; intros s; simpl.
  - apply raises_only_ret.
  - apply raises_only_bind; [apply Hb | intros s'; apply IH].
Qed.

Lemma raises_only_weaken {A} (P Q : exn -> Prop) (m : M A) :
  (forall e, P e -> Q e) -> raises_only P m -> raises_only Q m.
Proof. intros HPQ Hm g e H. by apply HPQ, (Hm g). Qed.

Section CommitErrorFacts.
Variable run_git : list string -> string + string.
Variables repo_path repo_id : string.
Variable reg : registry.
Variable fnmatch : string -> string -> bool.
Variable ignored_authors : gset (string * string).
Variables include_patterns exclude_patterns : list string.

Lemma git_raises args k :
  raises_only (fun e => exists stderr, e = CalledProcessError stderr)
    (git run_git args k).
Proof.
  intros g e. unfold git. destruct (_cache g !! k); [done|].
  destruct (run_git args); [done|]. intros [= <-]. eauto.
Qed.

Lemma Commit_get_raises h :
  raises_only resolution_error (Commit_get run_git repo_path repo_id reg h).
Proof.
  unfold Commit_get. apply raises_only_bind.
  - eapply raises_only_try_except; [apply git_raises | |].
    + intros e [stderr ->]. done.
    + intros e _ _. by apply raises_only_raise.
  - intros out. apply raises_only_bind.
    + eapply raises_only_weaken; [|apply git_raises]. by intros e [stderr ->].
    + intros stdout. apply raises_only_bind; [|intros a; apply raises_only_ret].
      apply raises_only_lift. unfold Author_get.
      intros e. destruct (reg !! _); [done|]. by intros [= <-].
Qed.

Lemma get_commit_non_whitespace_files_raises h :
  raises_only (fun _ => False)
    (get_commit_non_whitespace_files run_git repo_path repo_id h).
Proof.
  intros g e.
  by rewrite (get_commit_non_whitespace_files_result run_git repo_path repo_id).
Qed.

Lemma co_author_of_line_raises self line e :
  co_author_of_line reg self line = Raise e -> co_author_error e.
Proof.
  unfold co_author_of_line.
  destruct (match_trailer _) as [[n|] [m|]]; try done.
  destruct (_ && _); [|done]. unfold Author_get.
  destruct (reg !! _); [done|]. intros [= <-]. by eexists _, _, _.
Qed.

Lemma co_authors_loop_raises self lines acc e :
  co_authors_loop reg self lines acc = Raise e -> co_author_error e.
Proof.
  revert acc. induction lines as [|line lines IH]; intros acc; simpl; [done|].
  destruct (co_author_of_line reg self line) as [r|e'] eqn:Hline; simpl.
  - apply IH.
  - intros [= <-]. by eapply co_author_of_line_raises.
Qed.

Lemma classify_commit_raises st h commit e :
  classify_commit reg ignored_authors st h commit = Raise e ->
  co_author_error e.
Proof.
  unfold classify_commit. destruct (bool_decide _); [done|].
  unfold cached_co_authors. destruct (_ !! h); simpl.
  - by destruct (valid_co_authors_of _ _).
  - destruct (get_co_authors reg commit) as [co|e'] eqn:Hco; simpl.
    + by destruct (valid_co_authors_of _ _).
    + intros [= <-]. by eapply co_authors_loop_raises.
Qed.

Lemma commit_step_raises st entry :
  raises_only commit_pass_error
    (commit_step run_git repo_path repo_id reg fnmatch ignored_authors
       include_patterns exclude_patterns st entry).
Proof.
  destruct entry as [h fs]. unfold commit_step.
  destruct (List.filter _ fs); [apply raises_only_ret|].
  apply raises_only_bind.
  { eapply raises_only_weaken;
      [|apply get_commit_non_whitespace_files_raises]. done. }
  intros nw. destruct (negb _); [apply raises_only_ret|].
  apply raises_only_bind.
  - eapply (raises_only_try_except _ resolution_error).
    + apply raises_only_bind; [apply Commit_get_raises|].
      intros c. apply raises_only_ret.
    + intros e He Hc. destruct e; simpl in *; try done. left. eauto.
    + intros e _ _. apply raises_only_ret.
  - intros [commit|]; [|apply raises_only_ret].
    apply raises_only_lift. intros e He. right.
    by eapply classify_commit_raises.
Qed.

Lemma _collect_commit_stats_raises cfg cc :
  raises_only commit_pass_error
    (_collect_commit_stats run_git repo_path repo_id reg fnmatch cfg
       ignored_authors include_patterns exclude_patterns cc).
Proof.
  unfold _collect_commit_stats. apply raises_only_bind.
  - unfold get_all_commits. apply raises_only_bind.
    + eapply raises_only_weaken; [|apply git_raises]. intros e He. by left.
    + intros out. destruct (fold_left _ _ _) as [[? ?] ?].
      apply raises_only_ret.
  - intros all_commits. apply raises_only_for_each.
    intros st entry. apply commit_step_raises.
Qed.

(** A completed iteration either left the statistics as they were, or
    classified a commit that was resolved. *)
Lemma commit_step_completed st h fs g st' g' :
  commit_step run_git repo_path repo_id reg fnmatch ignored_authors
    include_patterns exclude_patterns st (h, fs) g = (Ok st', g') ->
  st' = st
  \/ exists commit g1,
       Commit_get run_git repo_path repo_id reg h g1 = (Ok commit, g')
       /\ classify_commit reg ignored_authors st h commit = Ok st'.
Proof.
  unfold commit_step. destruct (List.filter _ fs);
    [intros [= <- <-]; by left|].
  rewrite M_bind_unfold.
  destruct (get_commit_non_whitespace_files _ _ _ h g) as [[nw|e] g1];
    [|done].
  destruct (negb _); [intros [= <- <-]; by left|].
  rewrite M_bind_unfold. unfold try_except. rewrite M_bind_unfold.
  unfold get_commit.
  destruct (Commit_get _ _ _ _ h g1) as [[commit|e] g2] eqn:Hget; simpl.
  - unfold lift.
    destruct (classify_commit _ _ st h commit) as [st2|e] eqn:Hcl; [|done].
    intros [= <- <-]. right. eauto.
  - destruct (skip_commit_caught e); [|done]. intros [= <- <-]. by left.
Qed.
End CommitErrorFacts.

(** C6 (as amended). Commit attribution over the full history is left
    only by the failure of a git command or by an identity error for a
    co-author trailer: a commit that is not found, or whose author is
    unknown, never ends it. An iteration that completes either leaves the
    statistics as they were (the commit was skipped) or classifies a commit
    that was resolved. An identity error raised for the co-author trailers
    of a resolved commit, whose author is not ignored and whose co-authors
    are not yet known, is not recovered: the classification raises it. *)
Theorem commit_resolution_errors_skip_the_commit :
  forall (run_git : list string -> string + string)
         (repo_path repo_id : string) (reg : registry)
         (fnmatch : string -> string -> bool)
         (students_config : StudentsConfig)
         (ignored_authors : gset (string * string))
         (include_patterns exclude_patterns : list string),
    (forall coauthors_cache g e,
        (_collect_commit_stats run_git repo_path repo_id reg fnmatch
           students_config ignored_authors include_patterns exclude_patterns
           coauthors_cache g).1 = Raise e ->
        commit_pass_error e)
    /\ (forall st h fs g st' g',
          commit_step run_git repo_path repo_id reg fnmatch ignored_authors
            include_patterns exclude_patterns st (h, fs) g = (Ok st', g') ->
          st' = st
          \/ exists commit g1,
               Commit_get run_git repo_path repo_id reg h g1 = (Ok commit, g')
               /\ classify_commit reg ignored_authors st h commit = Ok st')
    /\ (forall st h commit e,
          author_key (author commit) ∉ ignored_authors ->
          commit_coauthors_cache st !! h = None ->
          get_co_authors reg commit = Raise e ->
          classify_commit reg ignored_authors st h commit = Raise e).
Proof.
  intros. split; [|split].
  - intros cc g e. apply _collect_commit_stats_raises.
  - intros st h fs g st' g'. apply commit_step_completed.
  - intros st h commit e Hign Hcache Hco. unfold classify_commit.
    rewrite bool_decide_eq_false_2 by done.
    unfold cached_co_authors. by rewrite Hcache, Hco.
Qed.

Lemma commit_resolution_errors_skip_the_commit_witness :
  (_collect_commit_stats git_partly_unknown "/repo" "org/repo" demo_registry
     fnmatch_glob roster_ann_bob ∅ ["src/*"] [] ∅ empty_globals).1
  = Ok commit_stats_partly_unknown
  /\ analysis_alone_commits
       (analyze git_partly_unknown "/repo" "org/repo" demo_registry fnmatch_glob
          None gh_no_commits gh_summary_two gh_details_two gh_no_diff
          roster_ann_bob false empty_globals).1
     = Some (alone_commits commit_stats_partly_unknown)
  /\ (forall e,
        (_collect_commit_stats git_unknown_co_author "/repo" "org/repo"
           demo_registry fnmatch_glob roster_ann_bob ∅ ["src/*"] [] ∅
           empty_globals).1 = Raise e ->
        commit_pass_error e).
Proof.
  split; [vm_compute; reflexivity|].
  split; [vm_compute; reflexivity|].
  intros e.
  apply (commit_resolution_errors_skip_the_commit git_unknown_co_author "/repo"
           "org/repo" demo_registry fnmatch_glob roster_ann_bob ∅ ["src/*"] []).
Defined.

(** C6, counterexample. The only commit of the history is by Ann and
    names Zed, who is not in the roster, as co-author: commit attribution
    raises the identity error instead of skipping the commit, and the
    analysis of [main] ends with it. *)
Lemma unknown_co_author_ends_commit_attribution :
  (_collect_commit_stats git_unknown_co_author "/repo" "org/repo" demo_registry
     fnmatch_glob roster_ann_bob ∅ ["src/*"] [] ∅ empty_globals).1
  = Raise (UnknownAuthorError "Zed" "zed@x.com" "co-author in commit" "01234567")
  /\ (analyze git_unknown_co_author "/repo" "org/repo" demo_registry fnmatch_glob
        None gh_no_commits gh_summary_two gh_details_two gh_no_diff
        roster_ann_bob false empty_globals).1
     = Raise (UnknownAuthorError "Zed" "zed@x.com" "co-author in commit"
                "01234567").
Proof. split; vm_compute; reflexivity. Qed.

(** ** The identity registry *)

Lemma elem_of_alias_keys (all_names all_emails : list string) (n e : string) :
  (n, e) ∈ alias_keys all_names all_emails <-> n ∈ all_names /\ e ∈ all_emails.
Proof.
  unfold alias_keys. rewrite list_elem_of_bind. split.
  - intros (n' & Hin & Hn). apply list_elem_of_bind in Hin as (e' & Hin & He).
    apply list_elem_of_singleton in Hin. by injection Hin as -> ->.
  - intros [Hn He]. exists n. split; [|done].
    apply list_elem_of_bind. exists e. split; [|done].
    by apply list_elem_of_singleton.
Qed.

Lemma bool_decide_alias_keys (all_names all_emails : list string)
    (k : string * string) :
  bool_decide (k ∈ alias_keys all_names all_emails)
  = bool_decide (k.1 ∈ all_names /\ k.2 ∈ all_emails).
Proof. apply bool_decide_ext. destruct k as [n e]. apply elem_of_alias_keys. Qed.

(** The registry after the loops of [register_with_aliases]: a key that
    was taken keeps its entry, a free key among [keys] gets [registered]. *)
Lemma fold_register_key_lookup (registered : Author) (keys : list (string * string)) :
  forall (reg : registry) (k : string * string),
    fold_left (register_key registered) keys reg !! k =
      match reg !! k with
      | Some a => Some a
      | None => if bool_decide (k ∈ keys) then Some registered else None
      end.
Proof.
  induction keys as [|key keys IH]; intros reg k.
  - simpl. by destruct (reg !! k).
  - cbn [fold_left]. rewrite IH. unfold register_key.
    destruct (decide (k = key)) as [->|Hne].
    + destruct (reg !! key) as [a|] eqn:Hkey.
      * by rewrite Hkey.
      * rewrite lookup_insert_eq.
        rewrite bool_decide_eq_true_2; [done|]. by apply list_elem_of_here.
    + assert (bool_decide (k ∈ key :: keys) = bool_decide (k ∈ keys)) as ->.
      { apply bool_decide_ext. rewrite elem_of_cons. naive_solver. }
      destruct (reg !! key) as [a|] eqn:Hkey; [done|].
      by rewrite lookup_insert_ne.
Qed.

(** The registry after [Author.register_with_aliases], key by key. *)
Lemma register_with_aliases_lookup (author : Author) (reg : registry)
    (k : string * string) :
  (Author_register_with_aliases author reg).2 !! k =
    match reg !! k with
    | Some a => Some a
    | None =>
        if bool_decide (k.1 ∈ name author :: other_names author
                        /\ k.2 ∈ email author :: other_emails author)
        then Some (Author_register_with_aliases author reg).1 else None
    end.
Proof.
  unfold Author_register_with_aliases, Author_register, author_key.
  destruct (reg !! (name author, email author)) as [a|] eqn:Hprimary;
    cbn [fst snd]; rewrite fold_register_key_lookup.
  - destruct (reg !! k); [done|]. by rewrite bool_decide_alias_keys.
  - destruct (decide (k = (name author, email author))) as [->|Hne].
    + rewrite lookup_insert_eq, Hprimary.
      rewrite bool_decide_eq_true_2; [done|].
      split; apply list_elem_of_here.
    + rewrite lookup_insert_ne by done.
      destruct (reg !! k); [done|]. by rewrite bool_decide_alias_keys.
Qed.

Lemma register_with_aliases_registered (author : Author) (reg : registry) :
  (Author_register_with_aliases author reg).1
  = default author (reg !! author_key author).
Proof.
  unfold Author_register_with_aliases, Author_register, author_key.
  by destruct (reg !! (name author, email author)).
Qed.

Lemma register_with_aliases_subseteq (author : Author) (reg : registry) :
  reg ⊆ (Author_register_with_aliases author reg).2.
Proof.
  apply map_subseteq_spec. intros k a Hk.
  by rewrite register_with_aliases_lookup, Hk.
Qed.

(** X1. [Author.register_with_aliases] returns the entry that the primary
    key already had, or else the new record; it keeps every entry that was
    in the registry; afterwards every combination of one of the names with
    one of the emails resolves, to the entry it had before or else to the
    returned record; and no other key changes. *)
Theorem register_with_aliases_resolves :
  forall (author : Author) (reg : registry),
    let registered := (Author_register_with_aliases author reg).1 in
    let reg' := (Author_register_with_aliases author reg).2 in
    registered = default author (reg !! author_key author)
    /\ reg ⊆ reg'
    /\ (forall n e,
          n ∈ name author :: other_names author ->
          e ∈ email author :: other_emails author ->
          reg' !! (n, e) = Some (default registered (reg !! (n, e))))
    /\ (forall k,
          ~ (k.1 ∈ name author :: other_names author
             /\ k.2 ∈ email author :: other_emails author) ->
          reg' !! k = reg !! k).
Proof.
  intros author reg registered reg'. subst registered reg'.
  split; [|split; [|split]].
  - apply register_with_aliases_registered.
  - apply register_with_aliases_subseteq.
  - intros n e Hn He. rewrite register_with_aliases_lookup. cbn [fst snd].
    destruct (reg !! (n, e)); [done|].
    by rewrite bool_decide_eq_true_2.
  - intros k Hk. rewrite register_with_aliases_lookup.
    destruct (reg !! k); [done|].
    by rewrite bool_decide_eq_false_2.
Qed.

Lemma canonical_empty : canonical ∅.
Proof. intros k a Hk. by rewrite lookup_empty in Hk. Qed.

Lemma register_with_aliases_canonical (author : Author) (reg : registry) :
  canonical reg ->
  canonical (Author_register_with_aliases author reg).2
  /\ (Author_register_with_aliases author reg).2
       !! author_key (Author_register_with_aliases author reg).1
     = Some (Author_register_with_aliases author reg).1.
Proof.
  intros Hcan.
  assert ((Author_register_with_aliases author reg).2
            !! author_key (Author_register_with_aliases author reg).1
          = Some (Author_register_with_aliases author reg).1) as Hreg.
  { rewrite register_with_aliases_lookup.
    rewrite !(register_with_aliases_registered author reg).
    destruct (reg !! author_key author) as [x|] eqn:Hprimary;
      cbn [default from_option id].
    - by rewrite (Hcan _ _ Hprimary).
    - rewrite Hprimary. rewrite bool_decide_eq_true_2; [done|].
      split; apply list_elem_of_here. }
  split; [|done].
  intros k a Hk. rewrite register_with_aliases_lookup in Hk.
  destruct (reg !! k) as [x|] eqn:Hold.
  - injection Hk as ->.
    apply (lookup_weaken reg); [by eapply Hcan|].
    apply register_with_aliases_subseteq.
  - destruct (bool_decide _); [|done]. by injection Hk as <-.
Qed.

Ltac rbind_in H := unfold mbind, result_bind in H; cbv beta iota in H.
Ltac rbind := unfold mbind, result_bind; cbv beta iota.

Section ConfigLoops.
Variable py_repr : json -> string.

Lemma enumerate_from_invariant {St} (I : St -> Prop)
    (body : nat -> json -> St -> result St) (l : list json) :
  (forall i x s s', I s -> body i x s = Ok s' -> I s') ->
  forall i s s', I s -> enumerate_from body i l s = Ok s' -> I s'.
Proof.
  intros Hbody. induction l as [|x l IH]; intros i s s' HI Hrun; simpl in Hrun.
  - by injection Hrun as <-.
  - destruct (body i x s) as [s1|e] eqn:Hb; [|done].
    eapply IH; [|exact Hrun]. by eapply Hbody.
Qed.

Lemma enumerate_from_raises {St} (P : exn -> Prop)
    (body : nat -> json -> St -> result St) (l : list json) :
  (forall i x s e, body i x s = Raise e -> P e) ->
  forall i s e, enumerate_from body i l s = Raise e -> P e.
Proof.
  intros Hbody. induction l as [|x l IH]; intros i s e Hrun; simpl in Hrun.
  - done.
  - destruct (body i x s) as [s1|e1] eqn:Hb.
    + by eapply IH.
    + injection Hrun as <-. by eapply Hbody.
Qed.

Lemma registration_keeps_roster (reg0 : registry) (before gathered : list Author)
    (a : Author) (reg : registry) :
  roster_resolves reg0 before (gathered, reg) ->
  roster_resolves reg0 before
    (gathered ++ [(Author_register_with_aliases a reg).1],
     (Author_register_with_aliases a reg).2).
Proof.
  intros (Hcan & Hsub & Hres). cbn [fst snd] in *.
  destruct (register_with_aliases_canonical a reg Hcan) as [Hcan' Hreg].
  split; [done|]. split.
  - etransitivity; [exact Hsub|]. apply register_with_aliases_subseteq.
  - intros s Hs. cbn [fst snd] in *. rewrite app_assoc in Hs.
    apply elem_of_app in Hs as [Hs|Hs].
    + apply (lookup_weaken reg); [by apply Hres|].
      apply register_with_aliases_subseteq.
    + apply list_elem_of_singleton in Hs as ->. exact Hreg.
Qed.

Lemma student_step_keeps_roster reg0 before i x acc acc' :
  roster_resolves reg0 before acc ->
  student_step py_repr i x acc = Ok acc' ->
  roster_resolves reg0 before acc'.
Proof.
  intros Hinv Hstep. destruct acc as [students reg]. unfold student_step in Hstep.
  destruct x as [| | | | |s]; try done.
  destruct (missing_or_empty "id" s); [done|].
  destruct (missing_or_empty "name" s); [done|].
  destruct (missing_or_empty "email" s); [done|].
  destruct (jget "github_username" s) as [gh|]; [|done].
  destruct (aliases_of (jget "other_names" s)) as [ns|]; [|done].
  rbind_in Hstep.
  destruct (aliases_of (jget "other_emails" s)) as [es|]; [|done].
  rbind_in Hstep.
  match type of Hstep with
  | context [Author_register_with_aliases ?a reg] =>
      pose proof (registration_keeps_roster reg0 before students a reg Hinv) as H;
      destruct (Author_register_with_aliases a reg) as [registered reg']
  end.
  by injection Hstep as <-.
Qed.

Lemma ignore_step_keeps_roster reg0 before i x acc acc' :
  roster_resolves reg0 before acc ->
  ignore_step py_repr i x acc = Ok acc' ->
  roster_resolves reg0 before acc'.
Proof.
  intros Hinv Hstep. destruct acc as [ignored reg]. unfold ignore_step in Hstep.
  destruct x as [| | | | |s]; try done.
  destruct (missing_or_empty "name" s); [done|].
  destruct (jget "email" s) as [em|]; [|done].
  destruct (aliases_of (jget "other_names" s)) as [ns|]; [|done].
  rbind_in Hstep.
  destruct (aliases_of (jget "other_emails" s)) as [es|]; [|done].
  rbind_in Hstep.
  match type of Hstep with
  | context [Author_register_with_aliases ?a reg] =>
      pose proof (registration_keeps_roster reg0 before ignored a reg Hinv) as H;
      destruct (Author_register_with_aliases a reg) as [registered reg']
  end.
  by injection Hstep as <-.
Qed.

Lemma aliases_of_raises field e :
  aliases_of field = Raise e -> e = TypeError.
Proof.
  unfold aliases_of. destruct field as [v|]; [|done].
  destruct (py_truthy v); [|done].
  destruct (py_list v) as [items|e1] eqn:Hlist; rbind.
  - clear Hlist. induction items as [|x items IH]; [done|].
    destruct x as [| b | n | s | its | ms]; cbn [alias_strings];
      try apply IH; try by intros [= <-].
    rbind. destruct (alias_strings items); [done|].
    intros [= <-]. by apply IH.
  - intros [= <-]. destruct v; cbn in Hlist; congruence.
Qed.

Lemma student_step_raises i x acc e :
  student_step py_repr i x acc = Raise e -> config_failure e.
Proof.
  destruct acc as [students reg]. unfold student_step, entry_error, config_error.
  destruct x as [| | | | |s]; try by intros [= <-].
  destruct (missing_or_empty "id" s); [by intros [= <-]|].
  destruct (missing_or_empty "name" s); [by intros [= <-]|].
  destruct (missing_or_empty "email" s); [by intros [= <-]|].
  destruct (jget "github_username" s) as [gh|]; [|by intros [= <-]].
  destruct (aliases_of (jget "other_names" s)) as [ns|e1] eqn:Hns; rbind.
  2:{ intros [= <-]. by rewrite (aliases_of_raises _ _ Hns). }
  destruct (aliases_of (jget "other_emails" s)) as [es|e1] eqn:Hes; rbind.
  2:{ intros [= <-]. by rewrite (aliases_of_raises _ _ Hes). }
  by destruct (Author_register_with_aliases _ reg).
Qed.

Lemma ignore_step_raises i x acc e :
  ignore_step py_repr i x acc = Raise e -> config_failure e.
Proof.
  destruct acc as [ignored reg]. unfold ignore_step, entry_error, config_error.
  destruct x as [| | | | |s]; try by intros [= <-].
  destruct (missing_or_empty "name" s); [by intros [= <-]|].
  destruct (jget "email" s) as [em|]; [|by intros [= <-]].
  destruct (aliases_of (jget "other_names" s)) as [ns|e1] eqn:Hns; rbind.
  2:{ intros [= <-]. by rewrite (aliases_of_raises _ _ Hns). }
  destruct (aliases_of (jget "other_emails" s)) as [es|e1] eqn:Hes; rbind.
  2:{ intros [= <-]. by rewrite (aliases_of_raises _ _ Hes). }
  by destruct (Author_register_with_aliases _ reg).
Qed.
End ConfigLoops.

(** X2. When the registry is canonical before (as the empty registry is)
    and [StudentsConfig.from_dict] succeeds, the registry is canonical
    after, it still has every entry it had, and every author of the roster
    and of the ignore list resolves to itself: [Author.get] on its name and
    email returns it and does not raise. *)
Theorem from_dict_roster_resolves :
  forall (py_repr : json -> string) (data : list (string * json))
         (reg0 reg : registry) (cfg : StudentsConfig),
    canonical reg0 ->
    from_dict py_repr data reg0 = Ok (cfg, reg) ->
    canonical reg /\ reg0 ⊆ reg
    /\ forall s, s ∈ students cfg ++ ignore cfg ->
         forall context_type context_detail,
           Author_get reg (name s) (email s) context_type context_detail = Ok s.
Proof.
  intros py_repr data reg0 reg cfg Hcan Hload. unfold from_dict in Hload.
  destruct (jget "students" data) as [[| | | |students_raw|]|]; try done.
  destruct (enumerate_from (student_step py_repr) 0 students_raw ([], reg0))
    as [[sts reg1]|] eqn:Hstudents; [|done]. cbn in Hload.
  destruct (jget "ignore" data) as [[| | | |ignore_raw|]|]; try done.
  destruct (enumerate_from (ignore_step py_repr) 0 ignore_raw ([], reg1))
    as [[ign reg2]|] eqn:Hignore; [|done]. cbn in Hload.
  destruct (default (JObj []) (jget "files" data)) as [| | | | |files_config];
    try done.
  destruct (patterns_of py_repr "include" "include" files_config); [|done].
  destruct (patterns_of py_repr "exclude" "exclude" files_config); [|done].
  cbn in Hload. injection Hload as <- <-. cbn [students ignore].
  assert (roster_resolves reg0 [] (sts, reg1)) as H1.
  { eapply (enumerate_from_invariant (roster_resolves reg0 []));
      [|
       |exact Hstudents].
    - intros i x s s'. apply student_step_keeps_roster.
    - split; [done|]. split; [done|]. intros s Hs. by apply elem_of_nil in Hs. }
  assert (roster_resolves reg0 sts (ign, reg2)) as H2.
  { eapply (enumerate_from_invariant (roster_resolves reg0 sts));
      [|
       |exact Hignore].
    - intros i x s s'. apply ignore_step_keeps_roster.
    - destruct H1 as (Hc1 & Hs1 & Hr1). cbn [fst snd] in *.
      split; [done|]. split; [done|]. intros s Hs. apply Hr1.
      by rewrite app_nil_r in Hs. }
  destruct H2 as (Hc2 & Hs2 & Hr2). cbn [fst snd] in *.
  split; [done|]. split; [done|].
  intros s Hs ct cd. unfold Author_get.
  by rewrite (Hr2 s Hs : reg2 !! (name s, email s) = Some s).
Qed.

Lemma from_dict_roster_resolves_witness :
  Author_get (Author_register_with_aliases ann_alias ∅).2
    "Ann" "ann@x.com" "commit" "01234567" = Ok ann_alias.
Proof.
  assert (from_dict repr_unused config_ann_alias ∅
          = Ok ({| students := [ann_alias]; ignore := [];
                   include_patterns := []; exclude_patterns := [] |},
                (Author_register_with_aliases ann_alias ∅).2)) as Hload
    by (vm_compute; reflexivity).
  destruct (from_dict_roster_resolves repr_unused config_ann_alias ∅ _ _
              canonical_empty Hload) as (_ & _ & H).
  apply (H ann_alias). cbn. apply list_elem_of_here.
Defined.

(** X3. [StudentsConfig.from_dict] fails only with a configuration error
    or with [TypeError]; and it does fail with [TypeError] (not with a
    configuration error) when the first student entry is complete and its
    "other_names" is a number other than zero. *)
Theorem from_dict_failures :
  forall (py_repr : json -> string) (data : list (string * json))
         (reg : registry),
    (forall e, from_dict py_repr data reg = Raise e -> config_failure e)
    /\ (forall s rest n,
          jget "students" data = Some (JArr (JObj s :: rest)) ->
          missing_or_empty "id" s = false ->
          missing_or_empty "name" s = false ->
          missing_or_empty "email" s = false ->
          is_Some (jget "github_username" s) ->
          jget "other_names" s = Some (JNum n) -> n <> 0%Z ->
          from_dict py_repr data reg = Raise TypeError).
Proof.
  intros py_repr data reg. split.
  - intros e Hload. unfold from_dict, config_error in Hload.
    destruct (jget "students" data) as [[| | | |students_raw|]|];
      try by injection Hload as <-.
    destruct (enumerate_from (student_step py_repr) 0 students_raw ([], reg))
      as [[sts reg1]|e1] eqn:Hstudents; cbn in Hload.
    2:{ injection Hload as <-.
        eapply (enumerate_from_raises config_failure); [|exact Hstudents].
        intros i x s e. apply student_step_raises. }
    destruct (jget "ignore" data) as [[| | | |ignore_raw|]|];
      try by injection Hload as <-.
    destruct (enumerate_from (ignore_step py_repr) 0 ignore_raw ([], reg1))
      as [[ign reg2]|e1] eqn:Hignore; cbn in Hload.
    2:{ injection Hload as <-.
        eapply (enumerate_from_raises config_failure); [|exact Hignore].
        intros i x s e. apply ignore_step_raises. }
    destruct (default (JObj []) (jget "files" data)) as [| | | | |files_config];
      try by injection Hload as <-.
    unfold patterns_of, config_error in Hload.
    destruct (jget "include" files_config) as [[| | | |inc|]|]; cbn in Hload;
      try (by injection Hload as <-);
      destruct (jget "exclude" files_config) as [[| | | |exc|]|]; cbn in Hload;
      try (by injection Hload as <-); done.
  - intros s rest n Hstudents Hid Hname Hemail [gh Hgh] Hnames Hn.
    assert (student_step py_repr 0 (JObj s) ([], reg) = Raise TypeError) as Hstep.
    { unfold student_step. rewrite Hid, Hname, Hemail, Hgh, Hnames.
      cbn. by destruct (n =? 0)%Z eqn:Hz; [apply Z.eqb_eq in Hz|]. }
    unfold from_dict. rewrite Hstudents. cbn [enumerate_from].
    by rewrite Hstep.
Qed.

Lemma from_dict_failures_witness :
  config_failure TypeError
  /\ from_dict repr_unused config_alias_number ∅ = Raise TypeError.
Proof.
  destruct (from_dict_failures repr_unused config_alias_number ∅) as [H1 H2].
  assert (from_dict repr_unused config_alias_number ∅ = Raise TypeError) as H.
  { eapply H2; try reflexivity; [by eexists|lia]. }
  split; [by apply (H1 TypeError)|exact H].
Defined.

(** ** Commits *)

(** The loop that drops the empty lines at the end of a message drops
    empty lines only, and leaves no empty line at the end. *)
Lemma pop_empty_tail_spec (l : list string) :
  exists k, l = pop_empty_tail l ++ replicate k "".
Proof.
  induction l as [|x l [k IH]]; [by exists 0|]. cbn [pop_empty_tail].
  destruct (pop_empty_tail l) as [|y p] eqn:Hp.
  - destruct x as [|c x]; cbn [PyStr.truthy].
    + exists (S k). by rewrite IH at 1.
    + exists k. by rewrite IH at 1.
  - exists k. by rewrite IH at 1.
Qed.

Lemma pop_empty_tail_last (l : list string) :
  last (pop_empty_tail l) <> Some "".
Proof.
  induction l as [|x l IH]; [done|]. cbn [pop_empty_tail].
  destruct (pop_empty_tail l) as [|y p] eqn:Hp.
  - by destruct x.
  - by rewrite last_cons_cons.
Qed.

Section CommitFacts.
Variable run_git : list string -> string + string.
Variables repo_path repo_id : string.
Variable reg : registry.

(** The three steps of [Commit.get], with the state after each. *)
Lemma Commit_get_unfold (h : string) (g : globals) :
  Commit_get run_git repo_path repo_id reg h g =
    match git run_git ["-C"; repo_path; "rev-parse"; h]
              (rev_parse_key repo_id h) g with
    | (Raise e, g1) =>
        if is_CalledProcessError e then (Raise (CommitNotFoundError h), g1)
        else (Raise e, g1)
    | (Ok out, g1) =>
        match git run_git
                ["-C"; repo_path; "show"; "-s"; "--format=%aN%n%aE%n%as%n%B";
                 PyStr.strip out]
                ("commit:" +:+ PyStr.strip out) g1 with
        | (Raise e, g2) => (Raise e, g2)
        | (Ok stdout, g2) =>
            let lines := PyStr.splitlines stdout in
            match reg !! (nth_line lines 0, nth_line lines 1) with
            | None =>
                (Raise (UnknownAuthorError (nth_line lines 0) (nth_line lines 1)
                          "commit" (PyStr.take 8 (PyStr.strip out))), g2)
            | Some a =>
                (Ok {| hash := PyStr.strip out; author := a;
                       date := nth_line lines 2;
                       message_lines := pop_empty_tail (drop 3 lines) |}, g2)
            end
        end
    end.
Proof.
  unfold Commit_get, rev_parse_key. rewrite M_bind_unfold. unfold try_except.
  destruct (git run_git ["-C"; repo_path; "rev-parse"; h] _ g)
    as [[out|e] g1]; [|by destruct (is_CalledProcessError e)].
  rewrite M_bind_unfold.
  destruct (git run_git _ ("commit:" +:+ PyStr.strip out) g1)
    as [[stdout|e] g2]; [|done].
  rewrite M_bind_unfold. unfold lift, Author_get.
  by destruct (reg !! _).
Qed.
End CommitFacts.

(** X4. A commit that [Commit.get] returns is read off two cache entries
    that are present afterwards: its hash is the stripped answer stored
    under the resolution key of the given ref, and the text stored under
    the detail key of that hash gives, line by line, the name and email
    under which the registry has its author, its date, and its message. The
    message is the rest of the text without the empty lines at its end:
    only empty lines are dropped, and the last message line is not empty. *)
Theorem commit_is_read_off_the_cache :
  forall (run_git : list string -> string + string)
         (repo_path repo_id : string) (reg : registry)
         (h : string) (g g' : globals) (c : Commit),
    Commit_get run_git repo_path repo_id reg h g = (Ok c, g') ->
    exists out stdout,
      _cache g' !! rev_parse_key repo_id h = Some out
      /\ hash c = PyStr.strip out
      /\ _cache g' !! ("commit:" +:+ hash c) = Some stdout
      /\ reg !! (nth_line (PyStr.splitlines stdout) 0,
                 nth_line (PyStr.splitlines stdout) 1) = Some (author c)
      /\ date c = nth_line (PyStr.splitlines stdout) 2
      /\ (exists k, drop 3 (PyStr.splitlines stdout)
                    = message_lines c ++ replicate k "")
      /\ last (message_lines c) <> Some "".
Proof.
  intros run_git repo_path repo_id reg h g g' c Hget.
  rewrite Commit_get_unfold in Hget.
  destruct (git run_git ["-C"; repo_path; "rev-parse"; h] _ g)
    as [[out|e] g1] eqn:Hrev; [|by destruct (is_CalledProcessError e)].
  destruct (git run_git _ ("commit:" +:+ PyStr.strip out) g1)
    as [[stdout|e] g2] eqn:Hshow; [|done].
  cbv zeta in Hget.
  destruct (reg !! _) as [a|] eqn:Hreg; [|done].
  injection Hget as <- <-. cbn [hash author date message_lines].
  exists out, stdout. repeat split.
  - apply (lookup_weaken (_cache g1)); [by eapply git_Ok_stored|].
    replace g2 with (git run_git
      ["-C"; repo_path; "show"; "-s"; "--format=%aN%n%aE%n%as%n%B";
       PyStr.strip out] ("commit:" +:+ PyStr.strip out) g1).2
      by (by rewrite Hshow).
    apply git_mono.
  - by eapply git_Ok_stored.
  - exact Hreg.
  - apply pop_empty_tail_spec.
  - apply pop_empty_tail_last.
Qed.

Lemma commit_is_read_off_the_cache_witness :
  exists out stdout,
    _cache (Commit_get git_small "/repo" "org/repo" demo_registry "HEAD"
              empty_globals).2 !! rev_parse_key "org/repo" "HEAD" = Some out
    /\ hash_H = PyStr.strip out
    /\ _cache (Commit_get git_small "/repo" "org/repo" demo_registry "HEAD"
                 empty_globals).2 !! ("commit:" +:+ hash_H) = Some stdout
    /\ demo_registry !! (nth_line (PyStr.splitlines stdout) 0,
                         nth_line (PyStr.splitlines stdout) 1) = Some ann
    /\ "2024-01-01" = nth_line (PyStr.splitlines stdout) 2
    /\ (exists k, drop 3 (PyStr.splitlines stdout)
                  = ["Add parser"] ++ replicate k "")
    /\ last ["Add parser"] <> Some "".
Proof.
  apply (commit_is_read_off_the_cache git_small "/repo" "org/repo"
           demo_registry "HEAD" empty_globals _
           {| hash := hash_H; author := ann; date := "2024-01-01";
              message_lines := ["Add parser"] |}).
  vm_compute. reflexivity.
Defined.

(** X5. [Commit.get] fails in three ways only. It raises
    [CommitNotFoundError] for the given ref when the resolution is not
    cached and the command fails, and then changes nothing. When the ref
    resolves but the detail query of the resolved hash fails, the error of
    the command leaves as it is ([CalledProcessError], not
    [CommitNotFoundError]). When the first two lines of the detail text are
    not a registered name and email, it raises [UnknownAuthorError] for
    them, with the context "commit" and the first eight characters of the
    resolved hash. *)
Theorem commit_get_failures :
  forall (run_git : list string -> string + string)
         (repo_path repo_id : string) (reg : registry)
         (h : string) (g g' : globals) (e : exn),
    Commit_get run_git repo_path repo_id reg h g = (Raise e, g') ->
    (e = CommitNotFoundError h /\ g' = g
     /\ _cache g !! rev_parse_key repo_id h = None
     /\ exists stderr, run_git ["-C"; repo_path; "rev-parse"; h] = inr stderr)
    \/ (exists out stderr,
          _cache g' !! rev_parse_key repo_id h = Some out
          /\ _cache g' !! ("commit:" +:+ PyStr.strip out) = None
          /\ run_git ["-C"; repo_path; "show"; "-s";
                      "--format=%aN%n%aE%n%as%n%B"; PyStr.strip out]
             = inr stderr
          /\ e = CalledProcessError stderr)
    \/ (exists out stdout,
          _cache g' !! rev_parse_key repo_id h = Some out
          /\ _cache g' !! ("commit:" +:+ PyStr.strip out) = Some stdout
          /\ reg !! (nth_line (PyStr.splitlines stdout) 0,
                     nth_line (PyStr.splitlines stdout) 1) = None
          /\ e = UnknownAuthorError (nth_line (PyStr.splitlines stdout) 0)
                   (nth_line (PyStr.splitlines stdout) 1) "commit"
                   (PyStr.take 8 (PyStr.strip out))).
Proof.
  intros run_git repo_path repo_id reg h g g' e Hget.
  rewrite Commit_get_unfold in Hget.
  destruct (git run_git ["-C"; repo_path; "rev-parse"; h] _ g)
    as [[out|e1] g1] eqn:Hrev.
  2:{ left. apply git_Raise in Hrev as (-> & Hmiss & stderr & Hrun & ->).
      cbn in Hget. injection Hget as <- <-. eauto. }
  destruct (git run_git _ ("commit:" +:+ PyStr.strip out) g1)
    as [[stdout|e1] g2] eqn:Hshow.
  2:{ right. left. injection Hget as <- <-.
      pose proof (git_Ok_stored _ _ _ _ _ _ Hrev) as Hstored.
      apply git_Raise in Hshow as (-> & Hmiss & stderr & Hrun & ->).
      exists out, stderr. eauto. }
  cbv zeta in Hget.
  destruct (reg !! _) as [a|] eqn:Hreg; [done|].
  right. right. injection Hget as <- <-. exists out, stdout.
  split; [|split; [by eapply git_Ok_stored|by split]].
  apply (lookup_weaken (_cache g1)); [by eapply git_Ok_stored|].
  replace g2 with (git run_git
    ["-C"; repo_path; "show"; "-s"; "--format=%aN%n%aE%n%as%n%B";
     PyStr.strip out] ("commit:" +:+ PyStr.strip out) g1).2
    by (by rewrite Hshow).
  apply git_mono.
Qed.

Lemma commit_get_failures_witness :
  (Commit_get git_nothing_local "/repo" "org/repo" demo_registry hash_missing
     empty_globals).1 = Raise (CommitNotFoundError hash_missing)
  /\ (Commit_get git_foreign_author "/repo" "org/repo" demo_registry hash_H
        empty_globals).1
     = Raise (UnknownAuthorError "Carol" "carol@x.com" "commit" "01234567").
Proof.
  split.
  - destruct (commit_get_failures git_nothing_local "/repo" "org/repo"
                demo_registry hash_missing empty_globals empty_globals
                (CommitNotFoundError hash_missing))
      as [H | [H | H]]; [vm_compute; reflexivity | | |].
    + vm_compute. reflexivity.
    + vm_compute. reflexivity.
    + vm_compute. reflexivity.
  - vm_compute. reflexivity.
Defined.

(** ** The history of the process cache *)

Lemma cache_history_refl g : cache_history g g.
Proof. by repeat split. Qed.

Lemma cache_history_trans g1 g2 g3 :
  cache_history g1 g2 -> cache_history g2 g3 -> cache_history g1 g3.
Proof.
  intros (Hc1 & Hp1 & Hd1 & Hk1) (Hc2 & Hp2 & Hd2 & Hk2).
  split; [by etransitivity|]. split; [by etransitivity|].
  split; [by auto|]. intros Hclean.
  destruct (Hk2 Hclean) as [-> ->].
  apply Hk1. destruct (_cache_dirty g2) eqn:Hd; [|done].
  by rewrite Hd2 in Hclean.
Qed.

Lemma git_cache_history run_git args k :
  preserves cache_history (git run_git args k).
Proof.
  intros g. unfold git. destruct (_cache g !! k) eqn:Hk.
  - apply cache_history_refl.
  - destruct (run_git args); [|apply cache_history_refl]. cbn.
    split; [by apply insert_subseteq|]. by repeat split.
Qed.

Lemma cache_step_cache_history repo_id acc pr :
  preserves cache_history (cache_step repo_id acc pr).
Proof.
  intros g. unfold cache_step. cbn [snd].
  destruct (negb (is_open pr)); [|apply cache_history_refl].
  unfold cache_history. cbn [_cache _pr_cache _cache_dirty].
  split; [done|]. split; [|by repeat split].
  rewrite dom_insert_L. set_solver.
Qed.

(** The layers above the git queries, for a relation on the globals that
    the queries and the caching of a request keep. *)
Section AnalysisPreserves.
Variable run_git : list string -> string + string.
Variables repo_path repo_id : string.
Variable reg : registry.
Variable fnmatch : string -> string -> bool.
Variable which_gh : option string.
Variable gh_pr_view_commits : Z -> result (option (list gh_commit)).
Variable gh_pr_list_summary : result (list (option Z * option string)).
Variable gh_pr_list_details : result (list gh_pr).
Variable gh_pr_diff : Z -> option string.
Variable R : globals -> globals -> Prop.
Hypothesis R_refl : forall g, R g g.
Hypothesis R_trans : forall g1 g2 g3, R g1 g2 -> R g2 g3 -> R g1 g3.
Hypothesis git_R :
  forall args k, git_call repo_path repo_id args k ->
                 preserves R (git run_git args k).
Hypothesis cache_step_R :
  forall acc pr, preserves R (cache_step repo_id acc pr).

Lemma _collect_line_stats_preserves cfg ign inc exc :
  preserves R (_collect_line_stats run_git repo_path repo_id reg fnmatch
                 cfg ign inc exc).
Proof.
  unfold _collect_line_stats.
  apply (preserves_for_each R R_refl R_trans). intros st pattern.
  apply (for_TrackedFile_files_preserves run_git repo_path repo_id reg fnmatch
           R R_refl R_trans git_R).
  intros st' tf. unfold tracked_file_step.
  destruct (should_exclude fnmatch exc (path tf)).
  - apply (preserves_ret R R_refl).
  - apply (preserves_lift R R_refl).
Qed.

Lemma get_pull_requests_preserves :
  preserves R (get_pull_requests run_git repo_path repo_id reg which_gh
                 gh_pr_view_commits gh_pr_list_summary gh_pr_list_details
                 gh_pr_diff).
Proof.
  unfold get_pull_requests. destruct which_gh; [|apply (preserves_raise R R_refl)].
  destruct gh_pr_list_summary as [summary|e];
    [|apply (gh_list_error_preserves R R_refl)].
  intros g. destruct (fold_left _ summary _) as [prs to_fetch].
  destruct to_fetch as [|n to_fetch]; [apply R_refl|].
  apply (preserves_bind R R_trans).
  - apply (_fetch_pr_details_preserves run_git repo_path repo_id reg R
             R_refl R_trans git_R).
  - intros fetched. apply (preserves_for_each R R_refl R_trans).
    intros acc pr. apply cache_step_R.
Qed.

Lemma _collect_github_stats_preserves cfg inc exc :
  preserves R (_collect_github_stats run_git repo_path repo_id reg fnmatch
                 which_gh gh_pr_view_commits gh_pr_list_summary
                 gh_pr_list_details gh_pr_diff cfg inc exc).
Proof.
  unfold _collect_github_stats. apply (preserves_bind R R_trans).
  - apply get_pull_requests_preserves.
  - intros prs. apply (preserves_ret R R_refl).
Qed.

Lemma analyze_preserves cfg use_github :
  preserves R (analyze run_git repo_path repo_id reg fnmatch which_gh
                 gh_pr_view_commits gh_pr_list_summary gh_pr_list_details
                 gh_pr_diff cfg use_github).
Proof.
  unfold analyze. apply (preserves_bind R R_trans).
  { apply _collect_line_stats_preserves. }
  intros ls. apply (preserves_bind R R_trans).
  { apply (_collect_commit_stats_preserves run_git repo_path repo_id reg
             fnmatch R R_refl R_trans git_R). }
  intros cs. apply (preserves_bind R R_trans).
  { destruct use_github; [|apply (preserves_ret R R_refl)].
    apply (preserves_bind R R_trans).
    - apply _collect_github_stats_preserves.
    - intros s. apply (preserves_ret R R_refl). }
  intros gh. apply (preserves_ret R R_refl).
Qed.
End AnalysisPreserves.

Lemma analyze_cache_history run_git repo_path repo_id reg fnmatch which_gh
    gh_pr_view_commits gh_pr_list_summary gh_pr_list_details gh_pr_diff
    cfg use_github :
  preserves cache_history
    (analyze run_git repo_path repo_id reg fnmatch which_gh
       gh_pr_view_commits gh_pr_list_summary gh_pr_list_details gh_pr_diff
       cfg use_github).
Proof.
  apply analyze_preserves.
  - apply cache_history_refl.
  - apply cache_history_trans.
  - intros args k _. apply git_cache_history.
  - apply cache_step_cache_history.
Qed.

(** X6. An analysis (the line pass, the commit pass and, when asked for,
    the request statistics) keeps every entry of the command cache as it
    is, keeps every key of the closed-request cache, never resets the dirty
    flag, and records whatever it changes: when the flag is not set
    afterwards, both caches are what they were. This holds whether the
    analysis succeeds or raises. *)
Theorem analysis_keeps_the_cache :
  forall (run_git : list string -> string + string)
         (repo_path repo_id : string) (reg : registry)
         (fnmatch : string -> string -> bool) (which_gh : option string)
         (gh_pr_view_commits : Z -> result (option (list gh_commit)))
         (gh_pr_list_summary : result (list (option Z * option string)))
         (gh_pr_list_details : result (list gh_pr))
         (gh_pr_diff : Z -> option string)
         (cfg : StudentsConfig) (use_github : bool) (g : globals),
    let g' := (analyze run_git repo_path repo_id reg fnmatch which_gh
                 gh_pr_view_commits gh_pr_list_summary gh_pr_list_details
                 gh_pr_diff cfg use_github g).2 in
    _cache g ⊆ _cache g'
    /\ dom (_pr_cache g) ⊆ dom (_pr_cache g')
    /\ (_cache_dirty g = true -> _cache_dirty g' = true)
    /\ (_cache_dirty g' = false ->
        _cache g' = _cache g /\ _pr_cache g' = _pr_cache g).
Proof. intros. apply analyze_cache_history. Qed.

(** X7. Once a query has answered under a key, the answer stays: after
    any analysis, a query with that key returns the same text and changes
    nothing, whatever its arguments are and whatever the command would
    answer now. *)
Theorem cached_answer_is_served :
  forall (run_git run_git' run_git'' : list string -> string + string)
         (repo_path repo_id : string) (reg : registry)
         (fnmatch : string -> string -> bool) (which_gh : option string)
         (gh_pr_view_commits : Z -> result (option (list gh_commit)))
         (gh_pr_list_summary : result (list (option Z * option string)))
         (gh_pr_list_details : result (list gh_pr))
         (gh_pr_diff : Z -> option string)
         (cfg : StudentsConfig) (use_github : bool)
         (args args' : list string) (k out : string) (g g1 : globals),
    git run_git args k g = (Ok out, g1) ->
    let g2 := (analyze run_git' repo_path repo_id reg fnmatch which_gh
                 gh_pr_view_commits gh_pr_list_summary gh_pr_list_details
                 gh_pr_diff cfg use_github g1).2 in
    git run_git'' args' k g1 = (Ok out, g1)
    /\ git run_git'' args' k g2 = (Ok out, g2).
Proof.
  intros run_git run_git' run_git'' repo_path repo_id reg fnmatch which_gh
    gh_pr_view_commits gh_pr_list_summary gh_pr_list_details gh_pr_diff
    cfg use_github args args' k out g g1 Hgit g2.
  pose proof (git_Ok_stored _ _ _ _ _ _ Hgit) as Hstored.
  split.
  - unfold git. by rewrite Hstored.
  - destruct (analyze_cache_history run_git' repo_path repo_id reg fnmatch
                which_gh gh_pr_view_commits gh_pr_list_summary
                gh_pr_list_details gh_pr_diff cfg use_github g1) as [Hsub _].
    fold g2 in Hsub. unfold git.
    by rewrite (lookup_weaken _ _ _ _ Hstored Hsub).
Qed.

Lemma cached_answer_is_served_witness :
  git git_nothing_local ["-C"; "/repo"; "rev-parse"; "main"]
    (rev_parse_key "org/repo" "HEAD")
    (git git_small ["-C"; "/repo"; "rev-parse"; "HEAD"]
       (rev_parse_key "org/repo" "HEAD") empty_globals).2
  = (Ok (hash_H +:+ nl),
     (git git_small ["-C"; "/repo"; "rev-parse"; "HEAD"]
        (rev_parse_key "org/repo" "HEAD") empty_globals).2).
Proof.
  apply (cached_answer_is_served git_small git_small git_nothing_local
           "/repo" "org/repo" demo_registry fnmatch_glob None
           gh_no_commits gh_summary_two gh_details_two gh_no_diff
           roster_ann_bob false
           ["-C"; "/repo"; "rev-parse"; "HEAD"]
           ["-C"; "/repo"; "rev-parse"; "main"]
           (rev_parse_key "org/repo" "HEAD") (hash_H +:+ nl) empty_globals).
  vm_compute. reflexivity.
Defined.

(** ** Messages without trailers *)

Section NoTrailer.
Import Regex.

Lemma lit_skip_app (w1 w2 : string) :
  forall s, lit_skip (w1 +:+ w2) s =
              match lit_skip w1 s with
              | Some s' => lit_skip w2 s'
              | None => None
              end.
Proof.
  induction w1 as [|c w1 IH]; intros s; [done|].
  change (String c w1 +:+ w2) with (String c (w1 +:+ w2)). cbn [lit_skip].
  destruct s as [|x s]; [done|]. by destruct (chr_eq_nocase c x).
Qed.

(** A text whose lower-case form does not start with the lower-case form
    of [w] does not start with [w] in any case. *)
Lemma lit_skip_not_prefix (w : string) :
  forall s : string,
    String.prefix (PyStr.lower w) (PyStr.lower s) = false ->
    lit_skip w (list_ascii_of_string s) = None.
Proof.
  induction w as [|c w IH]; intros s Hprefix.
  - by destruct (PyStr.lower s).
  - destruct s as [|x s]; [done|].
    cbn [PyStr.lower String.prefix] in Hprefix.
    cbn [list_ascii_of_string lit_skip]. unfold chr_eq_nocase.
    destruct (ascii_dec (PyStr.lower_char c) (PyStr.lower_char x)) as [->|Hne].
    + rewrite Ascii.eqb_refl. by apply IH.
    + by apply Ascii.eqb_neq in Hne as ->.
Qed.

Lemma match_trailer_no_key (stripped : string) :
  PyStr.startswith "co-authored" (PyStr.lower stripped) = false ->
  match_trailer stripped = (None, None).
Proof.
  intros Hkey. unfold PyStr.startswith in Hkey.
  assert (lit_skip "Co-authored" (list_ascii_of_string stripped) = None) as H1
    by (by apply lit_skip_not_prefix).
  assert (lit_skip "co-authored" (list_ascii_of_string stripped) = None) as H2
    by (by apply lit_skip_not_prefix).
  assert (lit_skip "Co-authored-by:" (list_ascii_of_string stripped) = None)
    as H3.
  { change "Co-authored-by:"%string with ("Co-authored" +:+ "-by:").
    by rewrite lit_skip_app, H1. }
  unfold match_trailer, pmatch.
  unfold precise_pattern at 1. rewrite rmatch_Cat. cbn [rmatch Nat.eqb].
  rewrite rmatch_Lit, H3.
  unfold no_brackets_pattern at 1. rewrite rmatch_Cat. cbn [rmatch Nat.eqb].
  rewrite rmatch_Lit, H3.
  unfold loose_pattern at 1. rewrite rmatch_Cat. cbn [rmatch Nat.eqb].
  by rewrite rmatch_Lit, H2.
Qed.
End NoTrailer.

(** X8. A commit message in which no line, stripped and put in lower
    case, starts with "co-authored" has no co-authors: extraction returns
    the empty list and consults the registry for no one, so it cannot
    raise. *)
Theorem no_trailer_no_co_authors :
  forall (reg : registry) (self : Commit),
    (forall line, In line (message_lines self) ->
       PyStr.startswith "co-authored" (PyStr.lower (PyStr.strip line)) = false) ->
    get_co_authors reg self = Ok [].
Proof.
  intros reg self Hlines. unfold get_co_authors.
  induction (message_lines self) as [|line lines IH]; [done|].
  cbn [co_authors_loop]. unfold co_author_of_line.
  rewrite match_trailer_no_key by (apply Hlines; by left).
  cbn. apply IH. intros l Hl. apply Hlines. by right.
Qed.

Lemma no_trailer_no_co_authors_witness :
  get_co_authors ∅
    {| hash := hash_H; author := ann; date := "2024-01-01";
       message_lines := ["Fix parser"; ""; "Signed-off-by: Zed <zed@x.com>";
                         "Thanks to my co-authored friends"] |}
  = Ok [].
Proof.
  apply no_trailer_no_co_authors.
  intros line [<- | [<- | [<- | [<- | []]]]]; reflexivity.
Defined.

(** ** Listings of files and of commits *)

Section ListingFacts.
Variable run_git : list string -> string + string.
Variables repo_path repo_id : string.
Variable reg : registry.
Variable fnmatch : string -> string -> bool.

Lemma TrackedFile_get_path f c g tf g' :
  TrackedFile_get run_git repo_path repo_id reg f c g = (Ok tf, g') ->
  path tf = f.
Proof.
  unfold TrackedFile_get. rewrite M_bind_unfold.
  destruct (try_except _ _ _ g) as [[out|e] g1]; [|done].
  rewrite M_bind_unfold.
  destruct (try_except _ _ _ g1) as [[stdout|e] g2]; [|done].
  rewrite M_bind_unfold.
  destruct (for_each _ _ _ g2) as [[st|e] g3]; [|done].
  by intros [= <- <-].
Qed.

(** The loop of [TrackedFile.files], gathering the files in a list. *)
Lemma TrackedFile_files_loop pattern c (listing : list string) :
  forall (acc : list TrackedFile) g l g',
    for_each
      (fun s file_path =>
         if fnmatch file_path pattern then
           tf ← TrackedFile_get run_git repo_path repo_id reg file_path c;
           mret (s ++ [tf])
         else mret s) listing acc g = (Ok l, g') ->
    map path l
    = map path acc ++ List.filter (fun f => fnmatch f pattern) listing.
Proof.
  induction listing as [|f listing IH]; intros acc g l g' Hrun.
  - cbn in Hrun. injection Hrun as <- <-. by rewrite app_nil_r.
  - cbn [for_each] in Hrun. rewrite M_bind_unfold in Hrun.
    cbn [List.filter]. destruct (fnmatch f pattern).
    + rewrite M_bind_unfold in Hrun.
      destruct (TrackedFile_get _ _ _ _ f c g) as [[tf|e] g1] eqn:Hget; [|done].
      cbn in Hrun. apply IH in Hrun. rewrite Hrun, map_app. cbn [map].
      rewrite (TrackedFile_get_path _ _ _ _ _ Hget).
      by rewrite <- app_assoc.
    + cbn in Hrun. by apply IH in Hrun.
Qed.
End ListingFacts.

(** X9. When [TrackedFile.files] yields all its files, their paths are
    the lines of the listing of the commit (from the cache, or else from
    the command) that match the pattern, in the order of the listing and
    with its repetitions. *)
Theorem tracked_files_are_the_matching_paths :
  forall (run_git : list string -> string + string)
         (repo_path repo_id : string) (reg : registry)
         (fnmatch : string -> string -> bool)
         (pattern commit : string) (g g' : globals) (l : list TrackedFile),
    TrackedFile_files run_git repo_path repo_id reg fnmatch pattern commit g
    = (Ok l, g') ->
    exists stdout,
      answer_in run_git g (ls_tree_args repo_path commit)
        (ls_tree_key repo_id commit) = inl stdout
      /\ map path l
         = List.filter (fun f => fnmatch f pattern) (PyStr.splitlines stdout).
Proof.
  intros run_git repo_path repo_id reg fnmatch pattern commit g g' l Hrun.
  unfold TrackedFile_files, for_TrackedFile_files in Hrun.
  rewrite M_bind_unfold in Hrun.
  pose proof (git_result run_git (ls_tree_args repo_path commit)
                (ls_tree_key repo_id commit) g) as Hres.
  unfold ls_tree_args, ls_tree_key in *.
  destruct (git run_git _ _ g) as [[stdout|e] g1]; [|done].
  cbn [fst] in Hres. exists stdout. split.
  - destruct (answer_in run_git g _ _); congruence.
  - by apply TrackedFile_files_loop in Hrun.
Qed.

Lemma tracked_files_are_the_matching_paths_witness :
  exists stdout,
    answer_in git_copied_line empty_globals (ls_tree_args "/repo" "HEAD")
      (ls_tree_key "org/repo" "HEAD") = inl stdout
    /\ ["src/a.py"; "src/b.py"]
       = List.filter (fun f => fnmatch_glob f "src/*") (PyStr.splitlines stdout).
Proof.
  destruct (TrackedFile_files git_copied_line "/repo" "org/repo" demo_registry
              fnmatch_glob "src/*" "HEAD" empty_globals) as [[l|e] g'] eqn:Hrun.
  - destruct (tracked_files_are_the_matching_paths _ _ _ _ _ _ _ _ _ _ Hrun)
      as (stdout & Hanswer & Hpaths).
    exists stdout. split; [exact Hanswer|].
    rewrite <- Hpaths. revert Hrun. vm_compute. by intros [= <- _].
  - exfalso. revert Hrun. vm_compute. discriminate.
Defined.

(** *** The history *)

Ltac each_ascii c :=
  destruct c as [[] [] [] [] [] [] [] []]; try discriminate; try reflexivity.

Lemma hex_digit_not_space c :
  PyStr.is_hex_digit c = true -> PyStr.is_space c = false.
Proof. each_ascii c. Qed.

Lemma full_hash_stripped (h : string) :
  is_full_hash h = true -> PyStr.strip h = h.
Proof.
  unfold is_full_hash. intros [Hlen Hhex]%andb_prop.
  destruct h as [|c h]; [done|].
  destruct (truthy_last_char (String c h) eq_refl) as [z Hz].
  apply (strip_by_ends _ _ _ z); [|done|].
  - cbn in Hhex. apply andb_prop in Hhex as [Hc _].
    by apply hex_digit_not_space.
  - apply hex_digit_not_space.
    by apply (all_chars_last PyStr.is_hex_digit (String c h)).
Qed.

(** The parser looks at the stripped, non-empty lines only. *)
Lemma fold_log_line_tokens (lines : list string) :
  forall st,
    fold_left log_line lines st = fold_left log_token (log_tokens lines) st.
Proof.
  induction lines as [|line lines IH]; intros st; [done|].
  unfold log_tokens in *. cbn [fold_left map List.filter].
  destruct (PyStr.truthy (PyStr.strip line)) eqn:Htruthy.
  - cbn [fold_left]. rewrite IH. f_equal.
    destruct st as [[commits cur] files]. unfold log_line, log_token.
    by rewrite Htruthy.
  - rewrite IH. f_equal. destruct st as [[commits cur] files].
    unfold log_line. by rewrite Htruthy.
Qed.

Lemma log_token_ok (st : log_state) (t : string) :
  PyStr.truthy t = true -> log_state_ok st -> log_state_ok (log_token st t).
Proof.
  destruct st as [[commits cur] files]. intros Htruthy (Hc & Hh & Hf).
  cbn [fst snd] in *. unfold log_token.
  destruct (is_full_hash t) eqn:Hfull.
  - split; [|split; [|done]]; cbn [fst snd].
    + destruct cur as [h|]; [|done]. rewrite forallb_app, Hc. cbn.
      unfold history_entry. cbn [fst snd]. by rewrite (Hh h eq_refl), Hf.
    + by intros h [= <-].
  - split; [done|]. split; [done|]. cbn [fst snd].
    rewrite forallb_app, Hf. cbn. unfold history_path.
    by rewrite Htruthy, Hfull.
Qed.

Lemma log_tokens_ok (tokens : list string) :
  Forall (fun t => PyStr.truthy t = true) tokens ->
  forall st, log_state_ok st -> log_state_ok (fold_left log_token tokens st).
Proof.
  induction 1 as [|t tokens Ht _ IH]; intros st Hst; [done|].
  cbn [fold_left]. by apply IH, log_token_ok.
Qed.

Lemma log_tokens_truthy (lines : list string) :
  Forall (fun t => PyStr.truthy t = true) (log_tokens lines).
Proof.
  apply Forall_forall. intros t Ht%list_elem_of_In.
  unfold log_tokens in Ht. by apply filter_In in Ht as [_ ?].
Qed.

(** The parser on the block of one commit. *)
Lemma log_token_block (h : string) (files : list string)
    (commits : list (string * list string)) (cur : option string)
    (cur_files : list string) :
  is_full_hash h = true ->
  Forall (fun f => is_full_hash f = false) files ->
  fold_left log_token (h :: files) (commits, cur, cur_files)
  = (match cur with
     | Some h0 => commits ++ [(h0, cur_files)]
     | None => commits
     end, Some h, files).
Proof.
  intros Hh Hfiles. cbn [fold_left]. unfold log_token at 2. rewrite Hh.
  generalize (match cur with
              | Some h0 => commits ++ [(h0, cur_files)]
              | None => commits
              end). intros commits'.
  assert (forall acc,
            fold_left log_token files (commits', Some h, acc)
            = (commits', Some h, acc ++ files)) as Hloop.
  { induction Hfiles as [|f files Hpath _ IH]; intros acc.
    - cbn. by rewrite app_nil_r.
    - cbn [fold_left]. unfold log_token at 2. rewrite Hpath.
      rewrite IH. by rewrite <- app_assoc. }
  apply Hloop.
Qed.

Lemma log_lines_parse (commits : list (string * list string)) :
  Forall (fun entry : string * list string =>
            is_full_hash entry.1 = true
            /\ Forall (fun f => is_full_hash f = false) entry.2) commits ->
  forall done_ cur cur_files,
    fold_left log_token (log_lines commits) (done_, cur, cur_files)
    = match commits with
      | [] => (done_, cur, cur_files)
      | _ =>
          ((match cur with
            | Some h0 => done_ ++ [(h0, cur_files)]
            | None => done_
            end) ++ removelast commits,
           Some (List.last commits ("", [])).1,
           (List.last commits ("", [])).2)
      end.
Proof.
  induction 1 as [|[h files] commits [Hh Hfiles] _ IH];
    intros done_ cur cur_files; [done|].
  unfold log_lines. cbn [map concat fst snd].
  change (h :: files ++ ?l) with ((h :: files) ++ l).
  rewrite fold_left_app. fold (log_lines commits).
  rewrite (log_token_block h files done_ cur cur_files Hh Hfiles).
  rewrite IH. destruct commits as [|e commits]; [by rewrite app_nil_r|].
  cbn [removelast List.last]. by rewrite <- app_assoc.
Qed.

(** X10. Every entry of the history that [Repo.get_all_commits] returns
    has a hash of forty hexadecimal digits, and each of its paths is a
    non-empty line that is not itself forty hexadecimal digits (such a line
    is read as the next commit). *)
Theorem history_entries_are_well_formed :
  forall (run_git : list string -> string + string)
         (repo_path repo_id : string) (g g' : globals)
         (commits : list (string * list string)),
    get_all_commits run_git repo_path repo_id g = (Ok commits, g') ->
    forall h files, In (h, files) commits ->
      is_full_hash h = true
      /\ forall f, In f files ->
           PyStr.truthy f = true /\ is_full_hash f = false.
Proof.
  intros run_git repo_path repo_id g g' commits Hrun h files Hin.
  unfold get_all_commits in Hrun. rewrite M_bind_unfold in Hrun.
  destruct (git run_git _ _ g) as [[stdout|e] g1]; [|done].
  rewrite fold_log_line_tokens in Hrun.
  pose proof (log_tokens_ok _ (log_tokens_truthy (PyStr.splitlines stdout))
                ([], None, [])) as Hok.
  destruct (fold_left log_token _ ([], None, [])) as [[done_ cur] cur_files].
  destruct Hok as (Hc & Hh & Hf); [by repeat split|]. cbn [fst snd] in *.
  injection Hrun as <- <-.
  assert (forallb history_entry
            (match cur with
             | Some h0 => done_ ++ [(h0, cur_files)]
             | None => done_
             end) = true) as Hall.
  { destruct cur as [h0|]; [|done]. rewrite forallb_app, Hc. cbn.
    unfold history_entry. cbn [fst snd]. by rewrite (Hh h0 eq_refl), Hf. }
  rewrite forallb_forall in Hall. specialize (Hall _ Hin).
  unfold history_entry in Hall. cbn [fst snd] in Hall.
  apply andb_prop in Hall as [Hhash Hfiles]. split; [done|].
  intros f Hf'. rewrite forallb_forall in Hfiles. specialize (Hfiles _ Hf').
  unfold history_path in Hfiles. apply andb_prop in Hfiles as [Ht Hn].
  by apply negb_true_iff in Hn.
Qed.

Lemma history_entries_are_well_formed_witness :
  is_full_hash hash_K = true
  /\ forall f, In f ["lib/util.py"; "src/a.py"] ->
       PyStr.truthy f = true /\ is_full_hash f = false.
Proof.
  apply (history_entries_are_well_formed git_copied_line "/repo" "org/repo"
           empty_globals
           (get_all_commits git_copied_line "/repo" "org/repo" empty_globals).2
           history_copied_line).
  - vm_compute. reflexivity.
  - by left.
Defined.

(** X11. The history parser reads back what the log printed: when the
    lines of the answer of the history query, stripped and without the
    empty ones, are the hash of each commit followed by its paths, where
    the hashes are forty hexadecimal digits and the paths are not, then
    [Repo.get_all_commits] returns these commits with these paths, in this
    order. *)
Theorem history_is_read_back :
  forall (run_git : list string -> string + string)
         (repo_path repo_id : string) (g : globals)
         (stdout : string) (commits : list (string * list string)),
    answer_in run_git g (log_args repo_path) (log_key repo_id) = inl stdout ->
    log_tokens (PyStr.splitlines stdout) = log_lines commits ->
    (forall h files, In (h, files) commits ->
       is_full_hash h = true
       /\ forall f, In f files -> is_full_hash f = false) ->
    (get_all_commits run_git repo_path repo_id g).1 = Ok commits.
Proof.
  intros run_git repo_path repo_id g stdout commits Hanswer Hlines Hwf.
  unfold get_all_commits. rewrite M_bind_unfold.
  pose proof (git_result run_git (log_args repo_path) (log_key repo_id) g)
    as Hres.
  rewrite Hanswer in Hres. unfold log_args, log_key in Hres.
  destruct (git run_git _ _ g) as [[out|e] g1]; [|done].
  cbn [fst] in Hres. injection Hres as ->.
  rewrite fold_log_line_tokens, Hlines.
  rewrite log_lines_parse.
  - destruct commits as [|e commits]; [done|].
    destruct (List.last (e :: commits) ("", [])) as [h files] eqn:Hlast.
    cbn [fst snd app]. unfold mret, M_ret. cbn [fst]. f_equal.
    rewrite <- Hlast. symmetry. by apply app_removelast_last.
  - apply Forall_forall. intros [h files] Hin%list_elem_of_In.
    destruct (Hwf h files Hin) as [Hh Hfiles]. cbn [fst snd].
    split; [done|]. apply Forall_forall. intros f Hf%list_elem_of_In.
    by apply Hfiles.
Qed.

Lemma history_is_read_back_witness :
  (get_all_commits git_copied_line "/repo" "org/repo" empty_globals).1
  = Ok history_copied_line.
Proof.
  apply (history_is_read_back git_copied_line "/repo" "org/repo" empty_globals
           (unlines [hash_K; "lib/util.py"; "src/a.py"; ""; hash_H;
                     "lib/util.py"; "src/b.py"])).
  - vm_compute. reflexivity.
  - vm_compute. reflexivity.
  - intros h files [[= <- <-] | [[= <- <-] | []]]; (split; [reflexivity|]);
      intros f [<- | [<- | []]]; reflexivity.
Defined.

(** ** Reading a unified diff *)

Lemma changes_line_no_header (l : string) :
  changes_line l = true -> header_file l = None.
Proof.
  unfold changes_line, header_file. intros [[Hsign _]%andb_prop _]%andb_prop.
  destruct l as [|c l]; [done|].
  assert (PyStr.startswith "diff --git " (String c l) = false) as ->; [|done].
  unfold PyStr.startswith in *. cbn [String.prefix] in *.
  destruct (ascii_dec "d" c) as [<-|]; [|done].
  by cbn in Hsign.
Qed.

(** The reading of one line. *)
Lemma diff_line_cases (st : diff_state) (line : string) :
  diff_line st line =
    match header_file line with
    | Some f => (st.1, Some f)
    | None =>
        match st.2 with
        | Some f =>
            if PyStr.truthy f && changes_line line
            then ({[f]} ∪ st.1, st.2) else st
        | None => st
        end
    end.
Proof.
  destruct st as [files cur]. unfold diff_line, header_file, changes_line.
  cbn [fst snd].
  destruct (PyStr.startswith "diff --git " line) eqn:Hhead.
  - destruct (4 <=? length (PyStr.split " " line)); [|].
    + by destruct (PyStr.startswith "b/" _).
    + destruct cur as [f|]; [|done].
      assert (PyStr.startswith "+" line || PyStr.startswith "-" line = false)
        as ->; [|by rewrite andb_false_r].
      destruct line as [|c line]; [done|].
      unfold PyStr.startswith in *. cbn [String.prefix] in *.
      destruct (ascii_dec "d" c) as [<-|]; [done|done].
  - destruct cur as [f|]; [|done].
    destruct (PyStr.truthy f); [|done]. cbn [andb].
    destruct (PyStr.startswith "+" line || PyStr.startswith "-" line); [|done].
    cbn [andb].
    destruct (PyStr.startswith "+++" line || PyStr.startswith "---" line);
      [done|]. cbn [negb andb].
    by destruct (PyStr.truthy (PyStr.strip (PyStr.drop 1 line))).
Qed.

Lemma reported_snoc (lines : list string) (x : string) (f : string) :
  reported lines f -> reported (lines ++ [x]) f.
Proof.
  intros (Hf & pre & hl & mid & l & post & -> & Hhl & Hmid & Hl).
  split; [done|]. exists pre, hl, mid, l, (post ++ [x]).
  split; [|done]. by rewrite <- !app_assoc, <- !app_comm_cons, <- app_assoc.
Qed.

(** A line after [lines] is the changing line of a decomposition only if
    [lines] ends with the header of the file and lines without header. *)
Lemma reported_snoc_inv (lines : list string) (x : string) (f : string) :
  reported (lines ++ [x]) f ->
  reported lines f
  \/ (f <> "" /\ changes_line x = true /\ current_file_of lines (Some f)).
Proof.
  intros (Hf & pre & hl & mid & l & post & Heq & Hhl & Hmid & Hl).
  destruct (decide (post = [])) as [->|Hpost].
  - right. rewrite app_comm_cons, app_assoc in Heq.
    apply app_inj_tail in Heq as [-> ->].
    split; [done|]. split; [done|]. by exists pre, hl, mid.
  - left. destruct (exists_last Hpost) as (post' & y & ->).
    rewrite !app_comm_cons, !app_assoc in Heq.
    apply app_inj_tail in Heq as [-> ->].
    split; [done|]. exists pre, hl, mid, l, post'.
    split; [|done]. by rewrite <- !app_assoc, <- !app_comm_cons.
Qed.

Lemma snoc_middle {A} (pre : list A) (hl : A) (mid : list A) (m : A) :
  pre ++ hl :: (mid ++ [m]) = (pre ++ hl :: mid) ++ [m].
Proof. by rewrite <- app_assoc. Qed.

Lemma last_header_unique (mid : list string) :
  forall (mid' pre pre' : list string) (hl hl' f f' : string),
    pre ++ hl :: mid = pre' ++ hl' :: mid' ->
    header_file hl = Some f -> header_file hl' = Some f' ->
    Forall (fun m => header_file m = None) mid ->
    Forall (fun m => header_file m = None) mid' ->
    f = f'.
Proof.
  induction mid as [|m mid IH] using rev_ind;
    intros mid' pre pre' hl hl' f f' Heq Hhl Hhl' Hmid Hmid';
    destruct mid' as [|m' mid' _] using rev_ind.
  - apply (app_inj_tail pre pre' hl hl') in Heq as [_ ->]. congruence.
  - rewrite snoc_middle in Heq.
    apply (app_inj_tail pre _ hl m') in Heq as [_ ->].
    apply Forall_app in Hmid' as [_ Hm']. inversion Hm'. congruence.
  - rewrite snoc_middle in Heq.
    apply (app_inj_tail _ pre' m hl') in Heq as [_ ->].
    apply Forall_app in Hmid as [_ Hm]. inversion Hm. congruence.
  - rewrite !snoc_middle in Heq. apply app_inj_tail in Heq as [Heq _].
    apply Forall_app in Hmid as [Hmid _].
    apply Forall_app in Hmid' as [Hmid' _].
    by apply (IH mid' pre pre' hl hl' f f').
Qed.

Lemma current_file_of_unique (lines : list string) (c1 c2 : option string) :
  current_file_of lines c1 -> current_file_of lines c2 -> c1 = c2.
Proof.
  assert (forall f c, current_file_of lines (Some f) ->
                      current_file_of lines c -> c = Some f) as Hsome.
  { intros f c (pre & hl & mid & -> & Hhl & Hmid) Hc.
    destruct c as [f'|].
    - destruct Hc as (pre' & hl' & mid' & Heq & Hhl' & Hmid').
      f_equal. symmetry.
      by apply (last_header_unique mid mid' pre pre' hl hl' f f').
    - cbn in Hc. apply Forall_app in Hc as [_ Hc]. inversion Hc. congruence. }
  intros H1 H2. destruct c1 as [f1|].
  - symmetry. by apply (Hsome f1 c2).
  - destruct c2 as [f2|]; [|done]. by apply (Hsome f2 None).
Qed.

Lemma diff_line_state_of (lines : list string) (st : diff_state) (x : string) :
  diff_state_of lines st -> diff_state_of (lines ++ [x]) (diff_line st x).
Proof.
  intros [Hfiles Hcur]. rewrite diff_line_cases.
  destruct (header_file x) as [fx|] eqn:Hx.
  - split; cbn [fst snd].
    + intros f. rewrite Hfiles. split; [apply reported_snoc|].
      intros [H | (_ & Hch & _)]%reported_snoc_inv; [done|].
      apply changes_line_no_header in Hch. congruence.
    + by exists lines, x, [].
  - assert (current_file_of (lines ++ [x]) st.2) as Hcur'.
    { destruct st.2 as [c|]; cbn in *.
      - destruct Hcur as (pre & hl & mid & -> & Hhl & Hmid).
        exists pre, hl, (mid ++ [x]). split; [by rewrite <- app_assoc|].
        split; [done|]. apply Forall_app. by split; [|constructor].
      - apply Forall_app. by split; [|constructor]. }
    assert (forall f, f ∈ st.1 -> reported (lines ++ [x]) f) as Hold.
    { intros f Hf. by apply reported_snoc, Hfiles. }
    destruct st.2 as [c|] eqn:Hc.
    + destruct (PyStr.truthy c && changes_line x) eqn:Hadd.
      * apply andb_prop in Hadd as [Htruthy Hch].
        split; cbn [fst snd]; [|done]. intros f. split.
        -- intros [->%elem_of_singleton | Hf]%elem_of_union; [|by apply Hold].
           split; [by destruct c|].
           destruct Hcur as (pre & hl & mid & -> & Hhl & Hmid).
           exists pre, hl, mid, x, []. by rewrite <- app_assoc.
        -- intros [H | (_ & _ & Hc')]%reported_snoc_inv.
           ++ apply elem_of_union. right. by apply Hfiles.
           ++ apply elem_of_union. left. apply elem_of_singleton.
              pose proof (current_file_of_unique _ _ _ Hc' Hcur). congruence.
      * split; [|by rewrite Hc]. intros f. split; [apply Hold|].
        intros [H | (Hne & Hch & Hc')]%reported_snoc_inv; [by apply Hfiles|].
        pose proof (current_file_of_unique _ _ _ Hc' Hcur) as [= <-].
        rewrite Hch, andb_true_r in Hadd. by destruct f.
    + split; [|by rewrite Hc]. intros f. split; [apply Hold|].
      intros [H | (_ & _ & Hc')]%reported_snoc_inv; [by apply Hfiles|].
      pose proof (current_file_of_unique _ _ _ Hc' Hcur). congruence.
Qed.

Lemma diff_lines_state_of (suffix : list string) :
  forall lines st,
    diff_state_of lines st ->
    diff_state_of (lines ++ suffix) (fold_left diff_line suffix st).
Proof.
  induction suffix as [|x suffix IH]; intros lines st Hst.
  - by rewrite app_nil_r.
  - cbn [fold_left].
    replace (lines ++ x :: suffix) with ((lines ++ [x]) ++ suffix)
      by (by rewrite <- app_assoc).
    by apply IH, diff_line_state_of.
Qed.

(** X12. The reader of a unified diff, shared by the commit pass and the
    request statistics, reports a file exactly when the file's name is not
    empty, a line that starts with "diff --git " names it as its fourth
    space-separated field (less a leading "b/"), and before the next such
    line some line starts with "+" or "-", does not start with "+++" or
    "---", and has text other than white space after its first character. *)
Theorem diff_reports_changed_files :
  forall (diff_output f : string),
    f ∈ non_whitespace_files diff_output
    <-> reported (PyStr.splitlines diff_output) f.
Proof.
  intros diff_output f. unfold non_whitespace_files.
  pose proof (diff_lines_state_of (PyStr.splitlines diff_output) [] (∅, None))
    as [Hfiles _]; [|by apply Hfiles].
  split; [|by constructor]. intros f'. cbn [fst]. split; [set_solver|].
  intros (_ & pre & hl & mid & l & post & Heq & _). by destruct pre.
Qed.

(** ** The listing of the review requests *)

Section RequestListing.
Variable run_git : list string -> string + string.
Variables repo_path repo_id : string.
Variable reg : registry.
Variable gh_pr_view_commits : Z -> result (option (list gh_commit)).
Variable gh_pr_diff : Z -> option string.

(** The step of the loop of [_fetch_pr_details]: a record whose number was
    not asked for is passed over; otherwise one request is appended. *)
Lemma fetch_pr_step_result pr_numbers acc pr_data g l g' :
  fetch_pr_step run_git repo_path repo_id reg gh_pr_view_commits gh_pr_diff
    pr_numbers acc pr_data g = (Ok l, g') ->
  if bool_decide (default 0%Z (gh_number pr_data) ∈ pr_numbers)
  then exists pr,
         l = acc ++ [pr]
         /\ number pr = default 0%Z (gh_number pr_data)
         /\ files pr
            = parse_files
                (_get_pr_diff_non_whitespace_files gh_pr_diff
                   (default 0%Z (gh_number pr_data)))
                (default [] (gh_files pr_data))
  else l = acc.
Proof.
  unfold fetch_pr_step.
  destruct (bool_decide (default 0%Z (gh_number pr_data) ∈ pr_numbers));
    cbn [negb]; [|by intros [= <- _]].
  rewrite M_bind_unfold.
  destruct (_get_pr_commits _ _ _ _ _ _ g) as [[cs|e] g1]; [|done].
  intros [= <- <-]. by eexists.
Qed.

Lemma fetch_pr_loop_numbers pr_numbers (data : list gh_pr) :
  forall acc g prs g',
    for_each (fetch_pr_step run_git repo_path repo_id reg gh_pr_view_commits
                gh_pr_diff pr_numbers) data acc g = (Ok prs, g') ->
    map number prs
    = map number acc
      ++ List.filter (fun n => bool_decide (n ∈ pr_numbers))
           (map (fun d => default 0%Z (gh_number d)) data).
Proof.
  induction data as [|d data IH]; intros acc g prs g' Hrun.
  - cbn in Hrun. injection Hrun as <- <-. by rewrite app_nil_r.
  - cbn [for_each] in Hrun. rewrite M_bind_unfold in Hrun.
    destruct (fetch_pr_step _ _ _ _ _ _ pr_numbers acc d g)
      as [[l|e] g1] eqn:Hstep; [|done].
    apply fetch_pr_step_result in Hstep. apply IH in Hrun. rewrite Hrun.
    cbn [map List.filter].
    destruct (bool_decide (default 0%Z (gh_number d) ∈ pr_numbers)).
    + destruct Hstep as (pr & -> & Hn & _). rewrite map_app. cbn [map].
      by rewrite Hn, <- app_assoc.
    + by subst l.
Qed.
End RequestListing.

Lemma parse_files_unflagged (files_data : list gh_file) :
  Forall (fun f => has_non_whitespace_changes f = false)
         (parse_files ∅ files_data).
Proof.
  apply Forall_forall. intros f Hf. unfold parse_files in Hf.
  apply list_elem_of_omap in Hf as (d & _ & Hd).
  destruct (gh_path d) as [p|]; [|done].
  destruct (PyStr.truthy p); [|done]. by injection Hd as <-.
Qed.

Lemma unflagged_files_do_not_match fnmatch inc exc (pr : PullRequest) :
  Forall (fun f => has_non_whitespace_changes f = false) (files pr) ->
  pr_has_matching_files fnmatch inc exc pr = false.
Proof.
  unfold pr_has_matching_files. induction 1 as [|f fs Hf _ IH]; [done|].
  cbn [existsb]. by rewrite Hf, andb_false_r, IH.
Qed.

(** X13. When the diff of a request cannot be fetched, the request that
    [_fetch_pr_details] builds has every file flagged as without
    non-whitespace change; such a request passes for one without matching
    files, so the statistics count neither it nor its reviews, whatever the
    patterns are. *)
Theorem request_without_diff_counts_for_no_one :
  forall (run_git : list string -> string + string)
         (repo_path repo_id : string) (reg : registry)
         (gh_pr_view_commits : Z -> result (option (list gh_commit)))
         (gh_pr_diff : Z -> option string)
         (pr_numbers : list Z) (acc l : list PullRequest) (pr_data : gh_pr)
         (g g' : globals),
    gh_pr_diff (default 0%Z (gh_number pr_data)) = None ->
    fetch_pr_step run_git repo_path repo_id reg gh_pr_view_commits gh_pr_diff
      pr_numbers acc pr_data g = (Ok l, g') ->
    l = acc
    \/ exists pr,
         l = acc ++ [pr]
         /\ Forall (fun f => has_non_whitespace_changes f = false) (files pr)
         /\ forall fnmatch include_patterns exclude_patterns u2a stats,
              github_pr_step fnmatch include_patterns exclude_patterns u2a
                stats pr = stats.
Proof.
  intros run_git repo_path repo_id reg gh_pr_view_commits gh_pr_diff
    pr_numbers acc l pr_data g g' Hdiff Hstep.
  apply fetch_pr_step_result in Hstep.
  destruct (bool_decide _); [|by left]. right.
  destruct Hstep as (pr & -> & _ & Hfiles). exists pr.
  assert (Forall (fun f => has_non_whitespace_changes f = false) (files pr))
    as Hflags.
  { rewrite Hfiles. unfold _get_pr_diff_non_whitespace_files. rewrite Hdiff.
    apply parse_files_unflagged. }
  split; [done|]. split; [done|].
  intros fnmatch inc exc u2a stats. unfold github_pr_step.
  destruct (PyStr.startswith "app/" (author_username pr)); [done|].
  by rewrite (unflagged_files_do_not_match fnmatch inc exc pr Hflags).
Qed.

Lemma request_without_diff_counts_for_no_one_witness :
  exists pr,
    (fetch_pr_step git_small "/repo" "org/repo" demo_registry gh_no_commits
       gh_no_diff [1%Z] [] open_request_record empty_globals).1 = Ok [pr]
    /\ author_username pr = "ann-gh"
    /\ map file_path (files pr) = ["src/a.py"]
    /\ github_pr_step fnmatch_glob ["*"] [] (username_to_author [ann; bob])
         (initial_stats [ann; bob]) pr
       = initial_stats [ann; bob].
Proof.
  destruct (fetch_pr_step git_small "/repo" "org/repo" demo_registry
              gh_no_commits gh_no_diff [1%Z] [] open_request_record
              empty_globals) as [[l|e] g'] eqn:Hstep.
  - destruct (request_without_diff_counts_for_no_one _ _ _ _ _ _ _ _ _ _ _ _
                eq_refl Hstep) as [-> | (pr & -> & _ & Hcount)].
    + exfalso. revert Hstep. vm_compute. discriminate.
    + exists pr. split; [done|].
      split; [revert Hstep; vm_compute; by intros [= <- _]|].
      split; [revert Hstep; vm_compute; by intros [= <- _]|].
      apply Hcount.
  - exfalso. revert Hstep. vm_compute. discriminate.
Defined.

(** X14. The requests that [_fetch_pr_details] returns are those of the
    detailed listing whose number was asked for, one for each such record
    and in the order of the listing; a record without a number counts as
    number 0. A number that the listing does not show is passed over in
    silence. *)
Theorem fetched_requests_are_the_listed_ones :
  forall (run_git : list string -> string + string)
         (repo_path repo_id : string) (reg : registry)
         (gh_pr_view_commits : Z -> result (option (list gh_commit)))
         (gh_pr_list_details : result (list gh_pr))
         (gh_pr_diff : Z -> option string)
         (pr_numbers : list Z) (g g' : globals) (prs : list PullRequest),
    _fetch_pr_details run_git repo_path repo_id reg gh_pr_view_commits
      gh_pr_list_details gh_pr_diff pr_numbers g = (Ok prs, g') ->
    map number prs
    = List.filter (fun n => bool_decide (n ∈ pr_numbers))
        (listed_numbers gh_pr_list_details).
Proof.
  intros run_git repo_path repo_id reg gh_pr_view_commits gh_pr_list_details
    gh_pr_diff pr_numbers g g' prs Hrun.
  unfold _fetch_pr_details in Hrun.
  destruct pr_numbers as [|n ns].
  - injection Hrun as <- <-. cbn [map].
    induction (listed_numbers gh_pr_list_details) as [|m l IH]; [done|].
    cbn [List.filter]. rewrite bool_decide_eq_false_2; [done|].
    apply not_elem_of_nil.
  - destruct gh_pr_list_details as [data|e].
    + by apply fetch_pr_loop_numbers in Hrun.
    + by destruct e.
Qed.

Lemma fetched_requests_are_the_listed_ones_witness :
  map number
    (default [] (match (_fetch_pr_details git_small "/repo" "org/repo"
                          demo_registry gh_no_commits gh_details_two gh_no_diff
                          [2%Z; 7%Z] empty_globals).1 with
                 | Ok prs => Some prs
                 | Raise _ => None
                 end))
  = [2%Z].
Proof.
  destruct (_fetch_pr_details git_small "/repo" "org/repo" demo_registry
              gh_no_commits gh_details_two gh_no_diff [2%Z; 7%Z] empty_globals)
    as [[prs|e] g'] eqn:Hrun.
  - cbn [fst default from_option id].
    by rewrite (fetched_requests_are_the_listed_ones _ _ _ _ _ _ _ _ _ _ _ Hrun).
  - exfalso. revert Hrun. vm_compute. discriminate.
Defined.

Lemma summary_steps_cached repo_id (g : globals)
    (summary : list (option Z * option string)) (prs : list PullRequest) :
  Forall2 (cached_as_closed repo_id g) summary prs ->
  forall acc,
    fold_left (summary_step repo_id (_pr_cache g)) summary (acc, [])
    = (acc ++ prs, []).
Proof.
  induction 1 as [|info pr summary prs [Hstate Hcached] _ IH]; intros acc.
  - cbn. by rewrite app_nil_r.
  - cbn [fold_left]. unfold summary_step at 2.
    apply String.eqb_neq in Hstate. rewrite Hstate. cbn [negb].
    rewrite Hcached, IH. by rewrite <- app_assoc.
Qed.

(** X15. When the summary lists every request as not open and the
    closed-request cache has each of them, [get_pull_requests] returns the
    cached requests in the order of the summary and changes nothing: the
    detailed listing, the commits and the diffs are not asked for, so the
    result is the same whatever they would answer. *)
Theorem closed_requests_are_served_from_the_cache :
  forall (run_git : list string -> string + string)
         (repo_path repo_id : string) (reg : registry) (gh : string)
         (gh_pr_view_commits : Z -> result (option (list gh_commit)))
         (gh_pr_list_details : result (list gh_pr))
         (gh_pr_diff : Z -> option string)
         (summary : list (option Z * option string))
         (prs : list PullRequest) (g : globals),
    Forall2 (cached_as_closed repo_id g) summary prs ->
    get_pull_requests run_git repo_path repo_id reg (Some gh)
      gh_pr_view_commits (Ok summary) gh_pr_list_details gh_pr_diff g
    = (Ok prs, g).
Proof.
  intros run_git repo_path repo_id reg gh gh_pr_view_commits
    gh_pr_list_details gh_pr_diff summary prs g Hcached.
  unfold get_pull_requests.
  by rewrite (summary_steps_cached repo_id g summary prs Hcached []).
Qed.

Lemma closed_requests_are_served_from_the_cache_witness :
  get_pull_requests git_nothing_local "/repo" "org/repo" demo_registry
    (Some "/usr/bin/gh") gh_no_commits
    (Ok [(Some 2%Z, Some "merged")]) (Raise (CalledProcessError "offline"))
    gh_no_diff globals_with_merged_request
  = (Ok [merged_request], globals_with_merged_request).
Proof.
  apply closed_requests_are_served_from_the_cache.
  constructor; [|constructor]. split; [done|]. reflexivity.
Defined.

(** ** Request counters *)

Section RequestCounters.
Variable fnmatch : string -> string -> bool.
Variables include_patterns exclude_patterns : list string.
Variable u2a : gmap string Author.
Variables collab merged : bool.

Lemma review_step_class_counter (a : string * string) (st : review_state_t)
    (r : PullRequestReview) :
  counter_of (class_counter collab merged) (review_step u2a st r).1.1 a
  = counter_of (class_counter collab merged) st.1.1 a.
Proof.
  destruct st as [[stats sa] sc]. unfold review_step. cbn [fst snd].
  destruct (u2a !! PyStr.lower (reviewer_username r)) as [reviewer|]; [|done].
  assert (forall h : GitHubStats -> GitHubStats,
            (forall s, class_counter collab merged (h s)
                       = class_counter collab merged s) ->
            counter_of (class_counter collab merged)
              (alter h (author_key reviewer) stats) a
            = counter_of (class_counter collab merged) stats a) as Halter.
  { intros h Hh. unfold counter_of. rewrite lookup_alter.
    case_decide; [subst|done]. destruct (stats !! _); cbn; [apply Hh|done]. }
  destruct (String.eqb (review_state r) "APPROVED").
  - destruct (bool_decide _); [done|]. cbn [fst].
    apply Halter. intros s. by destruct collab, merged.
  - destruct (String.eqb (review_state r) "CHANGES_REQUESTED"); [|done].
    destruct (bool_decide _); [done|]. cbn [fst].
    apply Halter. intros s. by destruct collab, merged.
Qed.

Lemma count_reviews_class_counter (a : string * string) (pr : PullRequest)
    (stats : GitHubStatsData) :
  counter_of (class_counter collab merged) (count_reviews u2a pr stats) a
  = counter_of (class_counter collab merged) stats a.
Proof.
  unfold count_reviews.
  change stats with (stats, (∅ : gset (string * string)),
                     (∅ : gset (string * string))).1.1 at 2.
  generalize (stats, (∅ : gset (string * string)),
              (∅ : gset (string * string))).
  induction (reviews pr) as [|r rs IH]; intros st; [done|].
  cbn [fold_left]. by rewrite IH, review_step_class_counter.
Qed.

Lemma count_pr_class_counter (a : string * string) (pr : PullRequest)
    (stats : GitHubStatsData) :
  is_Some (stats !! a) ->
  counter_of (class_counter collab merged) (count_pr u2a pr stats) a
  = counter_of (class_counter collab merged) stats a
    + bool_to_nat (authored_by u2a a pr && request_class collab merged pr).
Proof.
  intros [s Hs]. unfold count_pr, authored_by, request_class.
  destruct (u2a !! PyStr.lower (author_username pr)) as [author|];
    [|cbn; lia].
  destruct (decide (author_key author = a)) as [<-|Hne].
  - rewrite bool_decide_eq_true_2 by done. unfold counter_of.
    destruct (pr_is_collab pr), (is_merged pr), collab, merged;
      rewrite lookup_alter_eq, Hs; cbn; lia.
  - rewrite bool_decide_eq_false_2 by done. unfold counter_of.
    destruct (pr_is_collab pr), (is_merged pr);
      rewrite lookup_alter_ne by done; cbn; lia.
Qed.

Lemma github_pr_step_class_counter (a : string * string) (pr : PullRequest)
    (stats : GitHubStatsData) :
  is_Some (stats !! a) ->
  counter_of (class_counter collab merged)
    (github_pr_step fnmatch include_patterns exclude_patterns u2a stats pr) a
  = counter_of (class_counter collab merged) stats a
    + bool_to_nat (pr_counts fnmatch include_patterns exclude_patterns pr
                   && authored_by u2a a pr && request_class collab merged pr).
Proof.
  intros Hin. unfold github_pr_step, pr_counts.
  destruct (PyStr.startswith "app/" (author_username pr)); [cbn; lia|].
  destruct (pr_has_matching_files _ _ _ pr); [|cbn; lia].
  cbn [negb andb].
  destruct (is_merged pr || is_open pr) eqn:Hstate.
  - assert (negb (is_merged pr) && negb (is_open pr) = false) as ->
      by (by destruct (is_merged pr), (is_open pr)).
    rewrite count_reviews_class_counter, count_pr_class_counter by done.
    done.
  - assert (negb (is_merged pr) && negb (is_open pr) = true) as ->
      by (by destruct (is_merged pr), (is_open pr)).
    cbn. lia.
Qed.

Lemma github_pr_fold_class_counter (a : string * string)
    (prs : list PullRequest) :
  forall stats : GitHubStatsData,
    is_Some (stats !! a) ->
    counter_of (class_counter collab merged)
      (fold_left (github_pr_step fnmatch include_patterns exclude_patterns u2a)
                 prs stats) a
    = counter_of (class_counter collab merged) stats a
      + length (List.filter
                  (fun pr =>
                     pr_counts fnmatch include_patterns exclude_patterns pr
                     && authored_by u2a a pr && request_class collab merged pr)
                  prs).
Proof.
  induction prs as [|pr prs IH]; intros stats Hin; cbn [fold_left List.filter].
  - cbn. lia.
  - destruct (github_pr_step_counts fnmatch include_patterns exclude_patterns
                u2a a pr stats Hin) as (Hin1 & _).
    rewrite (IH _ Hin1), github_pr_step_class_counter by done.
    destruct (_ && _ && _); cbn; lia.
Qed.
End RequestCounters.

(** X16. For a roster contributor, each of the four request counters
    (alone or collab, merged or open) is the number of the requests of the
    listing that pass the guards of the loop, whose author handle resolves
    to that contributor, and that are of that kind: a request has co-authors
    or not, and is merged or not. So a counted request adds one to exactly
    one counter of one contributor, and a request whose author handle
    resolves to no one adds to none. *)
Theorem request_counters_count_requests :
  forall (fnmatch : string -> string -> bool)
         (include_patterns exclude_patterns : list string)
         (students : list Author) (prs : list PullRequest)
         (a : string * string) (collab merged : bool),
    In a (map author_key students) ->
    counter_of (class_counter collab merged)
      (stats_after fnmatch include_patterns exclude_patterns students prs) a
    = length (List.filter
                (fun pr =>
                   pr_counts fnmatch include_patterns exclude_patterns pr
                   && authored_by (username_to_author students) a pr
                   && request_class collab merged pr) prs).
Proof.
  intros fnmatch inc exc students prs a collab merged Hin.
  pose proof (initial_stats_lookup students a Hin) as Hinit.
  unfold stats_after.
  rewrite github_pr_fold_class_counter by (by eexists).
  unfold counter_of. rewrite Hinit. by destruct collab, merged.
Qed.

Lemma request_counters_count_requests_witness :
  counter_of prs_alone_merged
    (stats_after fnmatch_glob ["*"] [] [ann; bob] [bot_request; bob_request])
    (author_key bob) = 1.
Proof.
  apply (request_counters_count_requests fnmatch_glob ["*"] [] [ann; bob]
           [bot_request; bob_request] (author_key bob) false true).
  simpl. tauto.
Defined.

(** ** Commit classes *)

Lemma add_commit_in_some (h : string) (data : CommitsData) (a : Author)
    (c : string) :
  in_some_commit_set h (add_commit data a c) ->
  h = c \/ in_some_commit_set h data.
Proof.
  intros (k & s & Hs & Hin).
  destruct (add_commit_lookup _ _ _ _ _ Hs) as [Hd|(s0 & Hd & ->)].
  - right. by exists k, s.
  - apply elem_of_union in Hin as [Hin|Hin].
    + left. by apply elem_of_singleton in Hin.
    + right. by exists k, s0.
Qed.

Lemma add_commits_in_some (h : string) (co : list Author) (c : string) :
  forall data : CommitsData,
    in_some_commit_set h
      (fold_left (fun d co_author => add_commit d co_author c) co data) ->
    h = c \/ in_some_commit_set h data.
Proof.
  induction co as [|x co IH]; intros data Hin; simpl in Hin; [by right|].
  destruct (IH _ Hin) as [->|Hin']; [by left|].
  by apply add_commit_in_some in Hin'.
Qed.

Lemma cached_co_authors_entry (reg : registry)
    (cache cache' : gmap string (list Author)) (c : string) (commit : Commit)
    (co : list Author) :
  cached_co_authors reg cache c commit = Ok (co, cache') ->
  cache' !! c = Some co /\ cache ⊆ cache'.
Proof.
  unfold cached_co_authors. destruct (cache !! c) as [co0|] eqn:Hc.
  - by intros [= <- <-].
  - destruct (get_co_authors reg commit) as [co0|e]; [|done].
    cbn. intros [= <- <-]. split; [by rewrite lookup_insert_eq|].
    by apply insert_subseteq.
Qed.

Lemma classify_commit_classes_agree (reg : registry)
    (ignored_authors : gset (string * string)) (st st' : commit_stats)
    (c : string) (commit : Commit) :
  classify_commit reg ignored_authors st c commit = Ok st' ->
  commit_classes_agree ignored_authors st ->
  commit_classes_agree ignored_authors st'.
Proof.
  unfold classify_commit. intros Hcl [Ha Hc].
  destruct (bool_decide _); [by injection Hcl as <-|].
  destruct (cached_co_authors _ _ _ _) as [[co cc]|e] eqn:Hco; [|done].
  apply cached_co_authors_entry in Hco as [Hentry Hsub].
  assert (forall h co0, commit_coauthors_cache st !! h = Some co0 ->
                        cc !! h = Some co0) as Hkeep
    by (intros h co0 Hh; by eapply lookup_weaken).
  destruct (valid_co_authors_of _ co) as [|x valid] eqn:Hvalid;
    injection Hcl as <-; split; cbn; intros h Hin.
  - apply add_commit_in_some in Hin as [->|Hin]; [by exists co|].
    destruct (Ha h Hin) as (co0 & Hco0 & Hv). exists co0. eauto.
  - destruct (Hc h Hin) as (co0 & Hco0 & Hv). exists co0. eauto.
  - destruct (Ha h Hin) as (co0 & Hco0 & Hv). exists co0. eauto.
  - apply (add_commits_in_some h (x :: valid)) in Hin as [->|Hin].
    { exists co. by rewrite Hvalid. }
    apply add_commit_in_some in Hin as [->|Hin].
    { exists co. by rewrite Hvalid. }
    destruct (Hc h Hin) as (co0 & Hco0 & Hv). exists co0. eauto.
Qed.

(** X17. When commit attribution completes, every hash in some
    contributor's set of Alone commits has an entry in the shared co-author
    cache without a valid (not ignored) co-author, and every hash in some
    contributor's set of Collab commits has an entry with at least one. So
    no commit is counted as Alone for one contributor and as Collab for the
    same or another contributor, even when the history lists a hash more
    than once. *)
Theorem commit_is_alone_or_collab_never_both :
  forall (run_git : list string -> string + string)
         (repo_path repo_id : string) (reg : registry)
         (fnmatch : string -> string -> bool)
         (students_config : StudentsConfig)
         (ignored_authors : gset (string * string))
         (include_patterns exclude_patterns : list string)
         (coauthors_cache : gmap string (list Author))
         (g g' : globals) (cs : commit_stats),
    _collect_commit_stats run_git repo_path repo_id reg fnmatch students_config
      ignored_authors include_patterns exclude_patterns coauthors_cache g
      = (Ok cs, g') ->
    commit_classes_agree ignored_authors cs
    /\ forall h, ~ (in_some_commit_set h (alone_commits cs)
                    /\ in_some_commit_set h (collab_commits cs)).
Proof.
  intros run_git repo_path repo_id reg fnmatch cfg ign inc exc cache0 g g' cs
    Hrun.
  assert (commit_classes_agree ign cs) as Hagree.
  { unfold _collect_commit_stats in Hrun. rewrite M_bind_unfold in Hrun.
    destruct (get_all_commits _ _ _ g) as [[all_commits|e] g0]; [|done].
    revert Hrun.
    apply (for_each_invariant (fun st _ => commit_classes_agree ign st)).
    - intros st [h fs] gi st' gi' _ Hinv Hstep.
      apply commit_step_completed in Hstep
        as [->|(commit & g1 & _ & Hcl)]; [done|].
      by eapply classify_commit_classes_agree.
    - split; cbn; intros h (a & s & Hs & Hin);
        by destruct (empty_per_student_in_no_set h (students cfg) a s). }
  split; [done|].
  intros h [Halone Hcollab]. destruct Hagree as [Ha Hc].
  destruct (Ha h Halone) as (co & Hco & Hv).
  destruct (Hc h Hcollab) as (co' & Hco' & Hv').
  congruence.
Qed.

Lemma commit_is_alone_or_collab_never_both_witness :
  commit_classes_agree ∅ commit_stats_partly_unknown
  /\ forall h, ~ (in_some_commit_set h (alone_commits commit_stats_partly_unknown)
                  /\ in_some_commit_set h
                       (collab_commits commit_stats_partly_unknown)).
Proof.
  apply (commit_is_alone_or_collab_never_both git_partly_unknown "/repo"
           "org/repo" demo_registry fnmatch_glob roster_ann_bob ∅ ["src/*"] []
           ∅ empty_globals
           (_collect_commit_stats git_partly_unknown "/repo" "org/repo"
              demo_registry fnmatch_glob roster_ann_bob ∅ ["src/*"] [] ∅
              empty_globals).2
           commit_stats_partly_unknown).
  vm_compute. reflexivity.
Defined.

(** ** The errors of an analysis *)

Section AnalysisErrors.
Variable run_git : list string -> string + string.
Variables repo_path repo_id : string.
Variable reg : registry.
Variable fnmatch : string -> string -> bool.
Variable which_gh : option string.
Variable gh_pr_view_commits : Z -> result (option (list gh_commit)).
Variable gh_pr_list_summary : result (list (option Z * option string)).
Variable gh_pr_list_details : result (list gh_pr).
Variable gh_pr_diff : Z -> option string.
Hypothesis view_commits_failure :
  forall n e, gh_pr_view_commits n = Raise e -> gh_failure e.
Hypothesis list_summary_failure :
  forall e, gh_pr_list_summary = Raise e -> gh_failure e.
Hypothesis list_details_failure :
  forall e, gh_pr_list_details = Raise e -> gh_failure e.

Lemma resolution_error_blame_error e : resolution_error e -> blame_error e.
Proof. by destruct e. Qed.

Lemma co_author_error_blame_error e : co_author_error e -> blame_error e.
Proof. by intros (n & m & d & ->). Qed.

Lemma git_blame_error args k : raises_only blame_error (git run_git args k).
Proof.
  eapply raises_only_weaken; [|apply git_raises]. by intros e [stderr ->].
Qed.

Lemma blame_line_raises st line :
  raises_only blame_error
    (blame_line run_git repo_path repo_id reg st line).
Proof.
  destruct st as [[ls cur] cache]. unfold blame_line.
  destruct (is_blame_header line); [apply raises_only_ret|].
  destruct (PyStr.startswith _ line); [|apply raises_only_ret].
  destruct cur as [h|]; [|apply raises_only_ret].
  destruct (cache !! h); [apply raises_only_ret|].
  apply raises_only_bind; [|intros c; apply raises_only_ret].
  eapply raises_only_weaken; [apply resolution_error_blame_error|].
  apply Commit_get_raises.
Qed.

Lemma TrackedFile_get_raises file_path commit :
  raises_only blame_error
    (TrackedFile_get run_git repo_path repo_id reg file_path commit).
Proof.
  unfold TrackedFile_get. apply raises_only_bind.
  { eapply raises_only_try_except; [apply git_raises | |].
    - by intros e [stderr ->].
    - intros e _ _. by apply raises_only_raise. }
  intros out. apply raises_only_bind.
  { eapply raises_only_try_except; [apply git_raises | |].
    - by intros e [stderr ->].
    - intros e [stderr ->] _. unfold blame_failure.
      destruct (_ || _); by apply raises_only_raise. }
  intros stdout. apply raises_only_bind.
  - apply raises_only_for_each. intros st line. apply blame_line_raises.
  - intros [[ls cur] cache]. apply raises_only_ret.
Qed.

Lemma line_step_raises ign p st entry e :
  line_step reg ign p st entry = Raise e -> co_author_error e.
Proof.
  destruct entry as [commit content]. unfold line_step.
  destruct (negb _); [done|]. destruct (bool_decide _); [done|].
  unfold cached_co_authors. destruct (_ !! hash commit); simpl.
  - by destruct (valid_co_authors_of _ _).
  - destruct (get_co_authors reg commit) as [co|e'] eqn:Hco; simpl.
    + by destruct (valid_co_authors_of _ _).
    + intros [= <-]. by eapply co_authors_loop_raises.
Qed.

Lemma rfold_raises {A S} (P : exn -> Prop) (body : S -> A -> result S)
    (l : list A) :
  (forall s x e, body s x = Raise e -> P e) ->
  forall s e, rfold body l s = Raise e -> P e.
Proof.
  intros Hb. induction l as [|x l IH]; intros s e; simpl; [done|].
  destruct (body s x) as [s'|e'] eqn:Hx; simpl.
  - apply IH.
  - intros [= <-]. by eapply Hb.
Qed.

Lemma _collect_line_stats_raises cfg ign inc exc :
  raises_only blame_error
    (_collect_line_stats run_git repo_path repo_id reg fnmatch cfg ign inc exc).
Proof.
  unfold _collect_line_stats. apply raises_only_for_each.
  intros st pattern. unfold for_TrackedFile_files.
  apply raises_only_bind; [apply git_blame_error|].
  intros stdout. apply raises_only_for_each. intros s file_path.
  destruct (fnmatch file_path pattern); [|apply raises_only_ret].
  apply raises_only_bind; [apply TrackedFile_get_raises|].
  intros tf. unfold tracked_file_step.
  destruct (should_exclude _ _ _); [apply raises_only_ret|].
  apply raises_only_lift. intros e He.
  apply co_author_error_blame_error.
  revert He. apply rfold_raises. intros s0 x e0. apply line_step_raises.
Qed.

(** The local lookup of a request's commit is left only by
    [CommitNotFoundError]: every other failure falls back on the record of
    the service. *)
Lemma pr_commit_step_raises commits commit_data :
  raises_only (fun e => exists c, e = CommitNotFoundError c)
    (pr_commit_step run_git repo_path repo_id reg commits commit_data).
Proof.
  unfold pr_commit_step. destruct (negb _); [apply raises_only_ret|].
  apply raises_only_bind; [|intros entry; apply raises_only_ret].
  eapply (raises_only_try_except _
            (fun e => resolution_error e \/ co_author_error e)).
  - unfold local_commit_entry. apply raises_only_bind.
    + eapply raises_only_weaken; [|apply Commit_get_raises]. by left.
    + intros c. apply raises_only_bind; [|intros co; apply raises_only_ret].
      apply raises_only_lift. intros e He. right.
      by eapply co_authors_loop_raises.
  - intros e [He|(n & m & d & ->)] Hc; [|done]. destruct e; try done. eauto.
  - intros e _ _. apply raises_only_ret.
Qed.

Lemma _get_pr_commits_raises n :
  raises_only (fun e => exists c, e = CommitNotFoundError c)
    (_get_pr_commits run_git repo_path repo_id reg gh_pr_view_commits n).
Proof.
  unfold _get_pr_commits.
  destruct (gh_pr_view_commits n) as [data|e] eqn:Hview.
  - apply raises_only_for_each. intros s x. apply pr_commit_step_raises.
  - apply view_commits_failure in Hview.
    destruct e; try done; apply raises_only_ret.
Qed.

Lemma gh_list_error_raises {A} e :
  gh_failure e ->
  raises_only (fun e' => exists msg, e' = GitHubApiError msg)
    (@gh_list_error A e).
Proof. destruct e; try done; intros _; apply raises_only_raise; eauto. Qed.

Lemma get_pull_requests_raises :
  raises_only (analysis_error true)
    (get_pull_requests run_git repo_path repo_id reg which_gh
       gh_pr_view_commits gh_pr_list_summary gh_pr_list_details gh_pr_diff).
Proof.
  unfold get_pull_requests.
  destruct which_gh; [|by apply raises_only_raise].
  destruct gh_pr_list_summary as [summary|e] eqn:Hsummary.
  2:{ eapply raises_only_weaken;
        [|by apply gh_list_error_raises, list_summary_failure].
      by intros e' [msg ->]. }
  intros g e.
  destruct (fold_left _ summary _) as [prs to_fetch].
  destruct to_fetch as [|n to_fetch]; [done|].
  revert g e. change (raises_only (analysis_error true)
    (fetched_prs ← _fetch_pr_details run_git repo_path repo_id reg
                     gh_pr_view_commits gh_pr_list_details gh_pr_diff
                     (n :: to_fetch);
     for_each (cache_step repo_id) fetched_prs prs)).
  apply raises_only_bind.
  - unfold _fetch_pr_details.
    destruct gh_pr_list_details as [details|e] eqn:Hdetails.
    + apply raises_only_for_each. intros acc pr_data. unfold fetch_pr_step.
      destruct (negb _); [apply raises_only_ret|].
      apply raises_only_bind; [|intros c; apply raises_only_ret].
      eapply raises_only_weaken; [|apply _get_pr_commits_raises].
      by intros e' [c ->].
    + eapply raises_only_weaken;
        [|by apply gh_list_error_raises, list_details_failure].
      by intros e' [msg ->].
  - intros fetched. apply raises_only_for_each. intros acc pr g e.
    unfold cache_step. done.
Qed.

Lemma analyze_raises cfg use_github :
  raises_only (analysis_error use_github)
    (analyze run_git repo_path repo_id reg fnmatch which_gh gh_pr_view_commits
       gh_pr_list_summary gh_pr_list_details gh_pr_diff cfg use_github).
Proof.
  unfold analyze. apply raises_only_bind.
  { eapply raises_only_weaken; [|apply _collect_line_stats_raises].
    by intros []. }
  intros ls. apply raises_only_bind.
  { eapply raises_only_weaken; [|apply _collect_commit_stats_raises].
    intros e [[stderr ->]|(n & m & d & ->)]; done. }
  intros cs. apply raises_only_bind; [|intros gh; apply raises_only_ret].
  destruct use_github; [|apply raises_only_ret].
  apply raises_only_bind; [|intros s; apply raises_only_ret].
  unfold _collect_github_stats.
  apply raises_only_bind; [|intros prs; apply raises_only_ret].
  apply get_pull_requests_raises.
Qed.
End AnalysisErrors.

(** X18. When the [gh] queries fail only as a failed command or as
    undecodable output, an analysis (line pass, commit pass and, when asked
    for, request statistics) ends only with a failed git command, a commit
    that is not found, a file that is not found, an unknown author, or, when
    the request statistics are asked for, a missing [gh] executable or a
    [GitHubApiError]. Each of these is caught by the [except] clauses of
    [main]. *)
Theorem analysis_fails_only_with_handled_errors :
  forall (run_git : list string -> string + string)
         (repo_path repo_id : string) (reg : registry)
         (fnmatch : string -> string -> bool) (which_gh : option string)
         (gh_pr_view_commits : Z -> result (option (list gh_commit)))
         (gh_pr_list_summary : result (list (option Z * option string)))
         (gh_pr_list_details : result (list gh_pr))
         (gh_pr_diff : Z -> option string)
         (cfg : StudentsConfig) (use_github : bool) (g : globals) (e : exn),
    (forall n e', gh_pr_view_commits n = Raise e' -> gh_failure e') ->
    (forall e', gh_pr_list_summary = Raise e' -> gh_failure e') ->
    (forall e', gh_pr_list_details = Raise e' -> gh_failure e') ->
    (analyze run_git repo_path repo_id reg fnmatch which_gh gh_pr_view_commits
       gh_pr_list_summary gh_pr_list_details gh_pr_diff cfg use_github g).1
    = Raise e ->
    analysis_error use_github e /\ handled_by_main e = true.
Proof.
  intros run_git repo_path repo_id reg fnmatch which_gh view summary details
    diff cfg use_github g e Hview Hsummary Hdetails Hrun.
  assert (analysis_error use_github e) as He
    by (by eapply analyze_raises; [..|exact Hrun]).
  split; [done|]. by destruct e.
Qed.

Lemma analysis_fails_only_with_handled_errors_witness :
  analysis_error true
    (GitHubApiError "Failed to fetch pull requests: HTTP 401")
  /\ handled_by_main
       (GitHubApiError "Failed to fetch pull requests: HTTP 401") = true.
Proof.
  apply (analysis_fails_only_with_handled_errors git_copied_line "/repo"
           "org/repo" demo_registry fnmatch_glob (Some "gh") gh_no_commits
           gh_summary_unauthorized gh_details_two gh_no_diff roster_ann_bob
           true empty_globals).
  - intros n e' H. discriminate H.
  - intros e' [= <-]. exact I.
  - intros e' H. discriminate H.
  - vm_compute. reflexivity.
Defined.

(** ** The cache file *)

Lemma analyze_and_report_cache_history run_git repo_path repo_id reg fnmatch
    which_gh gh_pr_view_commits gh_pr_list_summary gh_pr_list_details
    gh_pr_diff cfg use_github hashes_of :
  preserves cache_history
    (analyze_and_report run_git repo_path repo_id reg fnmatch which_gh
       gh_pr_view_commits gh_pr_list_summary gh_pr_list_details gh_pr_diff
       cfg use_github hashes_of).
Proof.
  unfold analyze_and_report.
  apply (preserves_bind _ cache_history_trans);
    [apply analyze_cache_history|].
  intros result. apply (preserves_bind _ cache_history_trans);
    [|intros l; apply (preserves_ret _ cache_history_refl)].
  unfold lookup_commits.
  apply (preserves_for_each _ cache_history_refl cache_history_trans).
  intros acc h. apply (preserves_bind _ cache_history_trans);
    [|intros c; apply (preserves_ret _ cache_history_refl)].
  apply (Commit_get_preserves run_git repo_path repo_id reg cache_history
           cache_history_refl cache_history_trans).
  intros args k _. apply git_cache_history.
Qed.

(** X19. What a run leaves in the cache file is what the next run loads.
    A process loads the file, runs the analysis and the report, and saves
    on exit; when the write succeeds (or nothing is to be written), loading
    the file again gives exactly the two caches the run ended with, whether
    it succeeded or raised, with the dirty flag not set. So the next run
    starts with every command answer and every closed request that this run
    had loaded, and serves each cached answer without running the command,
    whatever the command would answer then. *)
Theorem run_persists_the_cache :
  forall (run_git : list string -> string + string)
         (repo_path repo_id : string) (reg : registry)
         (fnmatch : string -> string -> bool) (which_gh : option string)
         (gh_pr_view_commits : Z -> result (option (list gh_commit)))
         (gh_pr_list_summary : result (list (option Z * option string)))
         (gh_pr_list_details : result (list gh_pr))
         (gh_pr_diff : Z -> option string)
         (cfg : StudentsConfig) (use_github : bool)
         (hashes_of : AnalysisResult -> list string) (file : cache_file),
    let g0 := load_cache file empty_globals in
    let g1 := (analyze_and_report run_git repo_path repo_id reg fnmatch
                 which_gh gh_pr_view_commits gh_pr_list_summary
                 gh_pr_list_details gh_pr_diff cfg use_github hashes_of g0).2 in
    let file' := (save_cache Written file g1).1 in
    let g0' := load_cache file' empty_globals in
    _cache g0' = _cache g1
    /\ _pr_cache g0' = _pr_cache g1
    /\ _cache_dirty g0' = false
    /\ _cache g0 ⊆ _cache g0'
    /\ dom (_pr_cache g0) ⊆ dom (_pr_cache g0')
    /\ forall k out,
         _cache g1 !! k = Some out ->
         forall run_git' args',
           git run_git' args' k g0' = (Ok out, g0').
Proof.
  intros run_git repo_path repo_id reg fnmatch which_gh view summary details
    diff cfg use_github hashes_of file g0 g1 file' g0'.
  pose proof (analyze_and_report_cache_history run_git repo_path repo_id reg
                fnmatch which_gh view summary details diff cfg use_github
                hashes_of g0)
    as (Hcache & Hpr & _ & Hclean).
  fold g1 in Hcache, Hpr, Hclean.
  assert (_cache_dirty g0' = false) as Hdirty0
    by (subst g0'; by destruct file' as [| |[]]).
  assert (_cache g0' = _cache g1 /\ _pr_cache g0' = _pr_cache g1)
    as [Hc Hp].
  { subst g0' file'. unfold save_cache.
    destruct (_cache_dirty g1) eqn:Hdirty; cbn [negb fst]; [done|].
    destruct (Hclean eq_refl) as [-> ->]. done. }
  repeat split; try done.
  - by rewrite Hc.
  - by rewrite Hp.
  - intros k out Hk run_git' args'. unfold git. by rewrite Hc, Hk.
Qed.

(** ** The identity of the repository *)

Lemma append_String (c : ascii) (a b : string) :
  String c a +:+ b = String c (a +:+ b).
Proof. reflexivity. Qed.

Lemma append_assoc_string (a b c : string) :
  (a +:+ b) +:+ c = a +:+ (b +:+ c).
Proof.
  induction a as [|x a IH]; [done|]. rewrite !append_String. by rewrite IH.
Qed.

Lemma prefix_empty (s : string) : String.prefix "" s = true.
Proof. by destruct s. Qed.

Lemma contains_char (c : ascii) (s : string) :
  PyStr.contains (String c "") s = PyStr.mem_char c s.
Proof.
  induction s as [|d s IH]; [done|].
  cbn [PyStr.contains PyStr.mem_char String.prefix]. rewrite IH.
  destruct (ascii_dec c d) as [->|Hne].
  - by rewrite prefix_empty, Ascii.eqb_refl.
  - apply Ascii.eqb_neq in Hne. by rewrite Hne.
Qed.

Lemma mem_char_app (c : ascii) (a b : string) :
  PyStr.mem_char c (a +:+ b) = PyStr.mem_char c a || PyStr.mem_char c b.
Proof.
  induction a as [|x a IH]; [done|]. rewrite append_String.
  cbn [PyStr.mem_char]. by rewrite IH, orb_assoc.
Qed.

Lemma split_from_no_sep (sep : ascii) (s : string) :
  PyStr.mem_char sep s = false ->
  forall cur, PyStr.split_from sep cur s = [cur +:+ s].
Proof.
  induction s as [|c s IH]; intros Hs cur; cbn [PyStr.split_from].
  - f_equal. induction cur as [|x cur IHc]; [done|].
    by rewrite append_String, <- IHc.
  - cbn [PyStr.mem_char] in Hs. apply orb_false_elim in Hs as [Hc Hs].
    rewrite Ascii.eqb_sym, Hc, (IH Hs), append_assoc_string. done.
Qed.

Lemma split_from_not_nil (sep : ascii) (s cur : string) :
  PyStr.split_from sep cur s <> [].
Proof.
  revert cur. induction s as [|c s IH]; intros cur; cbn [PyStr.split_from];
    [done|]. destruct (Ascii.eqb c sep); [done|apply IH].
Qed.

(** The fields of [pre], then the fields of [rest]. *)
Lemma split_from_sep (sep : ascii) (pre rest : string) :
  forall cur, exists front,
    PyStr.split_from sep cur (pre +:+ String sep rest)
    = front ++ PyStr.split_from sep "" rest.
Proof.
  induction pre as [|c pre IH]; intros cur.
  - exists [cur]. change ("" +:+ String sep rest) with (String sep rest).
    cbn [PyStr.split_from]. by rewrite Ascii.eqb_refl.
  - rewrite append_String. cbn [PyStr.split_from].
    destruct (Ascii.eqb c sep).
    + destruct (IH "") as [front ->]. by exists (cur :: front).
    + apply IH.
Qed.

Lemma last_app_not_nil {A} (l1 l2 : list A) :
  l2 <> [] -> last (l1 ++ l2) = last l2.
Proof.
  intros Hl2. destruct l2 as [|x l2 _] using rev_ind; [done|].
  by rewrite app_assoc, !last_snoc.
Qed.

Lemma split_last (sep : ascii) (pre rest : string) :
  PyStr.mem_char sep rest = false ->
  last (PyStr.split sep (pre +:+ String sep rest)) = Some rest.
Proof.
  intros Hrest. unfold PyStr.split.
  destruct (split_from_sep sep pre rest "") as [front ->].
  rewrite last_app_not_nil by apply split_from_not_nil.
  by rewrite split_from_no_sep.
Qed.

Lemma append_empty_r (s : string) : s +:+ "" = s.
Proof. induction s as [|c s IH]; [done|]. by rewrite append_String, IH. Qed.

Lemma split_from_two (sep : ascii) (a b : string) :
  PyStr.mem_char sep a = false -> PyStr.mem_char sep b = false ->
  forall cur, PyStr.split_from sep cur (a +:+ String sep b) = [cur +:+ a; b].
Proof.
  intros Ha Hb. induction a as [|c a IH]; intros cur.
  - change ("" +:+ String sep b) with (String sep b).
    cbn [PyStr.split_from]. rewrite Ascii.eqb_refl, append_empty_r.
    by rewrite split_from_no_sep.
  - cbn [PyStr.mem_char] in Ha. apply orb_false_elim in Ha as [Hc Ha].
    rewrite append_String. cbn [PyStr.split_from].
    rewrite Ascii.eqb_sym, Hc, (IH Ha), append_assoc_string. done.
Qed.

Lemma split_last_two (sep : ascii) (pre a b : string) :
  PyStr.mem_char sep a = false -> PyStr.mem_char sep b = false ->
  last_n 2 (PyStr.split sep (pre +:+ String sep (a +:+ String sep b)))
  = [a; b].
Proof.
  intros Ha Hb. unfold PyStr.split.
  destruct (split_from_sep sep pre (a +:+ String sep b) "") as [front ->].
  rewrite split_from_two by done.
  unfold last_n. rewrite length_app. cbn [length].
  replace (length front + 2 - 2) with (length front) by lia.
  by rewrite drop_app_length.
Qed.

(** An occurrence of ".git" cannot start in [s] and end in a ".git"
    that follows [s]. *)
Lemma dot_git_no_overlap (c : ascii) (s : string) :
  String.prefix ".git" (String c s) = false ->
  String.prefix ".git" (String c s +:+ ".git") = false.
Proof.
  rewrite append_String. cbn [String.prefix].
  destruct (ascii_dec "." c) as [<-|]; [|done].
  destruct s as [|c1 s]; [by vm_compute|].
  rewrite append_String. cbn [String.prefix].
  destruct (ascii_dec "g" c1) as [<-|]; [|done].
  destruct s as [|c2 s]; [by vm_compute|].
  rewrite append_String. cbn [String.prefix].
  destruct (ascii_dec "i" c2) as [<-|]; [|done].
  destruct s as [|c3 s]; [by vm_compute|].
  rewrite append_String. cbn [String.prefix].
  destruct (ascii_dec "t" c3) as [<-|]; [|done].
  by rewrite !prefix_empty.
Qed.

Lemma replace_dot_git_suffix (s : string) :
  PyStr.contains ".git" s = false -> replace ".git" "" (s +:+ ".git") = s.
Proof.
  unfold replace. induction s as [|c s IH]; intros Hs; [done|].
  cbn [PyStr.contains] in Hs. apply orb_false_elim in Hs as [Hprefix Hs].
  pose proof (dot_git_no_overlap c s Hprefix) as Hno.
  rewrite append_String in *. cbn [replace_from]. rewrite Hno.
  by rewrite (IH Hs).
Qed.

(** The branch for the SSH notation, taken by every URL with a colon and
    an at sign: the identity is what follows the last colon, less the
    ".git" at its end. *)
Lemma repo_id_after_last_colon (stdout pre tail path_name : string) :
  PyStr.strip stdout = pre +:+ ":" +:+ tail +:+ ".git" ->
  PyStr.mem_char "@" (pre +:+ tail) = true ->
  PyStr.mem_char ":" tail = false ->
  PyStr.contains ".git" tail = false ->
  repo_id_of (Some stdout) path_name = tail.
Proof.
  intros Hurl Hat Hcolon Hgit. unfold repo_id_of. cbn zeta. rewrite Hurl.
  rewrite !contains_char.
  assert (PyStr.mem_char ":" (pre +:+ ":" +:+ tail +:+ ".git") = true) as ->.
  { rewrite mem_char_app. change (":" +:+ tail +:+ ".git")
      with (String ":" (tail +:+ ".git")).
    cbn [PyStr.mem_char]. rewrite Ascii.eqb_refl. by rewrite orb_true_r. }
  assert (PyStr.mem_char "@" (pre +:+ ":" +:+ tail +:+ ".git") = true) as ->.
  { rewrite mem_char_app in Hat. rewrite !mem_char_app.
    apply orb_prop in Hat as [->| ->]; [done|]. by rewrite !orb_true_r. }
  cbn [andb].
  change (pre +:+ ":" +:+ tail +:+ ".git")
    with (pre +:+ String ":" (tail +:+ ".git")).
  rewrite split_last.
  - cbn [default from_option id]. by apply replace_dot_git_suffix.
  - rewrite mem_char_app, Hcolon. done.
Qed.

(** X20. The SSH and the HTTPS notation of the same remote give the same
    repository identity, on which the cache keys are built: for a host
    without at sign, and an organisation and a repository name without
    colon, slash and at sign and with no ".git" inside,
    [git@host:org/repo.git] and [https://host/org/repo.git] both give
    [org/repo]. An HTTPS URL that carries a user name has a colon and an at
    sign and is read as the SSH notation: its identity is
    [//user@host/org/repo], not that of the same remote without user. *)
Theorem remote_notations_share_identity :
  forall (host org repo ssh_stdout https_stdout path_name : string),
    PyStr.mem_char "@" host = false ->
    plain_name org = true -> plain_name repo = true ->
    PyStr.contains ".git" (org +:+ "/" +:+ repo) = false ->
    PyStr.strip ssh_stdout
    = "git@" +:+ host +:+ ":" +:+ org +:+ "/" +:+ repo +:+ ".git" ->
    PyStr.strip https_stdout
    = "https://" +:+ host +:+ "/" +:+ org +:+ "/" +:+ repo +:+ ".git" ->
    repo_id_of (Some ssh_stdout) path_name = org +:+ "/" +:+ repo
    /\ repo_id_of (Some https_stdout) path_name = org +:+ "/" +:+ repo
    /\ forall user stdout,
         PyStr.mem_char ":" (user +:+ host) = false ->
         PyStr.contains ".git"
           ("//" +:+ user +:+ "@" +:+ host +:+ "/" +:+ org +:+ "/" +:+ repo)
         = false ->
         PyStr.strip stdout
         = "https://" +:+ user +:+ "@" +:+ host +:+ "/" +:+ org +:+ "/"
           +:+ repo +:+ ".git" ->
         repo_id_of (Some stdout) path_name
         = "//" +:+ user +:+ "@" +:+ host +:+ "/" +:+ org +:+ "/" +:+ repo.
Proof.
  intros host org repo ssh_stdout https_stdout path_name Hhost Horg Hrepo
    Hgit Hssh Hhttps.
  unfold plain_name in Horg, Hrepo.
  apply andb_prop in Horg as [[Horg1 Horg2]%andb_prop Horg3].
  apply andb_prop in Hrepo as [[Hrepo1 Hrepo2]%andb_prop Hrepo3].
  apply negb_true_iff in Horg1, Horg2, Horg3, Hrepo1, Hrepo2, Hrepo3.
  split; [|split].
  - apply (repo_id_after_last_colon ssh_stdout ("git@" +:+ host)
             (org +:+ "/" +:+ repo)).
    + rewrite Hssh. by rewrite !append_assoc_string.
    + done.
    + rewrite !mem_char_app, Horg1, Hrepo1. done.
    + done.
  - unfold repo_id_of. cbn zeta. rewrite Hhttps. rewrite !contains_char.
    assert (PyStr.mem_char "@"
              ("https://" +:+ host +:+ "/" +:+ org +:+ "/" +:+ repo +:+ ".git")
            = false) as ->.
    { rewrite !mem_char_app, Hhost, Horg3, Hrepo3. done. }
    rewrite andb_false_r.
    assert (PyStr.startswith "https://"
              ("https://" +:+ host +:+ "/" +:+ org +:+ "/" +:+ repo +:+ ".git")
            = true) as ->.
    { unfold PyStr.startswith. rewrite !append_String.
      cbn [String.prefix]. repeat (destruct (ascii_dec _ _); [|done]).
      apply prefix_empty. }
    replace ("https://" +:+ host +:+ "/" +:+ org +:+ "/" +:+ repo +:+ ".git")
      with (("https://" +:+ host)
            +:+ String "/" (org +:+ String "/" (repo +:+ ".git")))
      by (by rewrite append_assoc_string).
    rewrite split_last_two.
    + cbn [join]. rewrite <- !append_assoc_string.
      rewrite (append_assoc_string org "/" repo).
      by apply replace_dot_git_suffix.
    + done.
    + rewrite mem_char_app, Hrepo2. done.
  - intros user stdout Hcolon Hgit' Hurl.
    apply (repo_id_after_last_colon stdout "https"
             ("//" +:+ user +:+ "@" +:+ host +:+ "/" +:+ org +:+ "/" +:+ repo)).
    + rewrite Hurl. by rewrite !append_assoc_string.
    + rewrite !mem_char_app. cbn. by rewrite !orb_true_r.
    + rewrite mem_char_app in Hcolon.
      apply orb_false_elim in Hcolon as [Hu Hh].
      rewrite !mem_char_app, Hu, Hh, Horg1, Hrepo1. done.
    + done.
Qed.

Lemma remote_notations_share_identity_witness :
  repo_id_of (Some ("git@github.com:kc8se/datool.git" +:+ nl)) "datool"
  = "kc8se/datool"
  /\ repo_id_of (Some ("https://github.com/kc8se/datool.git" +:+ nl)) "datool"
     = "kc8se/datool"
  /\ forall user stdout,
       PyStr.mem_char ":" (user +:+ "github.com") = false ->
       PyStr.contains ".git"
         ("//" +:+ user +:+ "@" +:+ "github.com" +:+ "/" +:+ "kc8se" +:+ "/"
          +:+ "datool") = false ->
       PyStr.strip stdout
       = "https://" +:+ user +:+ "@" +:+ "github.com" +:+ "/" +:+ "kc8se"
         +:+ "/" +:+ "datool" +:+ ".git" ->
       repo_id_of (Some stdout) "datool"
       = "//" +:+ user +:+ "@" +:+ "github.com" +:+ "/" +:+ "kc8se" +:+ "/"
         +:+ "datool".
Proof.
  apply (remote_notations_share_identity "github.com" "kc8se" "datool"
           ("git@github.com:kc8se/datool.git" +:+ nl)
           ("https://github.com/kc8se/datool.git" +:+ nl) "datool");
    vm_compute; reflexivity.
Defined.

(** ** Line attribution *)

Lemma add_line_is_Some (data : LinesData) (x : Author) (p content : string)
    (a : string * string) :
  is_Some (data !! a) -> is_Some (add_line data x p content !! a).
Proof.
  intros Ha. unfold add_line.
  destruct (data !! author_key x) as [per_file|]; [|done].
  destruct (decide (author_key x = a)) as [<-|Hne].
  - by rewrite lookup_insert_eq.
  - by rewrite lookup_insert_ne.
Qed.

Lemma add_line_lines_of (data : LinesData) (x : Author) (p content : string)
    (a : string * string) :
  is_Some (data !! a) ->
  lines_of (add_line data x p content) a p
  = lines_of data a p
    ++ (if bool_decide (author_key x = a) then [content] else []).
Proof.
  intros [per_file Ha]. unfold add_line, lines_of.
  destruct (decide (author_key x = a)) as [<-|Hne].
  - rewrite bool_decide_eq_true_2 by done. rewrite Ha.
    by rewrite !lookup_insert_eq.
  - rewrite bool_decide_eq_false_2 by done. rewrite app_nil_r.
    destruct (data !! author_key x); [|done].
    by rewrite lookup_insert_ne.
Qed.

Lemma add_lines_lines_of (p content : string) (a : string * string)
    (valid : list Author) :
  forall data : LinesData,
    is_Some (data !! a) ->
    is_Some (fold_left (fun d co_author => add_line d co_author p content)
               valid data !! a)
    /\ lines_of (fold_left (fun d co_author => add_line d co_author p content)
                   valid data) a p
       = lines_of data a p ++ replicate (occurrences a valid) content.
Proof.
  induction valid as [|x valid IH]; intros data Ha; cbn [fold_left].
  - split; [done|]. by rewrite app_nil_r.
  - destruct (IH (add_line data x p content)) as [Hsome ->];
      [by apply add_line_is_Some|].
    split; [done|]. rewrite add_line_lines_of by done.
    rewrite <- app_assoc. f_equal. unfold occurrences. cbn [List.filter].
    by destruct (bool_decide (author_key x = a)).
Qed.

Section LineShares.
Variable reg : registry.
Variable ignored_authors : gset (string * string).
Variable p : string.
Variable co : string -> list Author.

Lemma line_step_share (st : line_stats) (commit : Commit) (content : string) :
  cache_agrees co st ->
  get_co_authors reg commit = Ok (co (hash commit)) ->
  exists st1,
    line_step reg ignored_authors p st (commit, content) = Ok st1
    /\ cache_agrees co st1
    /\ forall a,
         is_Some (alone_lines st !! a) -> is_Some (collab_lines st !! a) ->
         is_Some (alone_lines st1 !! a) /\ is_Some (collab_lines st1 !! a)
         /\ lines_of (alone_lines st1) a p
            = lines_of (alone_lines st) a p
              ++ alone_share ignored_authors co a (commit, content)
         /\ lines_of (collab_lines st1) a p
            = lines_of (collab_lines st) a p
              ++ collab_share ignored_authors co a (commit, content).
Proof.
  intros Hcache Hco.
  unfold line_step, alone_share, collab_share, line_counts. cbn [fst snd].
  destruct (PyStr.truthy (PyStr.strip content)); cbn [negb andb].
  2:{ exists st. repeat split; try done; by rewrite app_nil_r. }
  destruct (bool_decide (author_key (author commit) ∈ ignored_authors));
    cbn [negb].
  { exists st. repeat split; try done; by rewrite app_nil_r. }
  assert (exists cc,
            cached_co_authors reg (coauthors_cache st) (hash commit) commit
            = Ok (co (hash commit), cc)
            /\ forall h l, cc !! h = Some l -> l = co h) as (cc & -> & Hcc).
  { unfold cached_co_authors.
    destruct (coauthors_cache st !! hash commit) as [l|] eqn:Hl.
    - exists (coauthors_cache st). by rewrite (Hcache _ _ Hl).
    - rewrite Hco. cbn. eexists. split; [done|]. intros h l.
      destruct (decide (hash commit = h)) as [<-|Hne].
      + rewrite lookup_insert_eq. by intros [= <-].
      + rewrite lookup_insert_ne by done. apply Hcache. }
  destruct (valid_co_authors_of ignored_authors (co (hash commit)))
    as [|x valid].
  - eexists. split; [done|]. split; [done|]. cbn.
    intros a Ha Hc. split; [by apply add_line_is_Some|]. split; [done|].
    split; [by apply add_line_lines_of|]. by rewrite app_nil_r.
  - eexists. split; [done|]. split; [done|]. cbn [alone_lines collab_lines].
    intros a Ha Hc. split; [done|].
    destruct (add_lines_lines_of p content a (x :: valid)
                (add_line (collab_lines st) (author commit) p content))
      as [Hsome Hlines]; [by apply add_line_is_Some|].
    split; [done|]. split; [by rewrite app_nil_r|].
    rewrite Hlines, add_line_lines_of by done. rewrite <- app_assoc.
    f_equal. by destruct (bool_decide (author_key (author commit) = a)).
Qed.

End LineShares.

(** X21. Line attribution of one file, for a roster contributor: when
    the co-authors of each blamed commit can be extracted and the co-author
    cache agrees with them, the loop over the blame lines completes, and it
    appends to the contributor's Alone lines of the file, in blame order,
    each line that is not blank, whose commit is by the contributor (not
    ignored) and has no valid co-author; and to the contributor's Collab
    lines each non-blank line of a commit with a valid co-author and a
    non-ignored author, once if the contributor is the author plus once for
    each time the contributor is among the valid co-authors. Blank lines and
    lines of ignored authors add nothing. *)
Theorem lines_go_to_author_and_co_authors :
  forall (reg : registry) (ignored_authors : gset (string * string))
         (p : string) (co : string -> list Author)
         (lines : list (Commit * string)) (st : line_stats),
    (forall entry, In entry lines ->
       get_co_authors reg entry.1 = Ok (co (hash entry.1))) ->
    (forall h l, coauthors_cache st !! h = Some l -> l = co h) ->
    exists st',
      rfold (line_step reg ignored_authors p) lines st = Ok st'
      /\ forall a,
           is_Some (alone_lines st !! a) -> is_Some (collab_lines st !! a) ->
           lines_of (alone_lines st') a p
           = lines_of (alone_lines st) a p
             ++ flat_map (alone_share ignored_authors co a) lines
           /\ lines_of (collab_lines st') a p
              = lines_of (collab_lines st) a p
                ++ flat_map (collab_share ignored_authors co a) lines.
Proof.
  intros reg ign p co lines. induction lines as [|[commit content] lines IH];
    intros st Hco Hcache.
  - exists st. split; [done|]. intros a _ _. by rewrite !app_nil_r.
  - destruct (line_step_share reg ign p co st commit content Hcache
                (Hco (commit, content) (or_introl eq_refl)))
      as (st1 & Hstep & Hcache1 & Hshare).
    destruct (IH st1 (fun entry Hin => Hco entry (or_intror Hin)) Hcache1)
      as (st' & Hfold & Hrest).
    exists st'. cbn [rfold]. rewrite Hstep. split; [exact Hfold|].
    intros a Ha Hc. destruct (Hshare a Ha Hc) as (Ha1 & Hc1 & Hal & Hcl).
    destruct (Hrest a Ha1 Hc1) as [-> ->]. rewrite Hal, Hcl.
    cbn [flat_map]. by rewrite !app_assoc.
Qed.

Lemma lines_go_to_author_and_co_authors_witness :
  exists st',
    rfold (line_step demo_registry ∅ "src/a.py")
      [(pair_commit, "x = 1"); (pair_commit, "  ")]
      (initial_line_stats [ann; bob]) = Ok st'
    /\ forall a,
         is_Some (alone_lines (initial_line_stats [ann; bob]) !! a) ->
         is_Some (collab_lines (initial_line_stats [ann; bob]) !! a) ->
         lines_of (alone_lines st') a "src/a.py"
         = lines_of (alone_lines (initial_line_stats [ann; bob])) a "src/a.py"
           ++ flat_map (alone_share ∅ (fun _ => [bob]) a)
                [(pair_commit, "x = 1"); (pair_commit, "  ")]
         /\ lines_of (collab_lines st') a "src/a.py"
            = lines_of (collab_lines (initial_line_stats [ann; bob])) a
                "src/a.py"
              ++ flat_map (collab_share ∅ (fun _ => [bob]) a)
                   [(pair_commit, "x = 1"); (pair_commit, "  ")].
Proof.
  apply (lines_go_to_author_and_co_authors demo_registry ∅ "src/a.py"
           (fun _ => [bob]) [(pair_commit, "x = 1"); (pair_commit, "  ")]
           (initial_line_stats [ann; bob])).
  - intros entry [<-|[<-|[]]]; vm_compute; reflexivity.
  - intros h l H. vm_compute in H. discriminate H.
Defined.

(** ** Commits of a review request: the fallback *)

Section PrCommitFallback.
Variable run_git : list string -> string + string.
Variables repo_path repo_id : string.
Variable reg : registry.





End PrCommitFallback.



(** ** Handles of the review service *)

Lemma existsb_pointwise {A} (f g : A -> bool) (l : list A) :
  (forall x, f x = g x) -> existsb f l = existsb g l.
Proof.
  intros Hfg. induction l as [|x l IH]; [done|]. cbn. by rewrite Hfg, IH.
Qed.

(** For a roster without ambiguity, the mapping sends a handle to the
    contributor [s] exactly when the handle is that of [s] up to letter
    case. *)
Lemma handle_resolves_to (students : list Author) (s : Author) (h : string) :
  handles_distinct students -> keys_distinct students -> In s students ->
  match username_to_author students !! PyStr.lower h with
  | Some x => bool_decide (author_key x = author_key s)
  | None => false
  end = same_handle h (github_username s).
Proof.
  intros Hhandles Hkeys Hin. unfold same_handle.
  destruct (String.eqb_spec (PyStr.lower h) (PyStr.lower (github_username s)))
    as [Heq|Hne].
  - destruct (username_to_author_roster students s Hin)
      as (s' & Hs' & Hin' & Hlow).
    rewrite Heq, Hs'. rewrite (Hhandles s' s Hin' Hin Hlow).
    by rewrite bool_decide_eq_true_2.
  - destruct (username_to_author students !! PyStr.lower h) as [x|] eqn:Hx;
      [|done].
    unfold username_to_author in Hx.
    destruct (username_to_author_fold_Some _ _ _ _ Hx) as [[Hinx Hlow]|Hempty];
      [|by rewrite lookup_empty in Hempty].
    apply bool_decide_eq_false_2. intros Hkey.
    apply Hne. by rewrite <- (Hkeys x s Hinx Hin Hkey).
Qed.

(** C9. The mapping from handles to contributors is keyed by the
    lower-cased roster handle, and the handles read from the review service
    are lower-cased before the lookup, for the author of a request and for
    its reviewers. So, for a roster in which no two contributors have
    handles that differ only in letter case (or the same name and email),
    each request counter of a contributor is the number of counted requests
    whose author handle is the contributor's up to letter case, and the
    approval and change-request counters are the numbers of counted
    requests with such a review whose reviewer handle is the contributor's
    up to letter case. Every roster handle, lower-cased, resolves to a
    roster contributor with that handle up to case; the loop body gives the
    same statistics when the author handle of the request, or the reviewer
    handle of a review, is replaced by one that differs only in letter case
    (and that is a bot handle, by the prefix "app/", exactly when the
    original is). *)
Theorem handles_match_case_insensitively :
  forall (fnmatch : string -> string -> bool)
         (include_patterns exclude_patterns : list string)
         (students : list Author),
    (forall s, In s students ->
       exists s', username_to_author students !! PyStr.lower (github_username s)
                  = Some s'
                  /\ In s' students
                  /\ PyStr.lower (github_username s')
                     = PyStr.lower (github_username s))
    /\ (forall stats pr h,
          PyStr.lower h = PyStr.lower (author_username pr) ->
          PyStr.startswith "app/" h = PyStr.startswith "app/" (author_username pr) ->
          github_pr_step fnmatch include_patterns exclude_patterns
            (username_to_author students) stats (with_author_username h pr)
          = github_pr_step fnmatch include_patterns exclude_patterns
              (username_to_author students) stats pr)
    /\ (forall st r h,
          PyStr.lower h = PyStr.lower (reviewer_username r) ->
          review_step (username_to_author students) st (with_reviewer_username h r)
          = review_step (username_to_author students) st r)
    /\ (forall s h,
          (forall s1 s2, In s1 students -> In s2 students ->
             PyStr.lower (github_username s1) = PyStr.lower (github_username s2) ->
             s1 = s2) ->
          In s students ->
          PyStr.lower h = PyStr.lower (github_username s) ->
          username_to_author students !! PyStr.lower h = Some s)
    /\ (forall prs s collab merged,
          handles_distinct students -> keys_distinct students ->
          In s students ->
          counter_of (class_counter collab merged)
            (stats_after fnmatch include_patterns exclude_patterns students prs)
            (author_key s)
          = length (List.filter
                      (fun pr =>
                         pr_counts fnmatch include_patterns exclude_patterns pr
                         && same_handle (author_username pr) (github_username s)
                         && request_class collab merged pr) prs))
    /\ (forall prs s,
          handles_distinct students -> keys_distinct students ->
          In s students ->
          approvals_of
            (stats_after fnmatch include_patterns exclude_patterns students prs)
            (author_key s)
          = length (List.filter
                      (fun pr =>
                         pr_counts fnmatch include_patterns exclude_patterns pr
                         && existsb (review_of "APPROVED" s) (reviews pr)) prs)
          /\ change_requests_of
               (stats_after fnmatch include_patterns exclude_patterns students
                  prs)
               (author_key s)
             = length (List.filter
                         (fun pr =>
                            pr_counts fnmatch include_patterns exclude_patterns
                              pr
                            && existsb (review_of "CHANGES_REQUESTED" s)
                                 (reviews pr)) prs)).
Proof.
  intros fnmatch inc exc students.
  split; [|split; [|split; [|split; [|split]]]].
  - intros s Hin. by apply username_to_author_roster.
  - intros stats pr h Hlow Hbot.
    unfold github_pr_step, count_pr, count_reviews, pr_has_matching_files,
      pr_is_collab, is_merged, is_open, with_author_username. simpl.
    by rewrite Hlow, Hbot.
  - intros [[stats sa] sc] r h Hlow.
    unfold review_step, with_reviewer_username. simpl. by rewrite Hlow.
  - intros s h Huniq Hin Hlow.
    destruct (username_to_author_roster students s Hin) as (s' & Hs' & Hin' & Heq).
    rewrite Hlow, Hs'. f_equal. by apply Huniq.
  - intros prs s collab merged Hhandles Hkeys Hin.
    pose proof (initial_stats_lookup students (author_key s)
                  (in_map author_key _ _ Hin)) as Hinit.
    unfold stats_after.
    rewrite github_pr_fold_class_counter by (by eexists).
    unfold counter_of at 1. rewrite Hinit.
    replace (class_counter collab merged (mkGitHubStats 0 0 0 0 0 0)) with 0
      by (by destruct collab, merged).
    cbn [Nat.add]. f_equal. apply List.filter_ext. intros pr.
    unfold authored_by. by rewrite (handle_resolves_to students s).
  - intros prs s Hhandles Hkeys Hin.
    pose proof (initial_stats_lookup students (author_key s)
                  (in_map author_key _ _ Hin)) as Hinit.
    assert (forall disposition r,
              review_by disposition (username_to_author students)
                (author_key s) r
              = review_of disposition s r) as Hreview.
    { intros disposition r. unfold review_by, review_of.
      by rewrite (handle_resolves_to students s). }
    destruct (github_pr_fold_counts fnmatch inc exc (username_to_author students)
                (author_key s) prs (initial_stats students)) as [Ha Hc];
      [by eexists|].
    unfold stats_after. rewrite Ha, Hc.
    unfold approvals_of, change_requests_of. rewrite Hinit.
    cbn [approvals_given change_requests_given Nat.add].
    split; f_equal; apply List.filter_ext; intros pr; f_equal;
      apply existsb_pointwise; intros r; apply Hreview.
Qed.

Lemma handles_match_case_insensitively_witness :
  username_to_author [ann_caps; bob] !! "ann-gh" = Some ann_caps
  /\ stats_after fnmatch_glob ["*"] [] [ann_caps; bob]
       [with_author_username "ANN-gh" bob_request]
     = stats_after fnmatch_glob ["*"] [] [ann_caps; bob]
         [with_author_username "ann-gh" bob_request]
  /\ counter_of prs_alone_merged
       (stats_after fnmatch_glob ["*"] [] [ann_caps; bob]
          [with_author_username "ANN-gh" bob_request; bob_request])
       (author_key ann_caps) = 1
  /\ counter_of prs_alone_merged
       (stats_after fnmatch_glob ["*"] [] [ann_caps; bob]
          [with_author_username "ANN-gh" bob_request; bob_request])
       (author_key bob) = 1
  /\ approvals_of
       (stats_after fnmatch_glob ["*"] [] [ann_caps; bob]
          [with_author_username "ANN-gh" bob_request; bob_request])
       (author_key ann_caps) = 2.
Proof.
  destruct (handles_match_case_insensitively fnmatch_glob ["*"] []
              [ann_caps; bob])
    as (Hroster & Hauthor & Hreview & Huniq & Hauthors & Hreviews).
  assert (handles_distinct [ann_caps; bob]) as Hhandles.
  { intros s1 s2 [<-|[<-|[]]] [<-|[<-|[]]] H; try done;
      vm_compute in H; discriminate H. }
  assert (keys_distinct [ann_caps; bob]) as Hkeys.
  { intros s1 s2 [<-|[<-|[]]] [<-|[<-|[]]] H; try done;
      vm_compute in H; discriminate H. }
  split; [vm_compute; reflexivity|]. split; [|split; [|split]].
  - unfold stats_after. simpl.
    apply (Hauthor _ (with_author_username "ann-gh" bob_request) "ANN-gh");
      reflexivity.
  - etransitivity;
      [exact (Hauthors [with_author_username "ANN-gh" bob_request; bob_request]
                ann_caps false true Hhandles Hkeys (or_introl eq_refl))|].
    vm_compute. reflexivity.
  - etransitivity;
      [exact (Hauthors [with_author_username "ANN-gh" bob_request; bob_request]
                bob false true Hhandles Hkeys (or_intror (or_introl eq_refl)))|].
    vm_compute. reflexivity.
  - destruct (Hreviews [with_author_username "ANN-gh" bob_request; bob_request]
                ann_caps Hhandles Hkeys (or_introl eq_refl)) as [Ha _].
    rewrite Ha. vm_compute. reflexivity.
Defined.
